(** * Mists: fusion of time-series features into a token stream

    A shallow embedding of [modeling_mists.py]: the feature projector, the
    routine [_merge_input_ids_with_time_series_features] and the part of
    [forward] that prepares the inputs of the language model.

    Conventions of the embedding.
    - A 2-D integer tensor is a [list (list Z)], row-major; the boolean
      tensors the code builds are [list (list bool)].
    - The last dimension of an embedding tensor is kept abstract: one
      embedding vector is a value of a type [E] with a zero vector [zeroE].
      The merge only allocates, copies and zeroes such vectors.
    - Sizes are [nat], every index computed by the code is a [Z]; an index
      used to write follows the rule of the tensor runtime: [0 <= i < n]
      addresses column [i], [-n <= i < 0] addresses column [i + n], anything
      else raises.
    - Device and dtype moves ([.to(...)]) do not change values and are left
      out. *)

From Stdlib Require Import ZArith Lia.
From stdpp Require Import base list.

Local Open Scope Z_scope.

(** [lmap] is stdpp's [fmap] on lists. *)
Abbreviation lmap := (fmap (M := list)) (only parsing).

(** ** Errors *)

(** [ValueError] is the error the merge raises itself; [TensorError] stands
    for any other exception: an index out of range, a shape mismatch, a
    reduction over an empty tensor, a tensor operation on [None]. *)
Inductive error : Type :=
  | ValueError
  | TensorError.

Inductive result (A : Type) : Type :=
  | Ok (a : A)
  | Raise (e : error).

Arguments Ok {A} a.
Arguments Raise {A} e.

(** Sequencing: the first error aborts the computation. It is used
    through stdpp's [x ← r; k] notation. *)
#[global] Instance result_bind : MBind result :=
  fun A B (k : A -> result B) (r : result A) =>
    match r with
    | Ok a => k a
    | Raise e => Raise e
    end.

Definition of_option {A : Type} (o : option A) : result A :=
  match o with
  | Some a => Ok a
  | None => Raise TensorError
  end.

(** ** Tensor primitives *)

Module Torch.

Definition b2z (b : bool) : Z := if b then 1 else 0.

(** [torch.sum] of an integer vector. *)
Definition sum (l : list Z) : Z := foldr Z.add 0 l.

(** [torch.cumsum(., -1)] of one row: inclusive running sums. *)
Fixpoint cumsum_from (acc : Z) (l : list Z) : list Z :=
  match l with
  | [] => []
  | x :: l' => (acc + x) :: cumsum_from (acc + x) l'
  end.

Definition cumsum (l : list Z) : list Z := cumsum_from 0 l.

(** [t.max()] of a vector; the runtime raises on an empty one. *)
Definition max (l : list Z) : result Z :=
  match l with
  | [] => Raise TensorError
  | x :: l' => Ok (foldr Z.max x l')
  end.

(** [t[:, -1]]: the last column; raises when a row is empty. *)
Definition last_column {A : Type} (t : list (list A)) : result (list A) :=
  foldr (fun row acc => x ← of_option (last row); r ← acc; Ok (x :: r))
        (Ok []) t.

(** [torch.where(m)] on a 2-D boolean tensor: the coordinates of the true
    entries in row-major order. *)
Fixpoint where_row (b : nat) (j : nat) (row : list bool) : list (nat * nat) :=
  match row with
  | [] => []
  | x :: row' =>
      if x then (b, j) :: where_row b (S j) row' else where_row b (S j) row'
  end.

Fixpoint where_from (b : nat) (m : list (list bool)) : list (nat * nat) :=
  match m with
  | [] => []
  | row :: m' => where_row b 0 row ++ where_from (S b) m'
  end.

Definition where2 (m : list (list bool)) : list (nat * nat) := where_from 0 m.

(** The entry of [t] at row [b], column [j], if there is one. *)
Definition lookup2 {A : Type} (t : list (list A)) (b j : nat) : option A :=
  row ← t !! b; row !! j.

(** [t[b, j]] for coordinates produced by [where2]. *)
Definition get2 {A : Type} (t : list (list A)) (bj : nat * nat) : result A :=
  of_option (lookup2 t bj.1 bj.2).

(** [t[batch_indices, column_indices]] read as a vector. *)
Fixpoint gather2 {A : Type} (t : list (list A)) (idx : list (nat * nat))
  : result (list A) :=
  match idx with
  | [] => Ok []
  | bj :: idx' => x ← get2 t bj; r ← gather2 t idx'; Ok (x :: r)
  end.

(** The column a written index addresses in a row of [n] columns. *)
Definition norm_index (n : nat) (i : Z) : result nat :=
  if (0 <=? i) && (i <? Z.of_nat n) then Ok (Z.to_nat i)
  else if (- Z.of_nat n <=? i) && (i <? 0) then Ok (Z.to_nat (i + Z.of_nat n))
  else Raise TensorError.

(** [t[b, i] = v] for one coordinate. *)
Definition put2 {A : Type} (t : list (list A)) (b : nat) (i : Z) (v : A)
  : result (list (list A)) :=
  row ← of_option (t !! b);
  k ← norm_index (length row) i;
  Ok (<[b := <[k := v]> row]> t).

(** [t[batch_indices, columns] = values]: the writes are applied in order,
    so that a later write to the same coordinate wins. *)
Fixpoint index_put2 {A : Type} (t : list (list A)) (upd : list (nat * Z * A))
  : result (list (list A)) :=
  match upd with
  | [] => Ok t
  | (b, i, v) :: upd' => t' ← put2 t b i v; index_put2 t' upd'
  end.

(** The update list of [t[bs, cols] = vals]. *)
Definition updates {A : Type} (bs : list (nat * nat)) (cols : list Z)
    (vals : list A) : list (nat * Z * A) :=
  zip_with (fun bc v => (bc.1.1, bc.2, v)) (zip bs cols) vals.

(** The update list of [t[bs, cols] = v] for a scalar [v]. *)
Definition fills {A : Type} (bs : list (nat * nat)) (cols : list Z) (v : A)
  : list (nat * Z * A) :=
  zip_with (fun bj c => (bj.1, c, v)) bs cols.

(** [t[m] = src] for a boolean tensor [m] of the shape of [t]: the true
    positions are filled in row-major order from [src]. One row at a time;
    the rest of [src] is handed on. *)
Fixpoint masked_assign_row {A : Type} (row : list A) (m : list bool)
    (src : list A) : result (list A * list A) :=
  match row, m with
  | [], [] => Ok ([], src)
  | x :: row', c :: m' =>
      if c then
        match src with
        | [] => Raise TensorError
        | s :: src' =>
            r ← masked_assign_row row' m' src'; Ok (s :: r.1, r.2)
        end
      else r ← masked_assign_row row' m' src; Ok (x :: r.1, r.2)
  | _, _ => Raise TensorError
  end.

Fixpoint masked_assign_rows {A : Type} (t : list (list A))
    (m : list (list bool)) (src : list A) : result (list (list A) * list A) :=
  match t, m with
  | [], [] => Ok ([], src)
  | row :: t', mrow :: m' =>
      r ← masked_assign_row row mrow src;
      r' ← masked_assign_rows t' m' r.2;
      Ok (r.1 :: r'.1, r'.2)
  | _, _ => Raise TensorError
  end.

Definition masked_assign {A : Type} (t : list (list A)) (m : list (list bool))
    (src : list A) : result (list (list A)) :=
  r ← masked_assign_rows t m src;
  match r.2 with
  | [] => Ok r.1
  | _ :: _ => Raise TensorError
  end.

(** An elementwise operation on a 2-D tensor. *)
Definition pointwise {A B : Type} (f : A -> B) (t : list (list A))
  : list (list B) :=
  lmap (lmap f) t.

(** [torch.full((b, n), v)]. *)
Definition full {A : Type} (b n : nat) (v : A) : list (list A) :=
  replicate b (replicate n v).

End Torch.

(** ** The fusion engine *)

(** A time-series feature batch of shape
    [(num_time_series, num_time_series_patches, embed_dim)]: its two leading
    sizes and its contents flattened to [(-1, embed_dim)], one embedding
    vector per patch. *)
Record features (E : Type) : Type := Features {
  num_time_series : nat;
  num_time_series_patches : nat;
  flat : list E
}.

Arguments Features {E} _ _ _.
Arguments num_time_series {E} _.
Arguments num_time_series_patches {E} _.
Arguments flat {E} _.

(** What the merge returns: embeddings, attention mask, labels, position
    ids. *)
Record fused (E : Type) : Type := Fused {
  final_embedding : list (list E);
  final_attention_mask : list (list Z);
  final_labels : option (list (list Z));
  fused_position_ids : list (list Z)
}.

Arguments Fused {E} _ _ _ _.
Arguments final_embedding {E} _.
Arguments final_attention_mask {E} _.
Arguments final_labels {E} _.
Arguments fused_position_ids {E} _.

Section Merge.

Context {E : Type}.
Variable zeroE : E.

(** [self.pad_token_id], [config.time_series_token_index] and
    [config.ignore_index]. *)
Variable pad_token_id : Z.
Variable time_series_token_index : Z.
Variable ignore_index : Z.

Import Torch.

(** [input_ids.shape]. *)
Definition batch_size (input_ids : list (list Z)) : nat := length input_ids.

Definition sequence_length (input_ids : list (list Z)) : nat :=
  length (default [] (head input_ids)).

(** Line 133: [not torch.sum(input_ids[:, -1] == pad_token_id)]. *)
Definition left_padding (input_ids : list (list Z)) : result bool :=
  col ← last_column input_ids;
  Ok (sum (lmap (fun x => b2z (x =? pad_token_id)) col) =? 0).

(** Line 135. *)
Definition special_time_series_token_mask (input_ids : list (list Z))
  : list (list bool) :=
  pointwise (fun x => x =? time_series_token_index) input_ids.

(** Line 136. *)
Definition num_special_time_series_tokens (input_ids : list (list Z))
  : list Z :=
  lmap (fun row => sum (lmap b2z row))
       (special_time_series_token_mask input_ids).

(** Lines 138-139. *)
Definition max_embed_dim (P : nat) (input_ids : list (list Z)) : result Z :=
  m ← max (num_special_time_series_tokens input_ids);
  Ok (m * (Z.of_nat P - 1) + Z.of_nat (sequence_length input_ids)).

(** Line 140: the coordinates of the tokens that are not placeholders. *)
Definition non_time_series (input_ids : list (list Z)) : list (nat * nat) :=
  where2 (pointwise (fun x => negb (x =? time_series_token_index)) input_ids).

(** Line 147, before the left-padding offset. *)
Definition new_token_positions0 (P : nat) (input_ids : list (list Z))
  : list (list Z) :=
  lmap (fun row =>
         lmap (fun c => c - 1)
             (cumsum (lmap (fun b => b2z b * (Z.of_nat P - 1) + 1) row)))
      (special_time_series_token_mask input_ids).

(** Line 148. *)
Definition nb_time_series_pad (P : nat) (input_ids : list (list Z))
  : result (list Z) :=
  med ← max_embed_dim P input_ids;
  col ← last_column (new_token_positions0 P input_ids);
  Ok (lmap (fun x => med - 1 - x) col).

(** Lines 147-150. *)
Definition new_token_positions (P : nat) (input_ids : list (list Z))
  : result (list (list Z)) :=
  lp ← left_padding input_ids;
  pad ← nb_time_series_pad P input_ids;
  let pos := new_token_positions0 P input_ids in
  Ok (if (lp : bool)
      then zip_with (fun (row : list Z) (n : Z) => lmap (fun x => x + n) row)
                    pos pad
      else pos).

(** Lines 182-186: the time-series slots. *)
Definition skip_pad (n : Z) (row : list bool) : list bool :=
  zip_with (fun x c => x && (n <=? c - 1)) row (cumsum (lmap b2z row)).

Definition time_series_to_overwrite (P : nat) (input_ids : list (list Z))
  : result (list (list bool)) :=
  med ← max_embed_dim P input_ids;
  pos ← new_token_positions P input_ids;
  pad ← nb_time_series_pad P input_ids;
  let idx := non_time_series input_ids in
  text_to_overwrite ← gather2 pos idx;
  free ← index_put2 (full (batch_size input_ids) (Z.to_nat med) true)
                    (fills idx text_to_overwrite false);
  Ok (zip_with skip_pad pad free).

(** The number of time-series slots, [time_series_to_overwrite.sum()]. *)
Definition count_true (m : list (list bool)) : Z :=
  sum (lmap (fun row => sum (lmap b2z row)) m).

(** Line 196 on one row. *)
Definition position_row (mask : list Z) : list Z :=
  zip_with (fun c m => if m =? 0 then 1 else c - 1) (cumsum mask) mask.

Definition _merge_input_ids_with_time_series_features
    (time_series_features : features E) (inputs_embeds : list (list E))
    (input_ids : list (list Z)) (attention_mask : list (list Z))
    (labels : option (list (list Z))) : result (fused E) :=
  let P := num_time_series_patches time_series_features in
  let B := batch_size input_ids in
  med ← max_embed_dim P input_ids;
  let idx := non_time_series input_ids in
  pos ← new_token_positions P input_ids;
  text_to_overwrite ← gather2 pos idx;
  (* 3. the full tensors, padded to the maximum position *)
  _ ← (if med <? 0 then Raise TensorError else Ok ());
  let emb0 := full B (Z.to_nat med) zeroE in
  let mask0 := full B (Z.to_nat med) 0 in
  (* 4. the text *)
  e ← gather2 inputs_embeds idx;
  emb1 ← index_put2 emb0 (updates idx text_to_overwrite e);
  a ← gather2 attention_mask idx;
  mask1 ← index_put2 mask0 (updates idx text_to_overwrite a);
  lab1 ← match labels with
         | Some lab =>
             l ← gather2 lab idx;
             r ← index_put2 (full B (Z.to_nat med) ignore_index)
                            (updates idx text_to_overwrite l);
             Ok (Some r)
         | None => Ok None
         end;
  (* 5. the time series *)
  ts ← time_series_to_overwrite P input_ids;
  _ ← (if count_true ts =?
            Z.of_nat (num_time_series time_series_features * P)
       then Ok () else Raise ValueError);
  emb2 ← masked_assign emb1 ts (flat time_series_features);
  let mask2 := zip_with (zip_with (fun m b => Z.lor m (b2z b))) mask1 ts in
  let position_ids := lmap position_row mask2 in
  (* 6. the embeddings at padding positions *)
  let pads := where2 (pointwise (fun x => x =? pad_token_id) input_ids) in
  indices_to_mask ← gather2 pos pads;
  emb3 ← index_put2 emb2 (fills pads indices_to_mask zeroE);
  Ok (Fused emb3 mask2 lab1 position_ids).

End Merge.

(** ** The feature projector *)

(** [MistsMultiModalProjector]. The last dimension is kept abstract here as
    well: [V] is a vector of the time-series hidden size, [H] one of the text
    hidden size, [F] the scalar type of the validity mask. [scale x v] is the
    broadcast product [x * v.unsqueeze(-1)] at one patch, [vadd] the sum of
    two vectors, [fsub] the scalar subtraction. The parameters of the module
    are [mask_embedding], the two [nn.Linear] layers and the configured
    activation. *)
Section Projector.

Context {F V H : Type}.
Variable scale : V -> F -> V.
Variable vadd : V -> V -> V.
Variable fsub : F -> F -> F.
Variable f1 : F.

Variable mask_embedding : V.
Variable linear_1 : V -> H.
Variable act : H -> H.
Variable linear_2 : H -> H.

(** Line 48 at one patch. *)
Definition masked_features (x : V) (v : F) : V :=
  vadd (scale x v) (scale mask_embedding (fsub f1 v)).

(** Lines 49-51 at one patch. *)
Definition mlp (x : V) : H := linear_2 (act (linear_1 x)).

(** [MistsMultiModalProjector.forward]: features of shape
    (instances, patches, raw) and a mask of shape (instances, patches). *)
Definition projector_forward (time_series_features : list (list V))
    (input_mask : list (list F)) : list (list H) :=
  zip_with (zip_with (fun x v => mlp (masked_features x v)))
           time_series_features input_mask.

End Projector.

(** ** The inputs of the language model *)

(** The key tensor of the first layer of the cache,
    [past_key_values[0][0]], of shape (batch, heads, length, head_dim). *)
Record key_states (K : Type) : Type := KeyStates {
  kv_batch : nat;
  kv_heads : nat;
  kv_length : nat;
  kv_head_dim : nat;
  kv_at : nat -> nat -> nat -> nat -> K
}.

Arguments KeyStates {K} _ _ _ _ _.
Arguments kv_batch {K} _.
Arguments kv_heads {K} _.
Arguments kv_length {K} _.
Arguments kv_head_dim {K} _.
Arguments kv_at {K} _ _ _ _ _.

(** The arguments [forward] hands to [self.language_model], and the labels
    it keeps for the loss. *)
Record lm_inputs (E : Type) : Type := LmInputs {
  lm_attention_mask : option (list (list Z));
  lm_position_ids : option (list (list Z));
  lm_inputs_embeds : list (list E);
  lm_labels : option (list (list Z))
}.

Arguments LmInputs {E} _ _ _ _.
Arguments lm_attention_mask {E} _.
Arguments lm_position_ids {E} _.
Arguments lm_inputs_embeds {E} _.
Arguments lm_labels {E} _.

Section Forward.

Context {E K TSV TSM : Type}.
Variable zeroE : E.
Variable pad_token_id : Z.
Variable time_series_token_index : Z.
Variable ignore_index : Z.

(** The collaborators: the embedding table of the language model, and the
    time-series tower followed by the projector (lines 248-252). *)
Variable get_input_embeddings : Z -> E.
Variable time_series_features_of : TSV -> option TSM -> features E.

(** The arithmetic of the cache entries: [.float().sum(-2)] adds with
    [kadd] from [k0], and [== 0] is [k_is_zero]. *)
Variable kadd : K -> K -> K.
Variable k0 : K.
Variable k_is_zero : K -> bool.

Import Torch.

(** Lines 264-267: which cache slots sum to zero over the heads. *)
Definition zero_slots (kv : key_states K) : result (list (list bool)) :=
  if (kv_head_dim kv =? 0)%nat then Raise TensorError
  else
    Ok (lmap (fun b =>
               lmap (fun t =>
                      k_is_zero
                        (foldr kadd k0
                               (lmap (fun h => kv_at kv b h t 0%nat)
                                    (seq 0 (kv_heads kv)))))
                   (seq 0 (kv_length kv)))
            (seq 0 (kv_batch kv))).

(** [t[:, -n:]] on one row. *)
Definition suffix {A : Type} (n : nat) (row : list A) : list A :=
  drop (length row - n)%nat row.

(** Lines 270-289. *)
Definition extended_attention_mask (kv : key_states K)
    (attention_mask : list (list Z)) (target_length : nat)
  : result (list (list Z)) :=
  zs ← zero_slots kv;
  let non_attended := where2 zs in
  let past_length := kv_length kv in
  let ones := full (length attention_mask) past_length 1 in
  let valid :=
    filter (fun bt => Z.of_nat bt.2 < Z.of_nat past_length) non_attended in
  ext ← index_put2 ones (lmap (fun bt => (bt.1, Z.of_nat bt.2, 0)) valid);
  Ok (zip_with (fun row am => row ++ suffix target_length am)
               ext attention_mask).

(** [forward] up to the call of the language model (lines 242-301). *)
Definition forward (input_ids : option (list (list Z)))
    (time_series_values : option TSV) (time_series_input_mask : option TSM)
    (attention_mask position_ids : option (list (list Z)))
    (past_key_values : option (key_states K))
    (inputs_embeds : option (list (list E)))
    (labels : option (list (list Z))) : result (lm_inputs E) :=
  match inputs_embeds with
  | Some e => Ok (LmInputs attention_mask position_ids e labels)
  | None =>
      ids ← of_option input_ids;
      let e := pointwise get_input_embeddings ids in
      match time_series_values, past_key_values with
      | Some tsv, past =>
          if negb (sequence_length ids =? 1)%nat then
            let tsf := time_series_features_of tsv time_series_input_mask in
            am ← of_option attention_mask;
            r ← _merge_input_ids_with_time_series_features
                  zeroE pad_token_id time_series_token_index ignore_index
                  tsf e ids am labels;
            Ok (LmInputs (Some (final_attention_mask r))
                         (Some (fused_position_ids r))
                         (final_embedding r) (final_labels r))
          else
            match past with
            | Some kv =>
                am ← of_option attention_mask;
                ext ← extended_attention_mask kv am (sequence_length ids);
                Ok (LmInputs (Some ext)
                             (Some (lmap (fun row => [sum row - 1]) ext))
                             e labels)
            | None => Ok (LmInputs attention_mask position_ids e labels)
            end
      | None, _ => Ok (LmInputs attention_mask position_ids e labels)
      end
  end.

End Forward.

(** ** Vocabulary of the statements *)

(** What one token takes in the fused row: a placeholder takes one slot per
    patch, any other token one slot. *)
Definition slots (time_series_token_index : Z) (P : nat) (x : Z) : Z :=
  if x =? time_series_token_index then Z.of_nat P else 1.

(** The running sum of [slots] over the columns [0 .. j] of a row. *)
Definition running_sum (time_series_token_index : Z) (P : nat)
    (row : list Z) (j : nat) : Z :=
  Torch.sum (lmap (slots time_series_token_index P) (take (S j) row)).

(** The number of placeholders of a row. *)
Definition placeholders (time_series_token_index : Z) (row : list Z) : Z :=
  Torch.sum (lmap (fun x => Torch.b2z (x =? time_series_token_index)) row).

(** The number of placeholders of a batch. *)
Definition total_placeholders (time_series_token_index : Z)
    (input_ids : list (list Z)) : Z :=
  Torch.sum (placeholders time_series_token_index <$> input_ids).

(** The number of nonzero entries of a mask row. *)
Definition count_nonzero (row : list Z) : Z :=
  Torch.sum (lmap (fun m => Torch.b2z (negb (m =? 0))) row).

(** A tensor of [B] rows and [L] columns. *)
Definition shaped {A : Type} (B L : nat) (t : list (list A)) : Prop :=
  length t = B /\ Forall (fun row => length row = L) t.

(** A mask holds zeros and ones only. *)
Definition is_mask (t : list (list Z)) : Prop :=
  Forall (Forall (fun m => m = 0 \/ m = 1)) t.

(** The inputs of the merge have the shapes the code unpacks: a non-empty
    batch of non-empty rows, embeddings, mask and labels of the shape of
    [input_ids], at least one patch per instance, and
    [num_time_series * num_time_series_patches] feature vectors. *)
Record well_shaped {E : Type} (tsf : features E)
    (inputs_embeds : list (list E)) (input_ids attention_mask : list (list Z))
    (labels : option (list (list Z))) : Prop := WellShaped {
  ws_batch : (0 < batch_size input_ids)%nat;
  ws_length : (0 < sequence_length input_ids)%nat;
  ws_ids : shaped (batch_size input_ids) (sequence_length input_ids) input_ids;
  ws_embeds :
    shaped (batch_size input_ids) (sequence_length input_ids) inputs_embeds;
  ws_mask :
    shaped (batch_size input_ids) (sequence_length input_ids) attention_mask;
  ws_labels : forall lab, labels = Some lab ->
    shaped (batch_size input_ids) (sequence_length input_ids) lab;
  ws_patches : (0 < num_time_series_patches tsf)%nat;
  ws_flat :
    length (flat tsf) = (num_time_series tsf * num_time_series_patches tsf)%nat
}.

(** The destination column of column [j] of a row: the running sum minus
    one, moved right in a left-padded batch by what the row lacks to reach
    the fused length [med]. *)
Definition destination (time_series_token_index : Z) (P : nat) (lp : bool)
    (med : Z) (row : list Z) (j : nat) : Z :=
  running_sum time_series_token_index P row j - 1 +
  (if lp
   then med - 1 -
        (running_sum time_series_token_index P row (length row - 1) - 1)
   else 0).

(** [destination] and the entry of a tensor as total functions of a
    coordinate of [input_ids]. *)
Definition destination_at (time_series_token_index : Z) (P : nat) (lp : bool)
    (med : Z) (input_ids : list (list Z)) (bj : nat * nat) : Z :=
  destination time_series_token_index P lp med
              (default [] (input_ids !! bj.1)) bj.2.

Definition entry_at {A : Type} (d : A) (t : list (list A)) (bj : nat * nat)
  : A :=
  default d (Torch.lookup2 t bj.1 bj.2).

(** The writes [t[batch_indices, destinations] = f] over the coordinates
    [idx] of [input_ids]. *)
Definition writes {A : Type} (time_series_token_index : Z) (P : nat)
    (lp : bool) (med : Z) (input_ids : list (list Z))
    (idx : list (nat * nat)) (f : nat * nat -> A) : list (nat * Z * A) :=
  (fun bj =>
     (bj.1, destination_at time_series_token_index P lp med input_ids bj, f bj))
  <$> idx.

(** The total counterpart of [Torch.index_put2] for writes that are in
    range and not negative. *)
Definition puts {A : Type} (t : list (list A)) (upd : list (nat * Z * A))
  : list (list A) :=
  foldl (fun t u => alter (fun row => <[Z.to_nat u.1.2 := u.2]> row) u.1.1 t)
        t upd.

(** The number of true entries of row [b] of a boolean tensor. *)
Definition row_count (t : list (list bool)) (b : nat) : Z :=
  Torch.sum (Torch.b2z <$> default [] (t !! b)).

(** Coordinates that address entries of [input_ids]. *)
Definition valid_coordinates (input_ids : list (list Z))
    (idx : list (nat * nat)) : Prop :=
  forall bj, bj ∈ idx -> is_Some (Torch.lookup2 input_ids bj.1 bj.2).

(** The closed form of [time_series_to_overwrite] on well-shaped inputs:
    everything is free except the destinations of the text, and each row
    skips as many free columns as it lacks to reach the fused length. *)
Definition slot_mask (time_series_token_index : Z) (P : nat) (lp : bool)
    (med : Z) (input_ids : list (list Z)) : list (list bool) :=
  zip_with skip_pad
    ((fun row =>
        med - 1 -
        (running_sum time_series_token_index P row (length row - 1) - 1))
     <$> input_ids)
    (puts (Torch.full (batch_size input_ids) (Z.to_nat med) true)
          (writes time_series_token_index P lp med input_ids
                  (non_time_series time_series_token_index input_ids)
                  (fun _ => false))).

(** The closed forms of the tensors the merge fills with the text. *)
Definition text_tensor {A : Type} (time_series_token_index : Z) (P : nat)
    (lp : bool) (med : Z) (input_ids : list (list Z)) (fill : A)
    (t : list (list A)) : list (list A) :=
  puts (Torch.full (batch_size input_ids) (Z.to_nat med) fill)
       (writes time_series_token_index P lp med input_ids
               (non_time_series time_series_token_index input_ids)
               (entry_at fill t)).

Definition fused_mask (time_series_token_index : Z) (P : nat) (lp : bool)
    (med : Z) (input_ids attention_mask : list (list Z)) : list (list Z) :=
  zip_with (zip_with (fun m b => Z.lor m (Torch.b2z b)))
    (text_tensor time_series_token_index P lp med input_ids 0 attention_mask)
    (slot_mask time_series_token_index P lp med input_ids).

(** The fused length one row asks for. *)
Definition row_fused_length (time_series_token_index : Z) (P : nat)
    (row : list Z) : Z :=
  placeholders time_series_token_index row * (Z.of_nat P - 1) +
  Z.of_nat (length row).

(** "output = validity * linear_transform(raw_feature) + (1 - validity) *
    learned_fallback_vector, then apply a two-layer feed-forward transform":
    the projector as the specification words it, with the linear transform
    of the raw feature as a parameter. It is compared with
    [projector_forward] below. *)
Definition projector_as_specified {F V H : Type} (scale : V -> F -> V)
    (vadd : V -> V -> V) (fsub : F -> F -> F) (f1 : F) (mask_embedding : V)
    (linear_1 : V -> H) (act : H -> H) (linear_2 : H -> H)
    (linear_transform : V -> V) (time_series_features : list (list V))
    (input_mask : list (list F)) : list (list H) :=
  zip_with
    (zip_with (fun x v =>
       mlp linear_1 act linear_2
           (vadd (scale (linear_transform x) v)
                 (scale mask_embedding (fsub f1 v)))))
    time_series_features input_mask.

(** ** The rest of the model: construction, loss inputs, generation *)

(** The key entries of one cache slot added over the heads, the value
    lines 264-267 compare with zero. *)
Definition summed_key {K : Type} (kadd : K -> K -> K) (k0 : K)
    (kv : key_states K) (b t : nat) : K :=
  foldr kadd k0 (lmap (fun h => kv_at kv b h t 0%nat) (seq 0 (kv_heads kv))).

(** Line 91 of [__init__]: the pad id of the model when the configuration
    may have none. *)
Definition init_pad_token_id (config_pad_token_id : option Z) : Z :=
  match config_pad_token_id with
  | Some p => p
  | None => -1
  end.

(** [t[mask]] read as a vector, for a boolean tensor of the shape of [t]:
    the entries at the true positions in row-major order. *)
Fixpoint masked_select_row {A : Type} (row : list A) (m : list bool)
  : result (list A) :=
  match row, m with
  | [], [] => Ok []
  | x :: row', c :: m' =>
      r ← masked_select_row row' m'; Ok (if c then x :: r else r)
  | _, _ => Raise TensorError
  end.

Fixpoint masked_select {A : Type} (t : list (list A)) (m : list (list bool))
  : result (list A) :=
  match t, m with
  | [], [] => Ok []
  | row :: t', mrow :: m' =>
      r ← masked_select_row row mrow;
      r' ← masked_select t' m';
      Ok (r ++ r')
  | _, _ => Raise TensorError
  end.

(** [row[start:]] with the slice rule of the language: a negative start
    counts from the end and is clamped at the first column. *)
Definition slice_from {A : Type} (start : Z) (row : list A) : list A :=
  drop (Z.to_nat (if start <? 0
                  then Z.max 0 (Z.of_nat (length row) + start)
                  else start))
       row.

Section Loss.

Context {G Loss : Type}.

(** [nn.CrossEntropyLoss()] on the flattened logits and labels; it raises
    when their numbers differ. *)
Variable cross_entropy : list G -> list Z -> Loss.

(** [t[..., :-1, :]] on one row. *)
Definition drop_last {A : Type} (row : list A) : list A :=
  take (length row - 1)%nat row.

(** Lines 308-314: the logits and the labels that enter the loss. *)
Definition loss_inputs (logits : list (list G)) (labels : list (list Z))
    (attention_mask : option (list (list Z))) : result (list G * list Z) :=
  match attention_mask with
  | Some am =>
      let shift_attention_mask :=
        Torch.pointwise (fun m => negb (m =? 0)) (lmap (drop 1) am) in
      shift_logits ← masked_select (lmap drop_last logits)
                                   shift_attention_mask;
      shift_labels ← masked_select (lmap (drop 1) labels)
                                   shift_attention_mask;
      Ok (shift_logits, shift_labels)
  | None =>
      Ok (concat (lmap drop_last logits), concat (lmap (drop 1) labels))
  end.

(** Lines 305-319. *)
Definition forward_loss (logits : list (list G))
    (labels attention_mask : option (list (list Z))) : result (option Loss) :=
  match labels with
  | None => Ok None
  | Some lab =>
      p ← loss_inputs logits lab attention_mask;
      if (length p.1 =? length p.2)%nat
      then Ok (Some (cross_entropy p.1 p.2))
      else Raise TensorError
  end.

End Loss.

(** What [prepare_inputs_for_generation] reads of [past_key_values]: an
    empty tuple, a tuple whose first key tensor has [shape[2]] entries, or a
    [Cache] object with its sequence length, its seen tokens and its truth
    value. *)
Inductive past : Type :=
  | EmptyTuple
  | LegacyTuple (length : nat)
  | CacheObject (get_seq_length seen_tokens : nat) (truthy : bool).

(** The keyword arguments the function reads. *)
Record generation_kwargs : Type := GenerationKwargs {
  kw_position_ids : option (list (list Z));
  kw_use_cache : option bool
}.

(** The dictionary it returns: [inputs_embeds] or [input_ids] under the
    first key, then the five keys of the update. *)
Record model_inputs (E TSV : Type) : Type := ModelInputs {
  mi_inputs : list (list E) + list (list Z);
  mi_position_ids : option (list (list Z));
  mi_past_key_values : option past;
  mi_use_cache : option bool;
  mi_attention_mask : option (list (list Z));
  mi_time_series_values : option TSV
}.

Arguments ModelInputs {E TSV} _ _ _ _ _ _.
Arguments mi_inputs {E TSV} _.
Arguments mi_position_ids {E TSV} _.
Arguments mi_past_key_values {E TSV} _.
Arguments mi_use_cache {E TSV} _.
Arguments mi_attention_mask {E TSV} _.
Arguments mi_time_series_values {E TSV} _.

Section Generation.

Context {E TSV : Type}.
Variable time_series_token_index : Z.

(** [x in input_ids]. *)
Definition contains (x : Z) (input_ids : list (list Z)) : bool :=
  existsb (existsb (Z.eqb x)) input_ids.

(** Lines 337-341. *)
Definition cache_lengths (pkv : past) : result (nat * nat) :=
  match pkv with
  | EmptyTuple => Raise TensorError
  | LegacyTuple n => Ok (n, n)
  | CacheObject c s _ => Ok (c, s)
  end.

(** Lines 347-355: only the unprocessed tokens are kept. *)
Definition unprocessed (past_length : nat)
    (attention_mask : option (list (list Z))) (input_ids : list (list Z))
  : list (list Z) :=
  let L := sequence_length input_ids in
  match attention_mask with
  | Some am =>
      if (L <? sequence_length am)%nat then
        lmap (slice_from (- (Z.of_nat (sequence_length am) -
                             Z.of_nat past_length))) input_ids
      else if (past_length <? L)%nat then
        lmap (slice_from (Z.of_nat past_length)) input_ids
      else if contains time_series_token_index input_ids then
        lmap (slice_from (Z.of_nat L - 1)) input_ids
      else input_ids
  | None =>
      if (past_length <? L)%nat then
        lmap (slice_from (Z.of_nat past_length)) input_ids
      else if contains time_series_token_index input_ids then
        lmap (slice_from (Z.of_nat L - 1)) input_ids
      else input_ids
  end.

(** Lines 358-359: a cache with a size limit discards the older attention
    values. *)
Definition bounded_mask (cache_length past_length : nat)
    (input_ids : list (list Z)) (attention_mask : option (list (list Z)))
  : option (list (list Z)) :=
  match attention_mask with
  | Some am =>
      if (cache_length <? past_length)%nat then
        Some (lmap (slice_from (- (Z.of_nat cache_length +
                                   Z.of_nat (sequence_length input_ids))))
                   am)
      else Some am
  | None => None
  end.

(** [if past_key_values:]. *)
Definition past_truthy (past_key_values : option past) : bool :=
  match past_key_values with
  | None | Some EmptyTuple => false
  | Some (LegacyTuple _) => true
  | Some (CacheObject _ _ t) => t
  end.

(** Lines 361-367. *)
Definition generation_position_ids (past_key_values : option past)
    (input_ids : list (list Z)) (attention_mask : option (list (list Z)))
    (position_ids : option (list (list Z))) : option (list (list Z)) :=
  match attention_mask, position_ids with
  | Some am, None =>
      let p := lmap position_row am in
      Some (if past_truthy past_key_values
            then lmap (slice_from (- Z.of_nat (sequence_length input_ids))) p
            else p)
  | _, _ => position_ids
  end.

Definition prepare_inputs_for_generation (input_ids : list (list Z))
    (past_key_values : option past) (inputs_embeds : option (list (list E)))
    (time_series_values : option TSV)
    (attention_mask : option (list (list Z))) (kwargs : generation_kwargs)
  : result (model_inputs E TSV) :=
  kept ← match past_key_values with
         | Some pkv =>
             lens ← cache_lengths pkv;
             let ids := unprocessed lens.2 attention_mask input_ids in
             Ok (ids, bounded_mask lens.1 lens.2 ids attention_mask)
         | None => Ok (input_ids, attention_mask)
         end;
  let position_ids :=
    generation_position_ids past_key_values kept.1 kept.2
                            (kw_position_ids kwargs) in
  let first :=
    match inputs_embeds, past_key_values with
    | Some e, None => inl e
    | _, _ => inr kept.1
    end in
  Ok (ModelInputs first position_ids past_key_values (kw_use_cache kwargs)
                  kept.2 time_series_values).

End Generation.

(** ** Sample inputs *)

(** Embedding vectors of dimension one over [Z], placeholder id 99, pad
    id 0, ignore index -100. *)
Module Sample.

Definition merge :=
  _merge_input_ids_with_time_series_features (E := Z) 0 0 99 (-100).

(** Two rows of five tokens, one placeholder in row 0, one instance of
    three patches; no row ends in the pad id. *)
Definition ids : list (list Z) := [[5; 6; 99; 7; 8]; [1; 2; 3; 4; 5]].
Definition embeds : list (list Z) :=
  [[50; 60; 990; 70; 80]; [10; 20; 30; 40; 50]].
Definition mask : list (list Z) := [[1; 1; 1; 1; 1]; [1; 1; 1; 1; 1]].
Definition labels : list (list Z) :=
  [[15; 16; 17; 18; 19]; [11; 12; 13; 14; 15]].
Definition tsf : features Z := Features 1 3 [1001; 1002; 1003].

Definition out : fused Z :=
  Fused [[50; 60; 1001; 1002; 1003; 70; 80]; [0; 0; 10; 20; 30; 40; 50]]
        [[1; 1; 1; 1; 1; 1; 1]; [0; 0; 1; 1; 1; 1; 1]]
        (Some [[15; 16; -100; -100; -100; 18; 19];
               [-100; -100; 11; 12; 13; 14; 15]])
        [[0; 1; 2; 3; 4; 5; 6]; [1; 1; 0; 1; 2; 3; 4]].

(** One row without placeholder that ends in the pad id, and no
    features. *)
Definition plain_ids : list (list Z) := [[7; 8; 0]].
Definition plain_embeds : list (list Z) := [[70; 80; 30]].
Definition plain_mask : list (list Z) := [[1; 1; 0]].
Definition no_tsf : features Z := Features 0 1 [].

(** One right-padded row with a placeholder, one instance of two
    patches. *)
Definition padded_ids : list (list Z) := [[5; 99; 0]].
Definition padded_embeds : list (list Z) := [[50; 990; 30]].
Definition padded_mask : list (list Z) := [[1; 1; 0]].
Definition padded_tsf : features Z := Features 1 2 [1001; 1002].

(** A projector over [Z] with one-dimensional vectors: the fallback is 5,
    the first layer doubles, the activation is the ReLU, the second layer
    adds one. *)
Definition projector :=
  projector_forward Z.mul Z.add Z.sub 1 5 (fun x => 2 * x) (Z.max 0)
                    (fun h => h + 1).

Definition projector_spec :=
  projector_as_specified Z.mul Z.add Z.sub 1 5 (fun x => 2 * x) (Z.max 0)
                         (fun h => h + 1).

(** A cache of two heads and three slots for one row whose slot 1 is zero
    in both heads. *)
Definition cache : key_states Z :=
  KeyStates 1 2 3 4 (fun b h t d => if (t =? 1)%nat then 0 else 1).

Definition step :=
  forward (E := Z) (TSV := unit) (TSM := unit) 0 0 99 (-100)
          (fun x => 10 * x) (fun _ _ => tsf) Z.add 0 (fun k => k =? 0).

End Sample.

(** Shapes and masks of concrete tensors are checked by computation. *)
Ltac shaped_by_computation := split; [reflexivity | repeat constructor].

Ltac well_shaped_by_computation :=
  constructor;
  [ cbn; lia | cbn; lia
  | shaped_by_computation | shaped_by_computation | shaped_by_computation
  | first [ solve [intros ? [=]]
          | intros ? [= <-]; shaped_by_computation ]
  | cbn; lia | reflexivity ].

Ltac is_mask_by_computation := repeat constructor; (by left) || (by right).

(** * Facts about the tensor primitives *)

Section TorchFacts.

Import Torch.

Context {A : Type}.
Implicit Types (t : list (list A)) (row : list A).

Lemma sum_app (l k : list Z) : sum (l ++ k) = sum l + sum k.
Proof. unfold sum. induction l as [|x l IH]; simpl; lia. Qed.

Lemma length_cumsum_from acc (l : list Z) :
  length (cumsum_from acc l) = length l.
Proof. revert acc. induction l as [|x l IH]; intros acc; simpl; auto. Qed.

Lemma length_cumsum (l : list Z) : length (cumsum l) = length l.
Proof. apply length_cumsum_from. Qed.

Lemma lookup_cumsum_from acc (l : list Z) j :
  (j < length l)%nat ->
  cumsum_from acc l !! j = Some (acc + sum (take (S j) l)).
Proof.
  revert acc j. induction l as [|x l IH]; intros acc j Hj; simpl in *.
  - lia.
  - destruct j as [|j]; simpl.
    + rewrite ?take_0. unfold sum; simpl. f_equal; lia.
    + rewrite IH by lia. unfold sum; simpl. f_equal. lia.
Qed.

Lemma lookup_cumsum (l : list Z) j :
  (j < length l)%nat -> cumsum l !! j = Some (sum (take (S j) l)).
Proof. intros Hj. unfold cumsum. by rewrite lookup_cumsum_from. Qed.

Lemma last_column_Forall2 t (col : list A) :
  last_column t = Ok col <-> Forall2 (fun row x => last row = Some x) t col.
Proof.
  revert col. induction t as [|row t IH]; intros col; simpl.
  - split.
    + intros [= <-]. constructor.
    + intros Hc. by inversion Hc.
  - destruct (last row) as [x|] eqn:Hx; simpl.
    + destruct (last_column t) as [r|e] eqn:Hr; simpl.
      * split.
        -- intros [= <-]. constructor; [done|]. by apply IH.
        -- intros Hc. inversion Hc as [|? y ? col' Hy Hc']; subst.
           apply IH in Hc'. congruence.
      * split; [done|]. intros Hc.
        inversion Hc as [|? y ? col' Hy Hc']; subst.
        apply IH in Hc'. congruence.
    + split; [done|]. intros Hc. inversion Hc; congruence.
Qed.

Lemma elem_of_where_row b j0 (row : list bool) b' j :
  (b', j) ∈ where_row b j0 row <->
  b' = b /\ (j0 <= j)%nat /\ row !! (j - j0)%nat = Some true.
Proof.
  revert j0. induction row as [|x row IH]; intros j0; simpl.
  - rewrite elem_of_nil. split; [done|]. intros (_ & _ & Hl).
    by rewrite lookup_nil in Hl.
  - assert (Hstep : (b', j) ∈ where_row b (S j0) row <->
                    b' = b /\ (j0 < j)%nat /\
                    (x :: row) !! (j - j0)%nat = Some true).
    { rewrite IH. split.
      - intros (-> & Hle & Hl). split; [done|]. split; [lia|].
        replace (j - j0)%nat with (S (j - S j0)) by lia. done.
      - intros (-> & Hle & Hl). split; [done|]. split; [lia|].
        replace (j - j0)%nat with (S (j - S j0)) in Hl by lia. done. }
    destruct x.
    + rewrite elem_of_cons, Hstep. split.
      * intros [[= -> ->]|(-> & Hlt & Hl)].
        -- rewrite Nat.sub_diag. done.
        -- split; [done|]. split; [lia|done].
      * intros (-> & Hle & Hl).
        destruct (decide (j = j0)) as [->|Hne]; [by left|].
        right. split; [done|]. split; [lia|done].
    + rewrite Hstep. split.
      * intros (-> & Hlt & Hl). split; [done|]. split; [lia|done].
      * intros (-> & Hle & Hl).
        destruct (decide (j = j0)) as [->|Hne].
        -- rewrite Nat.sub_diag in Hl. done.
        -- split; [done|]. split; [lia|done].
Qed.

Lemma elem_of_where_from b0 (m : list (list bool)) b j :
  (b, j) ∈ where_from b0 m <->
  (b0 <= b)%nat /\ lookup2 m (b - b0) j = Some true.
Proof.
  revert b0. induction m as [|row m IH]; intros b0; simpl.
  - rewrite elem_of_nil. unfold lookup2. split; [done|]. intros [_ Hl].
    by rewrite lookup_nil in Hl.
  - rewrite elem_of_app, elem_of_where_row, IH. unfold lookup2. split.
    + intros [(-> & _ & Hl)|(Hle & Hl)].
      * rewrite Nat.sub_diag. simpl. by rewrite Nat.sub_0_r in Hl.
      * split; [lia|]. by replace (b - b0)%nat with (S (b - S b0)) by lia.
    + intros (Hle & Hl). destruct (decide (b = b0)) as [->|Hne].
      * left. rewrite Nat.sub_diag in Hl. simpl in Hl.
        rewrite Nat.sub_0_r. auto with lia.
      * right. split; [lia|].
        by replace (b - b0)%nat with (S (b - S b0)) in Hl by lia.
Qed.

Lemma elem_of_where2 (m : list (list bool)) b j :
  (b, j) ∈ where2 m <-> lookup2 m b j = Some true.
Proof.
  unfold where2. rewrite elem_of_where_from, Nat.sub_0_r. intuition lia.
Qed.

Lemma lookup2_Some t b j x :
  lookup2 t b j = Some x <-> exists row, t !! b = Some row /\ row !! j = Some x.
Proof.
  unfold lookup2. destruct (t !! b) as [row|]; simpl.
  - split; [by eauto|]. by intros (r & [= <-] & Hx).
  - split; [done|]. by intros (r & [=] & _).
Qed.

Lemma lookup2_shaped B L t b j :
  shaped B L t -> (b < B)%nat -> (j < L)%nat -> is_Some (lookup2 t b j).
Proof.
  intros [Hlen Hrows] Hb Hj.
  destruct (lookup_lt_is_Some_2 t b) as [row Hrow]; [lia|].
  pose proof (Forall_lookup_1 _ _ _ _ Hrows Hrow) as Hl. simpl in Hl.
  destruct (lookup_lt_is_Some_2 row j) as [x Hx]; [lia|].
  exists x. apply lookup2_Some. eauto.
Qed.

Lemma lookup2_lt B L t b j x :
  shaped B L t -> lookup2 t b j = Some x -> (b < B)%nat /\ (j < L)%nat.
Proof.
  intros [Hlen Hrows] (row & Hrow & Hx)%lookup2_Some.
  pose proof (Forall_lookup_1 _ _ _ _ Hrows Hrow) as Hl. simpl in Hl.
  apply lookup_lt_Some in Hrow, Hx. lia.
Qed.

Lemma lookup2_pointwise {C : Type} (f : A -> C) t b j :
  lookup2 (pointwise f t) b j = f <$> lookup2 t b j.
Proof.
  unfold lookup2, pointwise. rewrite list_lookup_fmap.
  destruct (t !! b) as [row|]; simpl; [|done]. by rewrite list_lookup_fmap.
Qed.

Lemma shaped_pointwise {C : Type} (f : A -> C) B L t :
  shaped B L t -> shaped B L (pointwise f t).
Proof.
  intros [Hlen Hrows]. split; unfold pointwise.
  - by rewrite length_fmap.
  - apply Forall_fmap. eapply Forall_impl; [exact Hrows|].
    intros row Hrow. simpl. by rewrite length_fmap.
Qed.

Lemma lookup2_full B L (x : A) b j :
  lookup2 (full B L x) b j =
  if decide ((b < B)%nat /\ (j < L)%nat) then Some x else None.
Proof.
  unfold lookup2, full. case_decide as Hd.
  - destruct Hd as [Hb Hj]. rewrite lookup_replicate_2 by done. simpl.
    by rewrite lookup_replicate_2.
  - destruct (decide (b < B)%nat) as [Hb|Hb].
    + rewrite lookup_replicate_2 by done. simpl.
      apply lookup_replicate_None. lia.
    + assert (Hn : replicate B (replicate L x) !! b = None)
        by (apply lookup_replicate_None; lia).
      by rewrite Hn.
Qed.

Lemma shaped_full B L (x : A) : shaped B L (full B L x).
Proof.
  split; unfold full.
  - apply length_replicate.
  - apply Forall_replicate. apply length_replicate.
Qed.

(** Reading at coordinates where the tensor is defined. *)
Lemma gather2_fmap t (idx : list (nat * nat)) (f : nat * nat -> A) :
  (forall bj, bj ∈ idx -> lookup2 t bj.1 bj.2 = Some (f bj)) ->
  gather2 t idx = Ok (f <$> idx).
Proof.
  induction idx as [|bj idx IH]; intros Hall; simpl; [done|].
  unfold get2. rewrite (Hall bj) by left. simpl.
  rewrite IH; [done|]. intros bj' Hin. apply Hall. by right.
Qed.

Lemma updates_fmap {C : Type} (idx : list (nat * nat))
    (d : nat * nat -> Z) (v : nat * nat -> C) :
  updates idx (d <$> idx) (v <$> idx) = (fun bj => (bj.1, d bj, v bj)) <$> idx.
Proof.
  unfold updates. induction idx as [|bj idx IH]; simpl; [done|].
  f_equal. exact IH.
Qed.

Lemma fills_fmap {C : Type} (idx : list (nat * nat))
    (d : nat * nat -> Z) (x : C) :
  fills idx (d <$> idx) x = (fun bj => (bj.1, d bj, x)) <$> idx.
Proof.
  unfold fills. induction idx as [|bj idx IH]; simpl; [done|].
  f_equal. exact IH.
Qed.

(** Writing in range. *)
Lemma put2_alter t b i (v : A) row :
  t !! b = Some row -> 0 <= i < Z.of_nat (length row) ->
  put2 t b i v = Ok (alter (fun r => <[Z.to_nat i := v]> r) b t).
Proof.
  intros Hrow Hi. unfold put2, norm_index. rewrite Hrow. simpl.
  assert (Hc : (0 <=? i) && (i <? Z.of_nat (length row)) = true).
  { apply andb_true_iff. split; [apply Z.leb_le|apply Z.ltb_lt]; lia. }
  rewrite Hc. simpl. f_equal.
  apply list_eq. intros k. destruct (decide (k = b)) as [->|Hne].
  - rewrite list_lookup_alter_eq, Hrow. simpl.
    apply list_lookup_insert_eq. by eapply lookup_lt_Some.
  - by rewrite list_lookup_alter_ne, list_lookup_insert_ne.
Qed.

Lemma shaped_alter_insert B L t b k (v : A) :
  shaped B L t -> shaped B L (alter (fun r => <[k := v]> r) b t).
Proof.
  intros [Hlen Hrows]. split.
  - by rewrite length_alter.
  - apply Forall_alter; [done|]. intros row Hrow. by rewrite length_insert.
Qed.

Lemma puts_shaped B L t (upd : list (nat * Z * A)) :
  shaped B L t -> shaped B L (puts t upd).
Proof.
  unfold puts. revert t. induction upd as [|u upd IH]; intros t Ht; simpl.
  - done.
  - apply IH. by apply shaped_alter_insert.
Qed.

Lemma index_put2_puts B L t (upd : list (nat * Z * A)) :
  shaped B L t ->
  Forall (fun u => (u.1.1 < B)%nat /\ 0 <= u.1.2 < Z.of_nat L) upd ->
  index_put2 t upd = Ok (puts t upd).
Proof.
  unfold puts. revert t.
  induction upd as [|[[b i] v] upd IH]; intros t Ht Hall; simpl; [done|].
  inversion Hall as [|? ? [Hb Hi] Hall']; subst. simpl in *.
  destruct Ht as [Hlen Hrows].
  destruct (lookup_lt_is_Some_2 t b) as [row Hrow]; [lia|].
  pose proof (Forall_lookup_1 _ _ _ _ Hrows Hrow) as Hl. simpl in Hl.
  rewrite (put2_alter _ _ _ _ row) by (done || lia). simpl.
  apply IH; [|done]. by apply shaped_alter_insert.
Qed.

Lemma lookup2_alter_insert t b k (v : A) b' k' :
  lookup2 (alter (fun r => <[k := v]> r) b t) b' k' =
  if decide (b' = b /\ k' = k /\ is_Some (lookup2 t b k)) then Some v
  else lookup2 t b' k'.
Proof.
  unfold lookup2. destruct (decide (b' = b)) as [->|Hb].
  - rewrite list_lookup_alter_eq. destruct (t !! b) as [row|] eqn:Hrow; simpl.
    + destruct (decide (k' = k)) as [->|Hk].
      * destruct (decide (k < length row)%nat) as [Hlt|Hge].
        -- rewrite list_lookup_insert_eq by done.
           rewrite decide_True; [done|].
           split; [done|]. split; [done|]. by apply lookup_lt_is_Some_2.
        -- rewrite list_insert_ge by lia.
           rewrite decide_False; [done|].
           intros (_ & _ & Hs). apply lookup_lt_is_Some_1 in Hs. lia.
      * rewrite list_lookup_insert_ne by done.
        rewrite decide_False; [done|]. by intros (_ & Hk' & _).
    + rewrite decide_False; [done|]. intros (_ & _ & [? ?]). done.
  - rewrite list_lookup_alter_ne by done.
    rewrite decide_False; [done|]. by intros (Hb' & _).
Qed.

(** A coordinate no write addresses keeps its entry. *)
Lemma lookup2_puts_other t (upd : list (nat * Z * A)) b k :
  (forall u, u ∈ upd -> ~ (u.1.1 = b /\ Z.to_nat u.1.2 = k)) ->
  lookup2 (puts t upd) b k = lookup2 t b k.
Proof.
  unfold puts. revert t. induction upd as [|u upd IH]; intros t Hno; simpl.
  - done.
  - rewrite IH by (intros u' Hu'; apply Hno; by right).
    rewrite lookup2_alter_insert. rewrite decide_False; [done|].
    intros (-> & -> & _). apply (Hno u); [by left|done].
Qed.

(** A coordinate whose writes all carry the same value holds that value. *)
Lemma lookup2_puts_written B L t (upd : list (nat * Z * A)) b i v :
  shaped B L t ->
  (b, i, v) ∈ upd -> (b < B)%nat -> 0 <= i < Z.of_nat L ->
  (forall u, u ∈ upd -> u.1.1 = b -> Z.to_nat u.1.2 = Z.to_nat i -> u.2 = v) ->
  lookup2 (puts t upd) b (Z.to_nat i) = Some v.
Proof.
  intros Ht. unfold puts.
  induction upd as [|u upd IH] using rev_ind; intros Hin Hb Hi Hsame.
  - by apply elem_of_nil in Hin.
  - rewrite foldl_snoc. rewrite lookup2_alter_insert.
    destruct (decide (u.1.1 = b /\ Z.to_nat u.1.2 = Z.to_nat i))
      as [[Hub Hui]|Hne].
    + rewrite decide_True.
      * f_equal. apply Hsame; [|done..]. apply elem_of_app. right. by left.
      * split; [done|]. split; [done|]. rewrite Hub, Hui.
        eapply lookup2_shaped; [by apply puts_shaped|done|lia].
    + rewrite decide_False
        by (intros (Hb' & Hk' & _); apply Hne; by rewrite Hb', Hk').
      apply IH; [|done|done|].
      * apply elem_of_app in Hin as [Hin|Hin]; [done|].
        apply list_elem_of_singleton in Hin. subst u. simpl in Hne.
        exfalso. by apply Hne.
      * intros u' Hu'. apply Hsame. apply elem_of_app. by left.
Qed.

(** A property of all entries and all written values is kept. *)
Lemma puts_Forall (Q : A -> Prop) t (upd : list (nat * Z * A)) :
  Forall (Forall Q) t -> Forall (fun u => Q u.2) upd ->
  Forall (Forall Q) (puts t upd).
Proof.
  unfold puts. revert t. induction upd as [|u upd IH]; intros t Ht Hu; simpl.
  - done.
  - inversion Hu; subst. apply IH; [|done].
    apply Forall_alter; [done|]. intros row Hrow HQ.
    by apply Forall_insert.
Qed.

Lemma sum_cons (x : Z) (l : list Z) : sum (x :: l) = x + sum l.
Proof. done. Qed.

Lemma sum_b2z_nonneg (m : list bool) : 0 <= sum (b2z <$> m).
Proof.
  induction m as [|c m IH]; [done|].
  rewrite fmap_cons, sum_cons.
  assert (0 <= b2z c) by (destruct c; unfold b2z; lia). lia.
Qed.

Lemma count_true_nonneg (m : list (list bool)) : 0 <= count_true m.
Proof.
  unfold count_true. induction m as [|row m IH]; [done|].
  rewrite fmap_cons, sum_cons. pose proof (sum_b2z_nonneg row). lia.
Qed.

(** Filling the true positions of a row. *)
Lemma masked_assign_row_ok row (m : list bool) (src : list A) :
  length row = length m ->
  sum (b2z <$> m) <= Z.of_nat (length src) ->
  exists row' rest,
    masked_assign_row row m src = Ok (row', rest) /\
    Z.of_nat (length rest) = Z.of_nat (length src) - sum (b2z <$> m) /\
    length row' = length row /\
    (forall k, m !! k = Some false -> row' !! k = row !! k).
Proof.
  revert m src. induction row as [|x row IH]; intros [|c m] src Hlen Hsrc;
    try discriminate.
  - exists [], src. split; [done|]. split; [|done].
    change (sum (b2z <$> [])) with 0. lia.
  - pose proof (sum_b2z_nonneg m) as Hnn.
    rewrite fmap_cons, sum_cons in Hsrc. rewrite fmap_cons, sum_cons.
    injection Hlen as Hlen. destruct c.
    + change (b2z true) with 1 in *.
      destruct src as [|s src]; [simpl in Hsrc; lia|].
      rewrite length_cons in Hsrc.
      destruct (IH m src) as (row' & rest & Hr & Hrest & Hl & Hk); [done|lia|].
      exists (s :: row'), rest. simpl. rewrite Hr. simpl.
      split; [done|]. split; [lia|]. split; [lia|].
      intros [|k] Hm; simpl in *; [done|]. by apply Hk.
    + change (b2z false) with 0 in *.
      destruct (IH m src) as (row' & rest & Hr & Hrest & Hl & Hk); [done|lia|].
      exists (x :: row'), rest. simpl. rewrite Hr. simpl.
      split; [done|]. split; [lia|]. split; [lia|].
      intros [|k] Hm; simpl in *; [done|]. by apply Hk.
Qed.

Lemma count_true_cons (mrow : list bool) (m : list (list bool)) :
  count_true (mrow :: m) = sum (b2z <$> mrow) + count_true m.
Proof. done. Qed.

Lemma masked_assign_rows_ok B L t (m : list (list bool)) (src : list A) :
  shaped B L t -> shaped B L m ->
  count_true m <= Z.of_nat (length src) ->
  exists t' rest,
    masked_assign_rows t m src = Ok (t', rest) /\
    Z.of_nat (length rest) = Z.of_nat (length src) - count_true m /\
    shaped B L t' /\
    (forall b k, lookup2 m b k = Some false -> lookup2 t' b k = lookup2 t b k).
Proof.
  revert B m src. induction t as [|row t IH];
    intros B [|mrow m] src [Hlt Hrt] [Hlm Hrm] Hsrc;
    try (simpl in *; subst B; discriminate).
  - exists [], src. split; [done|]. split; [|done].
    change (count_true []) with 0. lia.
  - rewrite count_true_cons in Hsrc. rewrite count_true_cons.
    pose proof (sum_b2z_nonneg mrow) as Hn1.
    pose proof (count_true_nonneg m) as Hn2.
    inversion Hrt as [|? ? Hrow Hrt']; subst.
    inversion Hrm as [|? ? Hmrow Hrm']; subst.
    rewrite !length_cons in Hlm.
    destruct (masked_assign_row_ok row mrow src)
      as (row' & rest & Hr & Hrest & Hl & Hk); [lia|lia|].
    destruct (IH (length t) m rest) as (t' & rest' & Hr' & Hrest' & Ht' & Hk').
    { done. } { split; [lia|done]. } { lia. }
    exists (row' :: t'), rest'. simpl. rewrite Hr. simpl. rewrite Hr'. simpl.
    split; [done|]. split; [lia|].
    destruct Ht' as [Hlt' Hrt'']. split.
    + split; [simpl; lia|]. constructor; [lia|done].
    + intros [|b] k Hm; unfold lookup2 in *; simpl in *.
      * destruct (mrow !! k) as [c|] eqn:Hc; [|done].
        injection Hm as ->. by rewrite (Hk k Hc).
      * by apply Hk'.
Qed.

Lemma masked_assign_ok B L t (m : list (list bool)) (src : list A) :
  shaped B L t -> shaped B L m ->
  count_true m = Z.of_nat (length src) ->
  exists t',
    masked_assign t m src = Ok t' /\ shaped B L t' /\
    (forall b k, lookup2 m b k = Some false -> lookup2 t' b k = lookup2 t b k).
Proof.
  intros Ht Hm Hc.
  destruct (masked_assign_rows_ok B L t m src)
    as (t' & rest & Hr & Hrest & Ht' & Hk); [done|done|lia|].
  exists t'. unfold masked_assign. rewrite Hr. simpl.
  destruct rest as [|? ?]; simpl in *; [done|lia].
Qed.

(** Two tensors of one shape combined entry by entry. *)
Lemma shaped_zip_with2 {C D : Type} (f : A -> C -> D) B L t
    (s : list (list C)) :
  shaped B L t -> shaped B L s -> shaped B L (zip_with (zip_with f) t s).
Proof.
  intros [Hlt Hrt] [Hls Hrs]. split.
  - rewrite length_zip_with. lia.
  - apply Forall_lookup_2. intros b row Hrow.
    apply lookup_zip_with_Some in Hrow as (r1 & r2 & -> & H1 & H2).
    pose proof (Forall_lookup_1 _ _ _ _ Hrt H1) as Hl1.
    pose proof (Forall_lookup_1 _ _ _ _ Hrs H2) as Hl2. simpl in *.
    rewrite length_zip_with. lia.
Qed.

Lemma lookup2_zip_with2 {C D : Type} (f : A -> C -> D) t
    (s : list (list C)) b k :
  lookup2 (zip_with (zip_with f) t s) b k =
  (x ← lookup2 t b k; y ← lookup2 s b k; Some (f x y)).
Proof.
  unfold lookup2. rewrite lookup_zip_with.
  destruct (t !! b) as [r1|]; simpl; [|done].
  destruct (s !! b) as [r2|]; simpl.
  - rewrite lookup_zip_with. done.
  - by destruct (r1 !! k).
Qed.

End TorchFacts.

(** * Facts about masks and position ids *)

Section MaskFacts.

Import Torch.

(** Two tensors of one shape with the same entries are equal. *)
Lemma tensor_ext {A : Type} B L (t t' : list (list A)) :
  shaped B L t -> shaped B L t' ->
  (forall b k, (b < B)%nat -> (k < L)%nat -> lookup2 t b k = lookup2 t' b k) ->
  t = t'.
Proof.
  intros [Hl Hr] [Hl' Hr'] Heq. apply list_eq. intros b.
  destruct (decide (b < B)%nat) as [Hb|Hb].
  - destruct (lookup_lt_is_Some_2 t b) as [row Hrow]; [lia|].
    destruct (lookup_lt_is_Some_2 t' b) as [row' Hrow']; [lia|].
    rewrite Hrow, Hrow'. f_equal.
    pose proof (Forall_lookup_1 _ _ _ _ Hr Hrow) as Hlen.
    pose proof (Forall_lookup_1 _ _ _ _ Hr' Hrow') as Hlen'. simpl in *.
    apply list_eq. intros k. destruct (decide (k < L)%nat) as [Hk|Hk].
    + specialize (Heq b k Hb Hk). unfold lookup2 in Heq.
      by rewrite Hrow, Hrow' in Heq.
    + rewrite !lookup_ge_None_2; [done|lia|lia].
  - rewrite !lookup_ge_None_2; [done|lia|lia].
Qed.


Lemma lookup_position_row (mask : list Z) k m :
  mask !! k = Some m ->
  position_row mask !! k =
  Some (if m =? 0 then 1 else sum (take (S k) mask) - 1).
Proof.
  intros Hm. unfold position_row.
  rewrite lookup_zip_with, lookup_cumsum, Hm; [done|].
  by eapply lookup_lt_Some.
Qed.

Lemma sum_count_nonzero (l : list Z) :
  Forall (fun m => m = 0 \/ m = 1) l -> sum l = count_nonzero l.
Proof.
  unfold count_nonzero. induction 1 as [|m l Hm Hl IH]; [done|].
  rewrite fmap_cons, !sum_cons, IH. destruct Hm as [-> | ->]; done.
Qed.

Lemma lor_b2z_mask m (c : bool) :
  m = 0 \/ m = 1 -> Z.lor m (b2z c) = 0 \/ Z.lor m (b2z c) = 1.
Proof. intros [-> | ->]; destruct c; simpl; auto. Qed.

Lemma is_mask_lookup2 (t : list (list Z)) b k m :
  is_mask t -> lookup2 t b k = Some m -> m = 0 \/ m = 1.
Proof.
  intros Ht (row & Hrow & Hm)%lookup2_Some.
  pose proof (Forall_lookup_1 _ _ _ _ Ht Hrow) as Hr. simpl in Hr.
  by apply (Forall_lookup_1 _ _ _ _ Hr Hm).
Qed.

Lemma is_mask_zip_lor (t : list (list Z)) (s : list (list bool)) :
  is_mask t ->
  is_mask (zip_with (zip_with (fun m c => Z.lor m (b2z c))) t s).
Proof.
  intros Ht. apply Forall_lookup_2. intros b row Hrow.
  apply lookup_zip_with_Some in Hrow as (r1 & r2 & -> & H1 & H2).
  apply Forall_lookup_2. intros k m Hm.
  apply lookup_zip_with_Some in Hm as (m1 & c & -> & Hm1 & Hc).
  apply lor_b2z_mask.
  pose proof (Forall_lookup_1 _ _ _ _ Ht H1) as Hr. simpl in Hr.
  by apply (Forall_lookup_1 _ _ _ _ Hr Hm1).
Qed.

Lemma count_true_full B L : count_true (full B L false) = 0.
Proof.
  unfold count_true, full. induction B as [|B IH]; [done|].
  simpl replicate. rewrite fmap_cons, sum_cons, IH.
  assert (Hrow : sum (b2z <$> replicate L false) = 0).
  { clear. induction L as [|L IH]; [done|].
    simpl replicate. by rewrite fmap_cons, sum_cons, IH. }
  by rewrite Hrow.
Qed.

End MaskFacts.

(** * Facts about counting slots *)

Section CountFacts.

Import Torch.

Lemma sum_b2z_insert_false (row : list bool) k :
  row !! k = Some true ->
  sum (b2z <$> <[k := false]> row) = sum (b2z <$> row) - 1.
Proof.
  revert k. induction row as [|x row IH]; intros [|k] Hk; simpl in Hk;
    try done.
  - injection Hk as ->.
    change (<[0%nat := false]> (true :: row)) with (false :: row).
    rewrite !fmap_cons, !sum_cons.
    change (b2z true) with 1. change (b2z false) with 0. lia.
  - change (<[S k := false]> (x :: row)) with (x :: <[k := false]> row).
    rewrite !fmap_cons, !sum_cons, (IH k Hk). lia.
Qed.

Lemma row_count_alter (t : list (list bool)) b0 k b :
  lookup2 t b0 k = Some true ->
  row_count (alter (fun r => <[k := false]> r) b0 t) b =
  row_count t b - (if decide (b = b0) then 1 else 0).
Proof.
  intros (row & Hrow & Hk)%lookup2_Some. unfold row_count.
  destruct (decide (b = b0)) as [->|Hne].
  - rewrite list_lookup_alter_eq, Hrow. simpl.
    by apply sum_b2z_insert_false.
  - rewrite list_lookup_alter_ne by done. lia.
Qed.

(** Writing [false] at distinct true entries removes one true entry of the
    row per write. *)
Lemma row_count_puts (t : list (list bool)) (upd : list (nat * Z * bool)) b :
  NoDup ((fun u => (u.1.1, Z.to_nat u.1.2)) <$> upd) ->
  (forall u, u ∈ upd ->
     u.2 = false /\ lookup2 t u.1.1 (Z.to_nat u.1.2) = Some true) ->
  row_count (puts t upd) b =
  row_count t b - Z.of_nat (length (filter (fun u => u.1.1 = b) upd)).
Proof.
  unfold puts. revert t.
  induction upd as [|u upd IH]; intros t Hnd Hall; simpl.
  - rewrite ?filter_nil. simpl. lia.
  - rewrite fmap_cons in Hnd. apply NoDup_cons in Hnd as [Hnotin Hnd].
    destruct (Hall u ltac:(by left)) as [Hv Hl]. rewrite Hv.
    rewrite IH; [|done|].
    + rewrite (row_count_alter t _ _ b Hl). rewrite filter_cons.
      destruct (decide (u.1.1 = b)) as [Hb|Hb].
      * rewrite decide_True by done. rewrite length_cons. lia.
      * rewrite decide_False by done. lia.
    + intros u' Hu'. destruct (Hall u' ltac:(by right)) as [Hv' Hl'].
      split; [done|]. rewrite lookup2_alter_insert.
      rewrite decide_False; [done|]. intros (Hb & Hk & _).
      apply Hnotin. apply list_elem_of_fmap. exists u'.
      split; [|done]. by rewrite Hb, Hk.
Qed.

Lemma length_where_row b j0 (row : list bool) :
  Z.of_nat (length (where_row b j0 row)) = sum (b2z <$> row).
Proof.
  revert j0. induction row as [|x row IH]; intros j0; [done|].
  rewrite fmap_cons, sum_cons. simpl. destruct x.
  - rewrite length_cons, Nat2Z.inj_succ, IH. change (b2z true) with 1. lia.
  - rewrite IH. change (b2z false) with 0. lia.
Qed.

Lemma filter_where_row b j0 (row : list bool) b' :
  filter (fun bj : nat * nat => bj.1 = b') (where_row b j0 row) =
  if decide (b = b') then where_row b j0 row else [].
Proof.
  revert j0. induction row as [|x row IH]; intros j0; simpl.
  - by destruct (decide (b = b')).
  - destruct x; [|done]. rewrite filter_cons, IH. simpl.
    by destruct (decide (b = b')).
Qed.

Lemma length_filter_where_from b0 (m : list (list bool)) b :
  Z.of_nat (length (filter (fun bj : nat * nat => bj.1 = b) (where_from b0 m)))
  = if decide (b0 <= b)%nat then row_count m (b - b0) else 0.
Proof.
  revert b0. induction m as [|row m IH]; intros b0; simpl.
  - unfold row_count. simpl. by destruct (decide (b0 <= b)%nat).
  - rewrite filter_app, length_app, Nat2Z.inj_add, IH, filter_where_row.
    unfold row_count.
    destruct (decide (S b0 <= b)%nat) as [Hle|Hgt];
      destruct (decide (b0 <= b)%nat) as [Hle'|Hgt'];
      destruct (decide (b0 = b)) as [Heq|Hne]; try lia; try subst b0.
    + replace (b - b0)%nat with (S (b - S b0)) by lia. simpl. lia.
    + rewrite Nat.sub_diag. simpl. rewrite length_where_row. lia.
    + simpl. lia.
Qed.

Lemma NoDup_where_row b j0 (row : list bool) : NoDup (where_row b j0 row).
Proof.
  revert j0. induction row as [|x row IH]; intros j0; simpl.
  - constructor.
  - destruct x; [|done]. apply NoDup_cons. split; [|done].
    rewrite elem_of_where_row. lia.
Qed.

Lemma NoDup_where_from b0 (m : list (list bool)) : NoDup (where_from b0 m).
Proof.
  revert b0. induction m as [|row m IH]; intros b0; simpl.
  - constructor.
  - apply NoDup_app. split; [apply NoDup_where_row|]. split; [|done].
    intros [b j] Hin Hin'. apply elem_of_where_row in Hin as (-> & _).
    apply elem_of_where_from in Hin' as [Hle _]. lia.
Qed.

(** How many time-series slots a row keeps after skipping [n] of them. *)
Lemma count_skip_from (row : list bool) acc n :
  sum (b2z <$> zip_with (fun x c => x && (n <=? c - 1)) row
                 (cumsum_from acc (b2z <$> row))) =
  Z.max 0 (sum (b2z <$> row) - Z.max 0 (n - acc)).
Proof.
  revert acc. induction row as [|x row IH]; intros acc.
  - simpl. change (sum []) with 0. lia.
  - rewrite fmap_cons. simpl cumsum_from. simpl zip_with.
    rewrite fmap_cons, !sum_cons, IH.
    pose proof (sum_b2z_nonneg row) as Hnn.
    destruct x.
    + change (b2z true) with 1. simpl andb.
      destruct (Z.leb_spec n (acc + 1 - 1));
        [change (b2z true) with 1|change (b2z false) with 0]; lia.
    + simpl andb. change (b2z false) with 0.
      replace (acc + 0) with acc by lia. lia.
Qed.

Lemma count_skip_pad (row : list bool) n :
  0 <= n ->
  sum (b2z <$> skip_pad n row) = Z.max 0 (sum (b2z <$> row) - n).
Proof.
  intros Hn. unfold skip_pad, cumsum. rewrite count_skip_from. lia.
Qed.

Lemma sum_scale (c : Z) (f : list Z -> Z) (l : list (list Z)) :
  sum ((fun row => c * f row) <$> l) = c * sum (f <$> l).
Proof.
  induction l as [|row l IH]; [simpl; unfold sum; simpl; lia|].
  rewrite !fmap_cons, !sum_cons, IH. lia.
Qed.

Lemma length_filter_fmap {A C : Type} (g : A -> C) (Q : C -> Prop)
    `{forall x, Decision (Q x)} (l : list A) :
  length (filter Q (g <$> l)) = length (filter (fun x => Q (g x)) l).
Proof.
  induction l as [|x l IH]; [done|].
  rewrite fmap_cons, !filter_cons.
  destruct (decide (Q (g x))); simpl; by rewrite IH.
Qed.

Lemma row_count_full B L b :
  (b < B)%nat -> row_count (full B L true) b = Z.of_nat L.
Proof.
  intros Hb. unfold row_count, full. rewrite lookup_replicate_2 by done.
  simpl. induction L as [|L IH]; [done|].
  simpl replicate. rewrite fmap_cons, sum_cons, IH.
  change (b2z true) with 1. lia.
Qed.

Lemma lookup_skip_pad n (row : list bool) k x :
  row !! k = Some x ->
  skip_pad n row !! k =
  Some (x && (n <=? sum (take (S k) (b2z <$> row)) - 1)).
Proof.
  intros Hx. unfold skip_pad.
  rewrite lookup_zip_with, Hx, lookup_cumsum; [done|].
  rewrite length_fmap. by eapply lookup_lt_Some.
Qed.

Lemma sum_take_true (row : list bool) s :
  (forall i, (i < s)%nat -> row !! i = Some true) ->
  sum (take s (b2z <$> row)) = Z.of_nat s.
Proof.
  revert row. induction s as [|s IH]; intros row Hall.
  - by rewrite take_0.
  - destruct row as [|x row]; [by specialize (Hall 0%nat ltac:(lia))|].
    pose proof (Hall 0%nat ltac:(lia)) as H0. injection H0 as ->.
    rewrite fmap_cons. simpl take. rewrite sum_cons, IH.
    + change (b2z true) with 1. lia.
    + intros i Hi. apply (Hall (S i)). lia.
Qed.

Lemma sum_take_reaches (row : list bool) s k :
  (forall i, (i < s)%nat -> row !! i = Some true) ->
  (s <= k)%nat -> row !! k = Some true ->
  Z.of_nat s + 1 <= sum (take (S k) (b2z <$> row)).
Proof.
  revert row k. induction s as [|s IH]; intros row k Hall Hle Hk.
  - clear Hall Hle. revert k Hk.
    induction row as [|x row IHr]; intros [|k] Hk; simpl in Hk; try done.
    + injection Hk as ->. rewrite fmap_cons. simpl take. rewrite sum_cons.
      pose proof (sum_b2z_nonneg (take 0 row)) as Hn.
      rewrite fmap_take in Hn. change (b2z true) with 1. lia.
    + rewrite fmap_cons. simpl take. rewrite sum_cons.
      specialize (IHr k Hk).
      assert (0 <= b2z x) by (destruct x; unfold b2z; lia). lia.
  - destruct row as [|x row]; [done|]. destruct k as [|k]; [lia|].
    pose proof (Hall 0%nat ltac:(lia)) as H0. injection H0 as ->.
    rewrite fmap_cons. simpl take. rewrite sum_cons.
    assert (Hrec : Z.of_nat s + 1 <= sum (take (S k) (b2z <$> row))).
    { apply IH; [|lia|done]. intros i Hi. apply (Hall (S i)). lia. }
    change (b2z true) with 1. lia.
Qed.

(** Writes of one value leave an entry as it was or set it to the value. *)
Lemma lookup2_puts_const {A : Type} (t : list (list A))
    (upd : list (nat * Z * A)) v b k :
  (forall u, u ∈ upd -> u.2 = v) ->
  lookup2 (puts t upd) b k = lookup2 t b k \/
  lookup2 (puts t upd) b k = Some v.
Proof.
  unfold puts. induction upd as [|u upd IH] using rev_ind; intros Hv.
  - by left.
  - rewrite foldl_snoc, lookup2_alter_insert. case_decide.
    + right. f_equal. apply Hv. apply elem_of_app. right. by left.
    + apply IH. intros u' Hu'. apply Hv. apply elem_of_app. by left.
Qed.

End CountFacts.

(** * Facts about the destination columns *)

Section PositionFacts.

Import Torch.

Variable time_series_token_index : Z.
Variable P : nat.

Local Abbreviation slot := (slots time_series_token_index P).
Local Abbreviation rsum := (running_sum time_series_token_index P).

Lemma slots_weight x :
  b2z (x =? time_series_token_index) * (Z.of_nat P - 1) + 1 = slot x.
Proof.
  unfold slots, b2z. destruct (x =? time_series_token_index); lia.
Qed.

Lemma sum_slots_placeholders (l : list Z) :
  sum (slot <$> l) = row_fused_length time_series_token_index P l.
Proof.
  unfold row_fused_length, placeholders.
  induction l as [|x l IH]; [done|].
  rewrite !fmap_cons, !sum_cons, length_cons, IH, <- slots_weight. lia.
Qed.

Lemma running_sum_last (row : list Z) :
  rsum row (length row - 1) = sum (slot <$> row).
Proof.
  unfold running_sum. rewrite take_ge; [done|lia].
Qed.

Hypothesis patches : (0 < P)%nat.

Lemma slots_pos x : 1 <= slot x.
Proof.
  unfold slots. destruct (x =? time_series_token_index); lia.
Qed.

Lemma sum_slots_ge (l : list Z) : Z.of_nat (length l) <= sum (slot <$> l).
Proof.
  induction l as [|x l IH]; [done|].
  rewrite fmap_cons, sum_cons, length_cons. pose proof (slots_pos x). lia.
Qed.

Lemma running_sum_lower (row : list Z) j :
  (j < length row)%nat -> Z.of_nat j + 1 <= rsum row j.
Proof.
  intros Hj. unfold running_sum.
  pose proof (sum_slots_ge (take (S j) row)) as Hs.
  rewrite length_take in Hs. lia.
Qed.

Lemma running_sum_mono (row : list Z) j j' :
  (j < j')%nat -> (j' < length row)%nat -> rsum row j < rsum row j'.
Proof.
  intros Hlt Hj'. unfold running_sum.
  rewrite <- (take_drop (S j) (take (S j') row)).
  rewrite take_take, Nat.min_l by lia.
  rewrite fmap_app, sum_app.
  pose proof (sum_slots_ge (drop (S j) (take (S j') row))) as Hs.
  rewrite length_drop, length_take in Hs. lia.
Qed.

Lemma running_sum_upper (row : list Z) j :
  (j < length row)%nat -> rsum row j <= sum (slot <$> row).
Proof.
  intros Hj. unfold running_sum.
  rewrite <- (take_drop (S j) row) at 2. rewrite fmap_app, sum_app.
  pose proof (sum_slots_ge (drop (S j) row)). lia.
Qed.

Lemma destination_inj lp med (row : list Z) j j' :
  (j < length row)%nat -> (j' < length row)%nat ->
  destination time_series_token_index P lp med row j =
  destination time_series_token_index P lp med row j' -> j = j'.
Proof.
  intros Hj Hj' Heq. unfold destination in Heq.
  destruct (Nat.lt_trichotomy j j') as [Hlt|[->|Hlt]]; [|done|].
  - pose proof (running_sum_mono row j j' Hlt Hj'). lia.
  - pose proof (running_sum_mono row j' j Hlt Hj). lia.
Qed.

Lemma destination_range lp med (row : list Z) j :
  (j < length row)%nat -> sum (slot <$> row) <= med ->
  0 <= destination time_series_token_index P lp med row j < med.
Proof.
  intros Hj Hmed. unfold destination. rewrite running_sum_last.
  pose proof (running_sum_lower row j Hj).
  pose proof (running_sum_upper row j Hj).
  destruct lp; lia.
Qed.

Lemma running_sum_S (row : list Z) j x :
  row !! S j = Some x -> rsum row (S j) = rsum row j + slot x.
Proof.
  intros Hx. unfold running_sum.
  rewrite (take_S_r row (S j) x Hx), fmap_app, sum_app.
  change (sum (slot <$> [x])) with (slot x + 0). lia.
Qed.

End PositionFacts.

(** * Facts about the steps of the merge *)

Section MergeSteps.

Import Torch.

Variable pad_token_id : Z.
Variable time_series_token_index : Z.
Variable P : nat.

Local Abbreviation slot := (slots time_series_token_index P).
Local Abbreviation rsum := (running_sum time_series_token_index P).
Local Abbreviation dest := (destination time_series_token_index P).

Lemma max_inv (l : list Z) m :
  max l = Ok m -> m ∈ l /\ forall x, x ∈ l -> x <= m.
Proof.
  destruct l as [|x l]; [done|]. simpl. intros [= <-].
  induction l as [|y l [IHin IHle]]; simpl.
  - split; [by left|]. intros z Hz. apply list_elem_of_singleton in Hz. lia.
  - split.
    + destruct (Z.max_spec y (foldr Z.max x l)) as [[_ ->]|[_ ->]].
      * apply elem_of_cons in IHin as [->|Hin]; [by left|].
        right. by right.
      * right. by left.
    + intros z Hz. apply elem_of_cons in Hz as [->|Hz].
      * pose proof (IHle x ltac:(by left)). lia.
      * apply elem_of_cons in Hz as [->|Hz]; [lia|].
        pose proof (IHle z ltac:(by right)). lia.
Qed.

Lemma max_is_Ok (l : list Z) : l <> [] -> exists m, max l = Ok m.
Proof. destruct l as [|x l]; [done|]. intros _. by eexists. Qed.

(** Line 133 holds exactly when no row ends in the pad id. *)
Lemma left_padding_spec (input_ids : list (list Z)) lp :
  left_padding pad_token_id input_ids = Ok lp ->
  (lp = true <-> Forall (fun row => last row <> Some pad_token_id) input_ids).
Proof.
  unfold left_padding.
  destruct (last_column input_ids) as [col|e] eqn:Hcol; simpl; [|done].
  intros [= <-]. apply last_column_Forall2 in Hcol.
  rewrite Z.eqb_eq.
  induction Hcol as [|row x ids col Hx Hcol IH].
  - split; [constructor|done].
  - rewrite fmap_cons, sum_cons, Forall_cons.
    assert (Hnn : 0 <= sum ((fun x => b2z (x =? pad_token_id)) <$> col)).
    { rewrite (list_fmap_compose (fun x => x =? pad_token_id) b2z).
      apply sum_b2z_nonneg. }
    rewrite Hx. unfold b2z at 1.
    destruct (x =? pad_token_id) eqn:Hpad.
    + apply Z.eqb_eq in Hpad as ->. split; [lia|]. intros [Hne _]. done.
    + apply Z.eqb_neq in Hpad. rewrite <- IH. split.
      * intros Hs. split; [congruence|lia].
      * intros [_ Hs]. lia.
Qed.

Lemma left_padding_is_Ok (input_ids : list (list Z)) :
  Forall (fun row => row <> []) input_ids ->
  exists lp, left_padding pad_token_id input_ids = Ok lp.
Proof.
  intros Hne. unfold left_padding.
  assert (Hc : exists col, last_column input_ids = Ok col).
  { induction Hne as [|row ids Hrow Hne [col IH]]; [by eexists|].
    simpl. destruct (last row) as [x|] eqn:Hx.
    - simpl. rewrite IH. simpl. by eexists.
    - apply last_None in Hx. done. }
  destruct Hc as [col ->]. simpl. by eexists.
Qed.

(** Line 147 row by row, in terms of [slots]. *)
Lemma new_token_positions0_rows (input_ids : list (list Z)) :
  new_token_positions0 time_series_token_index P input_ids =
  (fun row => (fun c => c - 1) <$> cumsum (slot <$> row)) <$> input_ids.
Proof.
  unfold new_token_positions0, special_time_series_token_mask, pointwise.
  rewrite <- list_fmap_compose. apply list_fmap_ext. intros _ row _. simpl.
  f_equal. f_equal. rewrite <- list_fmap_compose.
  apply list_fmap_ext. intros _ x _. simpl. apply slots_weight.
Qed.

Lemma num_special_rows (input_ids : list (list Z)) :
  num_special_time_series_tokens time_series_token_index input_ids =
  placeholders time_series_token_index <$> input_ids.
Proof.
  unfold num_special_time_series_tokens, special_time_series_token_mask,
    pointwise, placeholders.
  rewrite <- list_fmap_compose. apply list_fmap_ext. intros _ row _. simpl.
  by rewrite <- list_fmap_compose.
Qed.

Lemma last_positions_row (row : list Z) :
  row <> [] ->
  last ((fun c => c - 1) <$> cumsum (slot <$> row)) =
  Some (rsum row (length row - 1) - 1).
Proof.
  intros Hne. rewrite last_lookup, length_fmap, length_cumsum, length_fmap.
  rewrite list_lookup_fmap.
  assert (Hl : (0 < length row)%nat) by (destruct row; simpl; [done|lia]).
  rewrite lookup_cumsum by (rewrite length_fmap; lia). simpl.
  unfold running_sum. rewrite fmap_take.
  replace (S (Init.Nat.pred (length row))) with (S (length row - 1)) by lia.
  done.
Qed.

Lemma elem_of_non_time_series (input_ids : list (list Z)) b j :
  (b, j) ∈ non_time_series time_series_token_index input_ids <->
  exists x, lookup2 input_ids b j = Some x /\ x <> time_series_token_index.
Proof.
  unfold non_time_series. rewrite elem_of_where2, lookup2_pointwise.
  destruct (lookup2 input_ids b j) as [x|]; simpl.
  - destruct (Z.eqb_spec x time_series_token_index) as [->|Hne]; simpl.
    + split; [done|]. by intros (x' & [= <-] & Hne).
    + split; [by eauto|done].
  - split; [done|]. by intros (x & [=] & _).
Qed.

Lemma elem_of_pads (input_ids : list (list Z)) b j :
  (b, j) ∈ where2 (pointwise (fun x => x =? pad_token_id) input_ids) <->
  lookup2 input_ids b j = Some pad_token_id.
Proof.
  rewrite elem_of_where2, lookup2_pointwise.
  destruct (lookup2 input_ids b j) as [x|]; simpl; [|naive_solver].
  destruct (Z.eqb_spec x pad_token_id); simpl; naive_solver.
Qed.

Lemma sequence_length_shaped B L (input_ids : list (list Z)) :
  shaped B L input_ids -> (0 < B)%nat -> sequence_length input_ids = L.
Proof.
  intros [Hlen Hrows] HB. unfold sequence_length.
  destruct input_ids as [|row ids]; simpl in *; [lia|].
  by inversion Hrows.
Qed.

Lemma gather2_entries {A : Type} (d : A) B L (t : list (list A))
    (idx : list (nat * nat)) :
  shaped B L t ->
  (forall bj, bj ∈ idx -> (bj.1 < B)%nat /\ (bj.2 < L)%nat) ->
  gather2 t idx = Ok (entry_at d t <$> idx).
Proof.
  intros Ht Hidx. apply gather2_fmap. intros bj Hin.
  destruct (Hidx bj Hin) as [Hb Hj].
  destruct (lookup2_shaped B L t bj.1 bj.2 Ht Hb Hj) as [x Hx].
  unfold entry_at. by rewrite Hx.
Qed.

Hypothesis patches : (0 < P)%nat.

Lemma max_embed_dim_Ok B L (input_ids : list (list Z)) :
  shaped B L input_ids -> (0 < B)%nat ->
  exists med,
    max_embed_dim time_series_token_index P input_ids = Ok med /\
    (exists row, row ∈ input_ids /\
                 row_fused_length time_series_token_index P row = med) /\
    (forall row, row ∈ input_ids ->
                 row_fused_length time_series_token_index P row <= med).
Proof.
  intros Hs HB. pose proof (sequence_length_shaped B L _ Hs HB) as HL.
  destruct Hs as [Hlen Hrows].
  unfold max_embed_dim. rewrite num_special_rows, HL.
  destruct (max_is_Ok (placeholders time_series_token_index <$> input_ids))
    as [m Hm].
  { destruct input_ids; simpl in *; [lia|done]. }
  rewrite Hm. simpl. eexists. split; [done|].
  apply max_inv in Hm as [Hin Hle].
  apply list_elem_of_fmap in Hin as (row & -> & Hrow).
  assert (Hlrow : forall r, r ∈ input_ids -> length r = L).
  { intros r Hr. by apply (proj1 (Forall_forall _ _) Hrows). }
  split.
  - exists row. split; [done|]. unfold row_fused_length.
    by rewrite (Hlrow row Hrow).
  - intros r Hr. unfold row_fused_length. rewrite (Hlrow r Hr).
    assert (placeholders time_series_token_index r <=
            placeholders time_series_token_index row).
    { apply Hle. apply list_elem_of_fmap. by exists r. }
    nia.
Qed.

Lemma nb_time_series_pad_Ok (input_ids : list (list Z)) med :
  max_embed_dim time_series_token_index P input_ids = Ok med ->
  Forall (fun row => row <> []) input_ids ->
  nb_time_series_pad time_series_token_index P input_ids =
  Ok ((fun row => med - 1 - (rsum row (length row - 1) - 1)) <$> input_ids).
Proof.
  intros Hmed Hne. unfold nb_time_series_pad. rewrite Hmed. simpl.
  assert (Hcol :
    last_column (new_token_positions0 time_series_token_index P input_ids) =
    Ok ((fun row => rsum row (length row - 1) - 1) <$> input_ids)).
  { apply last_column_Forall2. rewrite new_token_positions0_rows.
    apply Forall2_fmap. apply Forall_Forall2_diag.
    eapply Forall_impl; [exact Hne|]. intros row Hrow. simpl.
    by apply last_positions_row. }
  rewrite Hcol. simpl. by rewrite <- list_fmap_compose.
Qed.

Lemma new_token_positions_Ok (input_ids : list (list Z)) lp med :
  left_padding pad_token_id input_ids = Ok lp ->
  max_embed_dim time_series_token_index P input_ids = Ok med ->
  Forall (fun row => row <> []) input_ids ->
  exists pos,
    new_token_positions pad_token_id time_series_token_index P input_ids =
    Ok pos /\
    forall b j row, input_ids !! b = Some row -> (j < length row)%nat ->
      lookup2 pos b j = Some (dest lp med row j).
Proof.
  intros Hlp Hmed Hne. unfold new_token_positions.
  rewrite Hlp, (nb_time_series_pad_Ok _ _ Hmed Hne). simpl.
  rewrite new_token_positions0_rows.
  eexists. split; [done|]. intros b j row Hrow Hj.
  assert (Hc : cumsum (slot <$> row) !! j = Some (rsum row j)).
  { rewrite lookup_cumsum by (by rewrite length_fmap).
    unfold running_sum. by rewrite fmap_take. }
  unfold lookup2, destination. destruct lp.
  - rewrite zip_with_fmap_l, zip_with_fmap_r, zip_with_diag.
    rewrite list_lookup_fmap, Hrow. simpl.
    rewrite !list_lookup_fmap, Hc. simpl. done.
  - rewrite list_lookup_fmap, Hrow. simpl.
    rewrite list_lookup_fmap, Hc. simpl. f_equal. lia.
Qed.

End MergeSteps.

(** * Facts about reading through a boolean mask *)

Section SelectFacts.

Import Torch.

Context {A : Type}.

Lemma masked_select_row_length (row : list A) (m : list bool) l :
  masked_select_row row m = Ok l ->
  length row = length m /\ Z.of_nat (length l) = sum (b2z <$> m).
Proof.
  revert m l. induction row as [|x row IH]; intros [|c m] l Hl;
    simpl in Hl; try done.
  - injection Hl as <-. done.
  - destruct (masked_select_row row m) as [r|e] eqn:Hr; simpl in Hl; [|done].
    injection Hl as <-. destruct (IH m r Hr) as [Hlen Hcnt].
    rewrite fmap_cons, sum_cons, !length_cons. split; [lia|].
    destruct c; [change (b2z true) with 1|change (b2z false) with 0];
      rewrite ?length_cons; lia.
Qed.

(** What was written through a mask is read back through it. *)
Lemma masked_select_assign_row (row : list A) (m : list bool) src row' rest :
  masked_assign_row row m src = Ok (row', rest) ->
  exists sel, masked_select_row row' m = Ok sel /\ src = sel ++ rest.
Proof.
  revert m src row' rest.
  induction row as [|x row IH]; intros [|c m] src row' rest Hr;
    simpl in Hr; try done.
  - injection Hr as <- <-. by exists [].
  - destruct c.
    + destruct src as [|y src]; [done|].
      destruct (masked_assign_row row m src) as [[r q]|e] eqn:Hrec;
        simpl in Hr; [|done].
      injection Hr as <- <-.
      destruct (IH m src r q Hrec) as (sel & Hsel & ->).
      exists (y :: sel). simpl. by rewrite Hsel.
    + destruct (masked_assign_row row m src) as [[r q]|e] eqn:Hrec;
        simpl in Hr; [|done].
      injection Hr as <- <-.
      destruct (IH m src r q Hrec) as (sel & Hsel & ->).
      exists sel. simpl. by rewrite Hsel.
Qed.

Lemma masked_select_assign_rows (t : list (list A)) (m : list (list bool))
    src t' rest :
  masked_assign_rows t m src = Ok (t', rest) ->
  exists sel, masked_select t' m = Ok sel /\ src = sel ++ rest.
Proof.
  revert m src t' rest.
  induction t as [|row t IH]; intros [|mrow m] src t' rest Hr;
    simpl in Hr; try done.
  - injection Hr as <- <-. by exists [].
  - destruct (masked_assign_row row mrow src) as [[r q]|e] eqn:Hrow;
      simpl in Hr; [|done].
    destruct (masked_assign_rows t m q) as [[r' q']|e] eqn:Hrec;
      simpl in Hr; [|done].
    injection Hr as <- <-.
    destruct (masked_select_assign_row _ _ _ _ _ Hrow) as (sel & Hsel & ->).
    destruct (IH m q r' q' Hrec) as (sel' & Hsel' & ->).
    exists (sel ++ sel'). simpl. rewrite Hsel. simpl. rewrite Hsel'. simpl.
    by rewrite app_assoc.
Qed.

Lemma masked_select_assign (t : list (list A)) (m : list (list bool)) src t' :
  masked_assign t m src = Ok t' -> masked_select t' m = Ok src.
Proof.
  unfold masked_assign.
  destruct (masked_assign_rows t m src) as [[r q]|e] eqn:Hr; simpl; [|done].
  destruct q as [|? ?]; [|done]. intros [= <-].
  destruct (masked_select_assign_rows _ _ _ _ _ Hr) as (sel & Hsel & ->).
  by rewrite app_nil_r.
Qed.

(** Only the entries at the true positions matter. *)
Lemma masked_select_row_ext (row row' : list A) (m : list bool) :
  length row = length row' ->
  (forall k, m !! k = Some true -> row !! k = row' !! k) ->
  masked_select_row row m = masked_select_row row' m.
Proof.
  revert row' m. induction row as [|x row IH]; intros [|y row'] [|c m] Hlen Hk;
    simpl in *; try done.
  rewrite (IH row' m).
  - destruct c; [|done]. specialize (Hk 0%nat eq_refl). simpl in Hk.
    by injection Hk as ->.
  - lia.
  - intros k Hm. by apply (Hk (S k)).
Qed.

Lemma masked_select_ext B L (t t' : list (list A)) (m : list (list bool)) :
  shaped B L t -> shaped B L t' ->
  (forall b k, lookup2 m b k = Some true -> lookup2 t b k = lookup2 t' b k) ->
  masked_select t m = masked_select t' m.
Proof.
  revert B t' m. induction t as [|row t IH];
    intros B [|row' t'] m [Hl Hr] [Hl' Hr'] Hk; simpl in *;
    try (subst B; discriminate); [done|].
  destruct m as [|mrow m]; [done|].
  inversion Hr as [|? ? Hrow Hr1]; subst.
  inversion Hr' as [|? ? Hrow' Hr1']; subst.
  rewrite (masked_select_row_ext row row' mrow).
  - rewrite (IH (length t) t' m); [done|done| |].
    + split; [simpl in Hl'; lia|done].
    + intros b k Hm. by apply (Hk (S b) k).
  - lia.
  - intros k Hm. by apply (Hk 0%nat k).
Qed.

Lemma elem_of_masked_select_row (row : list A) (m : list bool) l x :
  masked_select_row row m = Ok l ->
  x ∈ l <-> exists k, row !! k = Some x /\ m !! k = Some true.
Proof.
  revert m l. induction row as [|y row IH]; intros [|c m] l Hl;
    simpl in Hl; try done.
  - injection Hl as <-. rewrite elem_of_nil. split; [done|].
    by intros (k & Hk & _).
  - destruct (masked_select_row row m) as [r|e] eqn:Hr; simpl in Hl; [|done].
    injection Hl as <-. specialize (IH m r Hr).
    assert (Hstep : x ∈ r <->
              exists k, (y :: row) !! S k = Some x /\
                        (c :: m) !! S k = Some true) by exact IH.
    destruct c.
    + rewrite elem_of_cons, Hstep. split.
      * intros [->|(k & Hk)]; [by exists 0%nat|by exists (S k)].
      * intros ([|k] & Hx & Hm); [left; by injection Hx|right; by exists k].
    + rewrite Hstep. split.
      * intros (k & Hk). by exists (S k).
      * intros ([|k] & Hx & Hm); [done|by exists k].
Qed.

Lemma elem_of_masked_select (t : list (list A)) (m : list (list bool)) l x :
  masked_select t m = Ok l ->
  x ∈ l <-> exists b k, lookup2 t b k = Some x /\ lookup2 m b k = Some true.
Proof.
  revert m l. induction t as [|row t IH]; intros [|mrow m] l Hl;
    simpl in Hl; try done.
  - injection Hl as <-. rewrite elem_of_nil. split; [done|].
    by intros (b & k & Hk & _).
  - destruct (masked_select_row row mrow) as [r|e] eqn:Hr; simpl in Hl;
      [|done].
    destruct (masked_select t m) as [r'|e] eqn:Hr'; simpl in Hl; [|done].
    injection Hl as <-.
    rewrite elem_of_app, (elem_of_masked_select_row _ _ _ x Hr),
      (IH m r' Hr'). split.
    + intros [(k & Hk)|(b & k & Hk)]; [by exists 0%nat, k|by exists (S b), k].
    + intros ([|b] & k & Hx & Hm); [left; by exists k|right; by exists b, k].
Qed.

(** Reading two tensors through one mask reads their pairs. *)
Lemma masked_select_row_zip {C : Type} (row : list A) (row' : list C)
    (m : list bool) l l' :
  masked_select_row row m = Ok l -> masked_select_row row' m = Ok l' ->
  masked_select_row (zip row row') m = Ok (zip l l').
Proof.
  revert row' m l l'.
  induction row as [|x row IH]; intros [|y row'] [|c m] l l' Hl Hl';
    simpl in Hl, Hl'; try done.
  - injection Hl as <-. done.
  - destruct (masked_select_row row m) as [r|e] eqn:Hr; simpl in Hl; [|done].
    destruct (masked_select_row row' m) as [r'|e] eqn:Hr'; simpl in Hl';
      [|done].
    injection Hl as <-. injection Hl' as <-.
    simpl. rewrite (IH row' m r r' Hr Hr'). simpl. by destruct c.
Qed.

Lemma masked_select_zip {C : Type} (t : list (list A)) (t' : list (list C))
    (m : list (list bool)) l l' :
  masked_select t m = Ok l -> masked_select t' m = Ok l' ->
  masked_select (zip_with zip t t') m = Ok (zip l l') /\
  length l = length l'.
Proof.
  revert t' m l l'.
  induction t as [|row t IH]; intros [|row' t'] [|mrow m] l l' Hl Hl';
    simpl in Hl, Hl'; try done.
  - injection Hl as <-. injection Hl' as <-. done.
  - destruct (masked_select_row row mrow) as [r|e] eqn:Hr; simpl in Hl;
      [|done].
    destruct (masked_select t m) as [q|e] eqn:Hq; simpl in Hl; [|done].
    destruct (masked_select_row row' mrow) as [r'|e] eqn:Hr'; simpl in Hl';
      [|done].
    destruct (masked_select t' m) as [q'|e] eqn:Hq'; simpl in Hl'; [|done].
    injection Hl as <-. injection Hl' as <-.
    destruct (IH t' m q q' Hq Hq') as [Hz Hlen].
    pose proof (masked_select_row_length _ _ _ Hr) as [_ Hc].
    assert (Hc' : Z.of_nat (length r') = sum (b2z <$> mrow)).
    { clear -Hr'. revert mrow r' Hr'.
      induction row' as [|y row' IH']; intros [|c m] l Hl; simpl in Hl;
        try done.
      - by injection Hl as <-.
      - destruct (masked_select_row row' m) as [r|e] eqn:Hr; simpl in Hl;
          [|done].
        injection Hl as <-. specialize (IH' m r Hr).
        rewrite fmap_cons, sum_cons.
        destruct c; [change (b2z true) with 1|change (b2z false) with 0];
          rewrite ?length_cons; lia. }
    simpl. rewrite (masked_select_row_zip _ _ _ _ _ Hr Hr'). simpl.
    rewrite Hz. simpl. split.
    + f_equal. rewrite zip_with_app; [done|lia].
    + rewrite !length_app. lia.
Qed.

End SelectFacts.

(** * The merge on well-shaped inputs *)

Section MergeRun.

Import Torch.

Variable pad_token_id : Z.
Variable time_series_token_index : Z.
Variable P : nat.
Hypothesis patches : (0 < P)%nat.

Variable input_ids : list (list Z).
Variables B L : nat.
Hypothesis ids_shaped : shaped B L input_ids.
Hypothesis batch_pos : (0 < B)%nat.
Hypothesis length_pos : (0 < L)%nat.

Variable lp : bool.
Variable med : Z.
Hypothesis lp_Ok : left_padding pad_token_id input_ids = Ok lp.
Hypothesis med_Ok :
  max_embed_dim time_series_token_index P input_ids = Ok med.

Local Abbreviation slot := (slots time_series_token_index P).
Local Abbreviation dest_at :=
  (destination_at time_series_token_index P lp med input_ids).
Local Abbreviation wr := (writes time_series_token_index P lp med input_ids).
Local Abbreviation M := (Z.to_nat med).

Lemma rows_length row : row ∈ input_ids -> length row = L.
Proof.
  intros Hrow. destruct ids_shaped as [_ Hrows].
  by apply (proj1 (Forall_forall _ _) Hrows).
Qed.

Lemma rows_nonempty : Forall (fun row => row <> []) input_ids.
Proof.
  apply Forall_forall. intros row Hrow Hnil.
  apply rows_length in Hrow. subst row. simpl in *. lia.
Qed.

Lemma med_bound row : row ∈ input_ids -> sum (slot <$> row) <= med.
Proof.
  intros Hrow.
  destruct (max_embed_dim_Ok time_series_token_index P patches B L input_ids)
    as (med' & Hmed' & _ & Hle); [done|done|].
  rewrite med_Ok in Hmed'. injection Hmed' as <-.
  rewrite sum_slots_placeholders. by apply Hle.
Qed.

Lemma med_pos : 0 < med.
Proof.
  destruct (lookup_lt_is_Some_2 input_ids 0%nat) as [row Hrow0].
  { destruct ids_shaped as [Hlen _]. lia. }
  assert (Hrow : row ∈ input_ids) by (by eapply list_elem_of_lookup_2).
  pose proof (med_bound row Hrow) as Hb.
  pose proof (sum_slots_ge time_series_token_index P patches row) as Hs.
  rewrite (rows_length row Hrow) in Hs. lia.
Qed.

Local Abbreviation valid := (valid_coordinates input_ids).

Lemma valid_lt idx bj :
  valid idx -> bj ∈ idx -> (bj.1 < B)%nat /\ (bj.2 < L)%nat.
Proof.
  intros Hv Hin. destruct (Hv bj Hin) as [x Hx].
  by eapply lookup2_lt.
Qed.

Lemma valid_row idx bj :
  valid idx -> bj ∈ idx ->
  exists row, input_ids !! bj.1 = Some row /\ row ∈ input_ids /\
              (bj.2 < length row)%nat.
Proof.
  intros Hv Hin. destruct (Hv bj Hin) as [x Hx].
  apply lookup2_Some in Hx as (row & Hrow & Hx).
  exists row. split; [done|]. split.
  - by eapply list_elem_of_lookup_2.
  - by eapply lookup_lt_Some.
Qed.

Lemma valid_non_time_series :
  valid (non_time_series time_series_token_index input_ids).
Proof.
  intros [b j] Hin. apply elem_of_non_time_series in Hin as (x & Hx & _).
  by exists x.
Qed.

Lemma valid_pads :
  valid (where2 (pointwise (fun x => x =? pad_token_id) input_ids)).
Proof.
  intros [b j] Hin. apply elem_of_pads in Hin. by eexists.
Qed.

Lemma dest_at_range idx bj :
  valid idx -> bj ∈ idx -> 0 <= dest_at bj < med.
Proof.
  intros Hv Hin. destruct (valid_row idx bj Hv Hin) as (row & Hrow & Hel & Hj).
  unfold destination_at. rewrite Hrow. simpl.
  apply destination_range; [done|done|]. by apply med_bound.
Qed.

Lemma dest_at_inj idx b j j' :
  valid idx -> (b, j) ∈ idx -> (b, j') ∈ idx ->
  Z.to_nat (dest_at (b, j)) = Z.to_nat (dest_at (b, j')) -> j = j'.
Proof.
  intros Hv Hin Hin' Heq.
  pose proof (dest_at_range idx _ Hv Hin) as Hr.
  pose proof (dest_at_range idx _ Hv Hin') as Hr'.
  destruct (valid_row idx _ Hv Hin) as (row & Hrow & Hel & Hj).
  destruct (valid_row idx _ Hv Hin') as (row' & Hrow' & _ & Hj').
  simpl in *. rewrite Hrow in Hrow'. injection Hrow' as <-.
  unfold destination_at in *. simpl in *. rewrite Hrow in *. simpl in *.
  eapply (destination_inj time_series_token_index P patches lp med row);
    [done|done|lia].
Qed.

Lemma gather2_positions pos idx :
  (forall b j row, input_ids !! b = Some row -> (j < length row)%nat ->
     lookup2 pos b j =
     Some (destination time_series_token_index P lp med row j)) ->
  valid idx -> gather2 pos idx = Ok (dest_at <$> idx).
Proof.
  intros Hpos Hv. apply gather2_fmap. intros bj Hin.
  destruct (valid_row idx bj Hv Hin) as (row & Hrow & _ & Hj).
  unfold destination_at. rewrite Hrow. simpl. by apply Hpos.
Qed.

Lemma writes_in_range {A : Type} idx (f : nat * nat -> A) :
  valid idx ->
  Forall (fun u => (u.1.1 < B)%nat /\ 0 <= u.1.2 < Z.of_nat M) (wr idx f).
Proof.
  intros Hv. unfold writes. apply Forall_fmap, Forall_forall.
  intros bj Hin. simpl.
  pose proof (valid_lt idx bj Hv Hin) as [Hb _].
  pose proof (dest_at_range idx bj Hv Hin). lia.
Qed.

Lemma index_put2_writes {A : Type} (t : list (list A)) idx
    (f : nat * nat -> A) :
  shaped B M t -> valid idx -> index_put2 t (wr idx f) = Ok (puts t (wr idx f)).
Proof.
  intros Ht Hv. eapply index_put2_puts; [done|]. by apply writes_in_range.
Qed.

(** The destination of a coordinate holds what was written for it. *)
Lemma lookup2_writes_hit {A : Type} (t : list (list A)) idx
    (f : nat * nat -> A) b j :
  shaped B M t -> valid idx -> (b, j) ∈ idx ->
  lookup2 (puts t (wr idx f)) b (Z.to_nat (dest_at (b, j))) = Some (f (b, j)).
Proof.
  intros Ht Hv Hin.
  pose proof (valid_lt idx _ Hv Hin) as [Hb _].
  pose proof (dest_at_range idx _ Hv Hin) as Hr. simpl in Hb.
  eapply lookup2_puts_written; [done| |done|lia|].
  - unfold writes. apply list_elem_of_fmap. by exists (b, j).
  - intros u Hu Hub Hui. unfold writes in Hu.
    apply list_elem_of_fmap in Hu as ([b' j'] & -> & Hin'). simpl in *.
    subst b'. f_equal. f_equal. symmetry.
    by eapply (dest_at_inj idx b j j').
Qed.

(** A column that is no destination keeps its entry. *)
Lemma lookup2_writes_miss {A : Type} (t : list (list A)) idx
    (f : nat * nat -> A) b k :
  (forall j, (b, j) ∈ idx -> Z.to_nat (dest_at (b, j)) <> k) ->
  lookup2 (puts t (wr idx f)) b k = lookup2 t b k.
Proof.
  intros Hmiss. apply lookup2_puts_other. intros u Hu [Hub Huk].
  unfold writes in Hu.
  apply list_elem_of_fmap in Hu as ([b' j'] & -> & Hin'). simpl in *.
  subst b'. by apply (Hmiss j').
Qed.

Lemma batch_size_B : batch_size input_ids = B.
Proof. by destruct ids_shaped. Qed.

Lemma time_series_to_overwrite_Ok :
  time_series_to_overwrite pad_token_id time_series_token_index P input_ids =
  Ok (slot_mask time_series_token_index P lp med input_ids).
Proof.
  unfold time_series_to_overwrite. rewrite med_Ok. simpl.
  destruct (new_token_positions_Ok pad_token_id time_series_token_index P
              patches input_ids lp med lp_Ok med_Ok rows_nonempty)
    as (pos & -> & Hpos). simpl.
  rewrite (nb_time_series_pad_Ok time_series_token_index P input_ids med
             med_Ok rows_nonempty). simpl.
  rewrite (gather2_positions pos _ Hpos valid_non_time_series). simpl.
  rewrite fills_fmap.
  change (fmap (fun bj => (bj.1, dest_at bj, false)) ?idx)
    with (wr idx (fun _ : nat * nat => false)).
  rewrite index_put2_writes.
  - done.
  - rewrite batch_size_B. apply shaped_full.
  - apply valid_non_time_series.
Qed.

Lemma slot_mask_shaped :
  shaped B M (slot_mask time_series_token_index P lp med input_ids).
Proof.
  unfold slot_mask. rewrite batch_size_B.
  pose proof (puts_shaped B M (full B M true)
                (wr (non_time_series time_series_token_index input_ids)
                    (fun _ => false)) (shaped_full B M true)) as [Hl Hr].
  destruct ids_shaped as [Hli _]. split.
  - rewrite length_zip_with, length_fmap. lia.
  - apply Forall_lookup_2. intros b row Hrow.
    apply lookup_zip_with_Some in Hrow as (n & r & -> & _ & Hr').
    pose proof (Forall_lookup_1 _ _ _ _ Hr Hr') as Hlen. simpl in Hlen.
    unfold skip_pad. rewrite length_zip_with, length_cumsum, length_fmap. lia.
Qed.

(** The destination of a text token is no time-series slot. *)
Lemma slot_mask_text b j :
  (b, j) ∈ non_time_series time_series_token_index input_ids ->
  lookup2 (slot_mask time_series_token_index P lp med input_ids) b
          (Z.to_nat (dest_at (b, j))) = Some false.
Proof.
  intros Hin. unfold slot_mask. rewrite batch_size_B.
  pose proof (lookup2_writes_hit (full B M true) _ (fun _ => false) b j
                (shaped_full B M true) valid_non_time_series Hin) as Hhit.
  apply lookup2_Some in Hhit as (row & Hrow & Hk).
  pose proof (valid_lt _ _ valid_non_time_series Hin) as [Hb _]. simpl in Hb.
  destruct ids_shaped as [Hli _].
  destruct (lookup_lt_is_Some_2 input_ids b) as [irow Hirow]; [lia|].
  apply lookup2_Some. eexists. split.
  - rewrite lookup_zip_with, list_lookup_fmap, Hirow, Hrow. simpl. done.
  - unfold skip_pad. rewrite lookup_zip_with, Hk. simpl.
    apply lookup_lt_Some in Hk.
    destruct (lookup_lt_is_Some_2 (cumsum (b2z <$> row))
                (Z.to_nat (dest_at (b, j)))) as [c ->]; [|done].
    by rewrite length_cumsum, length_fmap.
Qed.

Lemma updates_writes {A : Type} idx (f : nat * nat -> A) :
  updates idx (dest_at <$> idx) (f <$> idx) = wr idx f.
Proof. unfold writes. apply updates_fmap. Qed.

Lemma fills_writes {A : Type} idx (x : A) :
  fills idx (dest_at <$> idx) x = wr idx (fun _ => x).
Proof. unfold writes. apply fills_fmap. Qed.

(** Step 4 for one tensor: read the text entries, write them at their
    destinations. *)
Lemma text_step {A : Type} (fill : A) (t : list (list A)) :
  shaped B L t ->
  let idx := non_time_series time_series_token_index input_ids in
  (x ← gather2 t idx;
   index_put2 (full (batch_size input_ids) M fill)
              (updates idx (dest_at <$> idx) x)) =
  Ok (text_tensor time_series_token_index P lp med input_ids fill t).
Proof.
  intros Ht idx.
  rewrite (gather2_entries fill B L t idx Ht).
  - simpl. rewrite updates_writes, index_put2_writes; [done| |].
    + rewrite batch_size_B. apply shaped_full.
    + apply valid_non_time_series.
  - intros bj Hin. by apply (valid_lt idx bj valid_non_time_series).
Qed.

Context {E : Type}.
Variable zeroE : E.
Variable ignore_index : Z.
Variable tsf : features E.
Variable inputs_embeds : list (list E).
Variable attention_mask : list (list Z).
Variable labels : option (list (list Z)).
Hypothesis tsf_patches : num_time_series_patches tsf = P.
Hypothesis embeds_shaped : shaped B L inputs_embeds.
Hypothesis mask_shaped : shaped B L attention_mask.
Hypothesis labels_shaped : forall lab, labels = Some lab -> shaped B L lab.

Local Abbreviation pads :=
  (where2 (pointwise (fun x => x =? pad_token_id) input_ids)).
Local Abbreviation emb1 :=
  (text_tensor time_series_token_index P lp med input_ids zeroE inputs_embeds).
Local Abbreviation mask2 :=
  (fused_mask time_series_token_index P lp med input_ids attention_mask).
Local Abbreviation lab1 :=
  (text_tensor time_series_token_index P lp med input_ids ignore_index
     <$> labels).
Local Abbreviation tsm :=
  (slot_mask time_series_token_index P lp med input_ids).

(** The merge, with every step before the count check carried out. *)
Lemma merge_steps :
  _merge_input_ids_with_time_series_features zeroE pad_token_id
    time_series_token_index ignore_index tsf inputs_embeds input_ids
    attention_mask labels =
  (_ ← (if count_true tsm =? Z.of_nat (num_time_series tsf * P)
        then Ok () else Raise ValueError);
   emb2 ← masked_assign emb1 tsm (flat tsf);
   emb3 ← index_put2 emb2 (wr pads (fun _ => zeroE));
   Ok (Fused emb3 mask2 lab1 (position_row <$> mask2))).
Proof.
  unfold _merge_input_ids_with_time_series_features.
  rewrite tsf_patches, med_Ok. simpl.
  destruct (new_token_positions_Ok pad_token_id time_series_token_index P
              patches input_ids lp med lp_Ok med_Ok rows_nonempty)
    as (pos & -> & Hpos). simpl.
  rewrite (gather2_positions pos _ Hpos valid_non_time_series). simpl.
  pose proof med_pos as Hmed.
  assert (Hneg : (med <? 0) = false) by (apply Z.ltb_ge; lia).
  rewrite Hneg. simpl.
  pose proof (text_step zeroE inputs_embeds embeds_shaped) as He.
  pose proof (text_step 0 attention_mask mask_shaped) as Ha.
  simpl in He, Ha.
  destruct (gather2 inputs_embeds _) as [e|?]; simpl in He |- *; [|done].
  rewrite He. simpl.
  destruct (gather2 attention_mask _) as [a|?]; simpl in Ha |- *; [|done].
  rewrite Ha. simpl.
  assert (Hl :
    match labels with
    | Some lab =>
        l ← gather2 lab (non_time_series time_series_token_index input_ids);
        r ← index_put2 (full (batch_size input_ids) M ignore_index)
              (updates (non_time_series time_series_token_index input_ids)
                 (dest_at <$>
                  non_time_series time_series_token_index input_ids) l);
        Ok (Some r)
    | None => Ok None
    end = Ok lab1).
  { destruct labels as [lab|]; simpl; [|done].
    pose proof (text_step ignore_index lab (labels_shaped lab eq_refl)) as Hlab.
    simpl in Hlab.
    destruct (gather2 lab _) as [l|?]; simpl in Hlab |- *; [|done].
    by rewrite Hlab. }
  rewrite Hl. simpl.
  rewrite time_series_to_overwrite_Ok. simpl.
  destruct (count_true tsm =? Z.of_nat (num_time_series tsf * P)); simpl;
    [|done].
  destruct (masked_assign emb1 tsm (flat tsf)) as [emb2|?]; simpl; [|done].
  rewrite (gather2_positions pos _ Hpos valid_pads). simpl.
  by rewrite fills_writes.
Qed.

Hypothesis flat_length :
  length (flat tsf) = (num_time_series tsf * P)%nat.

Local Abbreviation idx := (non_time_series time_series_token_index input_ids).

Lemma text_tensor_shaped {A : Type} (fill : A) (t : list (list A)) :
  shaped B M
    (text_tensor time_series_token_index P lp med input_ids fill t).
Proof.
  unfold text_tensor. rewrite batch_size_B. apply puts_shaped, shaped_full.
Qed.

Lemma fused_mask_shaped : shaped B M mask2.
Proof.
  unfold fused_mask.
  apply shaped_zip_with2; [apply text_tensor_shaped|apply slot_mask_shaped].
Qed.

Lemma dest_at_inj_valid b j j' :
  is_Some (lookup2 input_ids b j) -> is_Some (lookup2 input_ids b j') ->
  Z.to_nat (dest_at (b, j)) = Z.to_nat (dest_at (b, j')) -> j = j'.
Proof.
  intros Hj Hj'. apply (dest_at_inj [(b, j); (b, j')]).
  - intros bj Hin. apply elem_of_cons in Hin as [->|Hin]; [done|].
    apply list_elem_of_singleton in Hin. by subst bj.
  - by left.
  - right. by left.
Qed.

(** The destination of a text token holds the entry of the token. *)
Lemma text_tensor_hit {A : Type} (fill : A) (t : list (list A)) b j :
  shaped B L t -> (b, j) ∈ idx ->
  lookup2 (text_tensor time_series_token_index P lp med input_ids fill t)
          b (Z.to_nat (dest_at (b, j))) = lookup2 t b j.
Proof.
  intros Ht Hin. unfold text_tensor. rewrite batch_size_B.
  rewrite (lookup2_writes_hit _ idx _ b j (shaped_full B M fill)
             valid_non_time_series Hin).
  pose proof (valid_lt idx _ valid_non_time_series Hin) as [Hb Hj].
  destruct (lookup2_shaped B L t b j Ht Hb Hj) as [x Hx].
  unfold entry_at. simpl. by rewrite Hx.
Qed.

(** A column that is no destination of a text token holds the fill. *)
Lemma text_tensor_miss {A : Type} (fill : A) (t : list (list A)) b k :
  (b < B)%nat -> (k < M)%nat ->
  (forall j, (b, j) ∈ idx -> Z.to_nat (dest_at (b, j)) <> k) ->
  lookup2 (text_tensor time_series_token_index P lp med input_ids fill t) b k
  = Some fill.
Proof.
  intros Hb Hk Hmiss. unfold text_tensor. rewrite batch_size_B.
  rewrite lookup2_writes_miss by done.
  rewrite lookup2_full. by rewrite decide_True.
Qed.

Lemma fused_mask_hit b j :
  (b, j) ∈ idx ->
  lookup2 mask2 b (Z.to_nat (dest_at (b, j))) = lookup2 attention_mask b j.
Proof.
  intros Hin. unfold fused_mask.
  rewrite lookup2_zip_with2, (text_tensor_hit 0 _ b j mask_shaped Hin).
  rewrite (slot_mask_text b j Hin).
  destruct (lookup2 attention_mask b j) as [m|]; simpl; [|done].
  by rewrite Z.lor_0_r.
Qed.

Lemma is_mask_fused_mask : is_mask attention_mask -> is_mask mask2.
Proof.
  intros Hm. unfold fused_mask. apply is_mask_zip_lor.
  unfold text_tensor. apply puts_Forall.
  - unfold full. apply Forall_replicate, Forall_replicate. by left.
  - unfold writes. apply Forall_fmap, Forall_forall. intros bj _. simpl.
    unfold entry_at. destruct (lookup2 attention_mask bj.1 bj.2) as [m|] eqn:Hl.
    + simpl. by eapply is_mask_lookup2.
    + simpl. by left.
Qed.

Lemma merge_raises :
  count_true tsm <> Z.of_nat (num_time_series tsf * P) ->
  _merge_input_ids_with_time_series_features zeroE pad_token_id
    time_series_token_index ignore_index tsf inputs_embeds input_ids
    attention_mask labels = Raise ValueError.
Proof.
  intros Hne. rewrite merge_steps.
  apply Z.eqb_neq in Hne. by rewrite Hne.
Qed.

Lemma merge_returns :
  count_true tsm = Z.of_nat (num_time_series tsf * P) ->
  exists emb2,
    shaped B M emb2 /\
    (forall b k, lookup2 tsm b k = Some false ->
                 lookup2 emb2 b k = lookup2 emb1 b k) /\
    _merge_input_ids_with_time_series_features zeroE pad_token_id
      time_series_token_index ignore_index tsf inputs_embeds input_ids
      attention_mask labels =
    Ok (Fused (puts emb2 (wr pads (fun _ => zeroE))) mask2 lab1
              (position_row <$> mask2)).
Proof.
  intros Hc. rewrite merge_steps.
  apply Z.eqb_eq in Hc as Hc'. rewrite Hc'. simpl.
  destruct (masked_assign_ok B M emb1 tsm (flat tsf))
    as (emb2 & -> & Hs & Hk).
  - apply text_tensor_shaped.
  - apply slot_mask_shaped.
  - by rewrite flat_length.
  - exists emb2. split; [done|]. split; [done|]. simpl.
    by rewrite (index_put2_writes emb2 pads _ Hs valid_pads).
Qed.

(** The embedding at the destination of a text token: zeroed for the pad
    id, the embedding of the token otherwise. *)
Lemma final_embedding_hit emb2 b j x :
  shaped B M emb2 ->
  (forall b k, lookup2 tsm b k = Some false ->
               lookup2 emb2 b k = lookup2 emb1 b k) ->
  lookup2 input_ids b j = Some x -> x <> time_series_token_index ->
  lookup2 (puts emb2 (wr pads (fun _ => zeroE))) b (Z.to_nat (dest_at (b, j)))
  = if x =? pad_token_id then Some zeroE else lookup2 inputs_embeds b j.
Proof.
  intros Hs Hk Hx Hne.
  assert (Hin : (b, j) ∈ idx) by (apply elem_of_non_time_series; eauto).
  destruct (Z.eqb_spec x pad_token_id) as [->|Hpad].
  - apply (lookup2_writes_hit emb2 pads (fun _ => zeroE) b j Hs valid_pads).
    by apply elem_of_pads.
  - rewrite lookup2_writes_miss.
    + rewrite Hk by (by apply slot_mask_text).
      by apply text_tensor_hit.
    + intros j' Hin' Heq. apply elem_of_pads in Hin' as Hx'.
      assert (j' = j) as ->.
      { apply (dest_at_inj_valid b j' j); [by eexists|by eexists|done]. }
      congruence.
Qed.

Local Abbreviation merged :=
  (_merge_input_ids_with_time_series_features zeroE pad_token_id
     time_series_token_index ignore_index tsf inputs_embeds input_ids
     attention_mask labels).

(** The only error is the one of the count check. *)
Lemma merge_outcome :
  (merged = Raise ValueError <->
   count_true tsm <> Z.of_nat (num_time_series tsf * P)) /\
  (count_true tsm = Z.of_nat (num_time_series tsf * P) ->
   exists out, merged = Ok out) /\
  (forall e, merged = Raise e -> e = ValueError).
Proof.
  destruct (decide (count_true tsm = Z.of_nat (num_time_series tsf * P)))
    as [Hc|Hc].
  - destruct (merge_returns Hc) as (emb2 & _ & _ & Hm). rewrite Hm.
    split; [split; [done|by intros ?]|]. split; [by eexists|done].
  - rewrite (merge_raises Hc).
    split; [split; [by intros _|done]|].
    split; [by intros ?|]. by intros e [= <-].
Qed.

Lemma merge_Ok_inv out :
  merged = Ok out ->
  exists emb2,
    shaped B M emb2 /\
    (forall b k, lookup2 tsm b k = Some false ->
                 lookup2 emb2 b k = lookup2 emb1 b k) /\
    out = Fused (puts emb2 (wr pads (fun _ => zeroE))) mask2 lab1
                (position_row <$> mask2).
Proof.
  intros Hout.
  destruct (decide (count_true tsm = Z.of_nat (num_time_series tsf * P)))
    as [Hc|Hc].
  - destruct (merge_returns Hc) as (emb2 & Hs & Hk & Hm).
    exists emb2. split; [done|]. split; [done|]. congruence.
  - rewrite (merge_raises Hc) in Hout. done.
Qed.


(** What sits at the destination of a token that is no placeholder. *)
Lemma merge_text out b j x :
  merged = Ok out ->
  lookup2 input_ids b j = Some x -> x <> time_series_token_index ->
  0 <= dest_at (b, j) < med /\
  lookup2 (final_attention_mask out) b (Z.to_nat (dest_at (b, j))) =
    lookup2 attention_mask b j /\
  (forall lab, labels = Some lab ->
     exists fl, final_labels out = Some fl /\
       lookup2 fl b (Z.to_nat (dest_at (b, j))) = lookup2 lab b j) /\
  lookup2 (final_embedding out) b (Z.to_nat (dest_at (b, j))) =
    if x =? pad_token_id then Some zeroE else lookup2 inputs_embeds b j.
Proof.
  intros (emb2 & Hs & Hk & ->)%merge_Ok_inv Hx Hne. simpl.
  assert (Hin : (b, j) ∈ idx) by (apply elem_of_non_time_series; eauto).
  split; [by apply (dest_at_range idx _ valid_non_time_series)|].
  split; [by apply fused_mask_hit|]. split.
  - intros lab ->. simpl. eexists. split; [done|].
    apply text_tensor_hit; [|done]. by apply labels_shaped.
  - by apply final_embedding_hit.
Qed.

(** Position ids count the nonzero mask entries. *)
Lemma merge_position_ids out b row k m :
  is_mask attention_mask -> merged = Ok out ->
  final_attention_mask out !! b = Some row -> row !! k = Some m ->
  lookup2 (fused_position_ids out) b k =
  Some (if m =? 0 then 1 else count_nonzero (take (S k) row) - 1).
Proof.
  intros Hmask (emb2 & _ & _ & ->)%merge_Ok_inv Hrow Hm. simpl in *.
  unfold lookup2. rewrite list_lookup_fmap, Hrow. simpl.
  rewrite (lookup_position_row row k m Hm).
  rewrite sum_count_nonzero; [done|].
  apply Forall_take.
  by apply (Forall_lookup_1 _ _ _ _ (is_mask_fused_mask Hmask) Hrow).
Qed.

(** Labels away from the destinations of the text are the ignore index. *)
Lemma merge_labels out :
  merged = Ok out ->
  (labels = None -> final_labels out = None) /\
  (forall lab, labels = Some lab ->
     exists fl, final_labels out = Some fl /\ shaped B M fl /\
       forall b k, (b < B)%nat -> (k < M)%nat ->
         (forall j x, lookup2 input_ids b j = Some x ->
                      x <> time_series_token_index ->
                      Z.to_nat (dest_at (b, j)) <> k) ->
         lookup2 fl b k = Some ignore_index).
Proof.
  intros (emb2 & _ & _ & ->)%merge_Ok_inv. simpl. split.
  - by intros ->.
  - intros lab ->. simpl. eexists. split; [done|].
    split; [apply text_tensor_shaped|].
    intros b k Hb Hk Hmiss. apply text_tensor_miss; [done|done|].
    intros j Hin. apply elem_of_non_time_series in Hin as (x & Hx & Hne).
    by apply (Hmiss j x).
Qed.

(** Without placeholders every token stays in its column. *)
Lemma merge_no_placeholders :
  (forall row, row ∈ input_ids ->
               Forall (fun x => x <> time_series_token_index) row) ->
  (num_time_series tsf * P = 0)%nat ->
  exists out,
    merged = Ok out /\
    final_attention_mask out = attention_mask /\
    final_labels out = labels /\
    final_embedding out =
      zip_with (zip_with (fun x e => if x =? pad_token_id then zeroE else e))
               input_ids inputs_embeds.
Proof.
  intros Hnone Hempty.
  assert (Hslots : forall l, Forall (fun x => x <> time_series_token_index) l ->
                             sum (slot <$> l) = Z.of_nat (length l)).
  { induction 1 as [|x l Hx Hl IH]; [done|].
    rewrite fmap_cons, sum_cons, IH, length_cons. unfold slots.
    destruct (Z.eqb_spec x time_series_token_index); [done|lia]. }
  assert (Hmed : med = Z.of_nat L).
  { destruct (max_embed_dim_Ok time_series_token_index P patches B L
                input_ids ids_shaped batch_pos)
      as (med' & Hm & (row & Hrow & Hrl) & _).
    rewrite med_Ok in Hm. injection Hm as <-.
    rewrite <- Hrl, <- sum_slots_placeholders, (Hslots row (Hnone row Hrow)).
    by rewrite (rows_length row Hrow). }
  assert (HM : M = L) by (rewrite Hmed; apply Nat2Z.id).
  assert (Hdest : forall b j, is_Some (lookup2 input_ids b j) ->
                              Z.to_nat (dest_at (b, j)) = j).
  { intros b j [x (row & Hrow & Hx)%lookup2_Some].
    assert (Hel : row ∈ input_ids) by (by eapply list_elem_of_lookup_2).
    apply lookup_lt_Some in Hx.
    unfold destination_at, destination. simpl. rewrite Hrow. simpl.
    rewrite running_sum_last. unfold running_sum.
    rewrite (Hslots row (Hnone row Hel)).
    rewrite (Hslots (take (S j) row)) by (apply Forall_take; by apply Hnone).
    rewrite length_take, (rows_length row Hel), Hmed.
    rewrite (rows_length row Hel) in Hx. destruct lp; lia. }
  assert (Hall : forall b j, (b < B)%nat -> (j < L)%nat -> (b, j) ∈ idx).
  { intros b j Hb Hj.
    destruct (lookup2_shaped B L input_ids b j ids_shaped Hb Hj) as [x Hx].
    apply elem_of_non_time_series. exists x. split; [done|].
    apply lookup2_Some in Hx as (row & Hrow & Hx).
    assert (Hel : row ∈ input_ids) by (by eapply list_elem_of_lookup_2).
    apply (proj1 (Forall_forall _ _) (Hnone row Hel)).
    by eapply list_elem_of_lookup_2. }
  assert (Hvalid : forall b j, (b < B)%nat -> (j < L)%nat ->
                               is_Some (lookup2 input_ids b j)).
  { intros b j Hb Hj. by apply (lookup2_shaped B L). }
  assert (Htsm : tsm = full B L false).
  { apply (tensor_ext B L).
    - rewrite <- HM. apply slot_mask_shaped.
    - apply shaped_full.
    - intros b j Hb Hj. rewrite lookup2_full, decide_True by done.
      rewrite <- (Hdest b j) at 1 by (by apply Hvalid).
      apply slot_mask_text. by apply Hall. }
  assert (Hc : count_true tsm = Z.of_nat (num_time_series tsf * P)).
  { rewrite Htsm, count_true_full. lia. }
  destruct (merge_returns Hc) as (emb2 & Hs & Hk & Hm).
  eexists. split; [exact Hm|]. simpl. split; [|split].
  - apply (tensor_ext B L); [rewrite <- HM; apply fused_mask_shaped|done|].
    intros b j Hb Hj. rewrite <- (Hdest b j) at 1 by (by apply Hvalid).
    apply fused_mask_hit. by apply Hall.
  - destruct labels as [lab|]; simpl; [|done]. f_equal.
    apply (tensor_ext B L);
      [rewrite <- HM; apply text_tensor_shaped|by apply labels_shaped|].
    intros b j Hb Hj. rewrite <- (Hdest b j) at 1 by (by apply Hvalid).
    apply text_tensor_hit; [by apply labels_shaped|by apply Hall].
  - apply (tensor_ext B L).
    + rewrite <- HM. by apply puts_shaped.
    + by apply shaped_zip_with2.
    + intros b j Hb Hj.
      destruct (Hvalid b j Hb Hj) as [x Hx].
      destruct (lookup2_shaped B L inputs_embeds b j embeds_shaped Hb Hj)
        as [e He].
      pose proof (Hall b j Hb Hj) as Hin.
      apply elem_of_non_time_series in Hin as (x' & Hx' & Hne).
      rewrite Hx in Hx'. injection Hx' as <-.
      rewrite <- (Hdest b j) at 1 by (by eexists).
      rewrite (final_embedding_hit emb2 b j x Hs Hk Hx Hne).
      rewrite lookup2_zip_with2, Hx, He. simpl.
      by destruct (x =? pad_token_id).
Qed.

(** The number of text tokens of a row. *)
Lemma text_count b row :
  input_ids !! b = Some row ->
  Z.of_nat (length (filter (fun bj : nat * nat => bj.1 = b) idx)) =
  Z.of_nat (length row) - placeholders time_series_token_index row.
Proof.
  intros Hrow. unfold non_time_series, where2.
  rewrite length_filter_where_from, decide_True by lia.
  rewrite Nat.sub_0_r. unfold row_count, pointwise.
  rewrite list_lookup_fmap, Hrow. simpl. unfold placeholders.
  clear. induction row as [|x row IH]; [done|].
  rewrite !fmap_cons, !sum_cons, length_cons, IH.
  destruct (x =? time_series_token_index); unfold b2z; simpl negb; lia.
Qed.

(** The free columns of a row: all but the destinations of its text. *)
Lemma free_count b row :
  input_ids !! b = Some row ->
  row_count (puts (full B M true) (wr idx (fun _ => false))) b =
  med - (Z.of_nat (length row) - placeholders time_series_token_index row).
Proof.
  intros Hrow.
  assert (Hb : (b < B)%nat).
  { destruct ids_shaped as [<- _]. by eapply lookup_lt_Some. }
  rewrite row_count_puts.
  - rewrite (row_count_full B M b Hb). unfold writes.
    rewrite length_filter_fmap. simpl. rewrite (text_count b row Hrow).
    pose proof med_pos. lia.
  - unfold writes. rewrite <- list_fmap_compose.
    apply NoDup_fmap_2_strong; [|apply NoDup_where_from].
    intros [b1 j1] [b2 j2] H1 H2 [= -> Heq]. f_equal.
    by apply (dest_at_inj idx b2 j1 j2 valid_non_time_series).
  - intros u Hu. unfold writes in Hu.
    apply list_elem_of_fmap in Hu as (bj & -> & Hin). simpl.
    split; [done|].
    pose proof (valid_lt idx bj valid_non_time_series Hin) as [Hlb _].
    pose proof (dest_at_range idx bj valid_non_time_series Hin) as Hr.
    rewrite lookup2_full, decide_True; [done|]. split; [done|lia].
Qed.

(** Each placeholder gets one time-series slot per patch. *)
Lemma slot_count :
  count_true tsm =
  Z.of_nat P * sum (placeholders time_series_token_index <$> input_ids).
Proof.
  rewrite <- sum_scale. unfold count_true. f_equal.
  unfold slot_mask. rewrite batch_size_B.
  pose proof (puts_shaped B M (full B M true)
                (wr idx (fun _ => false)) (shaped_full B M true)) as [Hfl Hfr].
  destruct ids_shaped as [Hil _]. pose proof med_pos as Hmp.
  apply list_eq. intros b.
  rewrite !list_lookup_fmap, lookup_zip_with, list_lookup_fmap.
  destruct (input_ids !! b) as [row|] eqn:Hrow; simpl; [|done].
  assert (Hel : row ∈ input_ids) by (by eapply list_elem_of_lookup_2).
  destruct (lookup_lt_is_Some_2
              (puts (full B M true) (wr idx (fun _ => false))) b)
    as [frow Hfrow].
  { apply lookup_lt_Some in Hrow. lia. }
  pose proof (free_count b row Hrow) as Hfree.
  unfold row_count in Hfree. rewrite Hfrow in Hfree. simpl in Hfree.
  rewrite Hfrow. simpl. f_equal.
  pose proof (med_bound row Hel) as Hmb.
  rewrite running_sum_last.
  rewrite sum_slots_placeholders in Hmb |- *. unfold row_fused_length in *.
  assert (Hk : 0 <= placeholders time_series_token_index row).
  { unfold placeholders.
    rewrite (list_fmap_compose (fun x => x =? time_series_token_index) b2z).
    apply sum_b2z_nonneg. }
  rewrite count_skip_pad by lia. rewrite Hfree. nia.
Qed.

(** A time-series slot is the destination of no text token. *)
Lemma slot_is_no_destination b k :
  lookup2 tsm b k = Some true ->
  forall j, (b, j) ∈ idx -> Z.to_nat (dest_at (b, j)) <> k.
Proof.
  intros Ht j Hin Heq. rewrite <- Heq, (slot_mask_text b j Hin) in Ht. done.
Qed.

Lemma fused_mask_slot b k :
  lookup2 tsm b k = Some true -> lookup2 mask2 b k = Some 1.
Proof.
  intros Ht.
  destruct (lookup2_lt _ _ _ _ _ _ slot_mask_shaped Ht) as [Hb Hk].
  unfold fused_mask. rewrite lookup2_zip_with2, Ht.
  by rewrite (text_tensor_miss 0 attention_mask b k Hb Hk
                (slot_is_no_destination b k Ht)).
Qed.

Lemma fused_mask_padding b k :
  (b < B)%nat -> (k < M)%nat ->
  (forall j, (b, j) ∈ idx -> Z.to_nat (dest_at (b, j)) <> k) ->
  lookup2 tsm b k = Some false -> lookup2 mask2 b k = Some 0.
Proof.
  intros Hb Hk Hmiss Ht. unfold fused_mask.
  rewrite lookup2_zip_with2, Ht.
  by rewrite (text_tensor_miss 0 attention_mask b k Hb Hk Hmiss).
Qed.

Lemma merge_Ok_assign out :
  merged = Ok out ->
  exists emb2,
    masked_assign emb1 tsm (flat tsf) = Ok emb2 /\
    shaped B M emb2 /\
    out = Fused (puts emb2 (wr pads (fun _ => zeroE))) mask2 lab1
                (position_row <$> mask2).
Proof.
  intros Hout.
  destruct (decide (count_true tsm = Z.of_nat (num_time_series tsf * P)))
    as [Hc|Hc].
  - destruct (masked_assign_ok B M emb1 tsm (flat tsf))
      as (emb2 & Ha & Hs & _).
    + apply text_tensor_shaped.
    + apply slot_mask_shaped.
    + by rewrite flat_length.
    + exists emb2. split; [done|]. split; [done|].
      rewrite merge_steps in Hout. apply Z.eqb_eq in Hc. rewrite Hc in Hout.
      simpl in Hout. rewrite Ha in Hout. simpl in Hout.
      rewrite (index_put2_writes emb2 pads _ Hs valid_pads) in Hout.
      simpl in Hout. congruence.
  - rewrite (merge_raises Hc) in Hout. done.
Qed.

(** A column that is neither the destination of a text token nor a
    time-series slot is padding: no attention, the zero vector, position
    id one. *)
Lemma merge_padding out b k :
  merged = Ok out -> (b < B)%nat -> (k < M)%nat ->
  (forall j, (b, j) ∈ idx -> Z.to_nat (dest_at (b, j)) <> k) ->
  lookup2 tsm b k = Some false ->
  lookup2 (final_attention_mask out) b k = Some 0 /\
  lookup2 (final_embedding out) b k = Some zeroE /\
  lookup2 (fused_position_ids out) b k = Some 1.
Proof.
  intros (emb2 & Hs & Hkeep & ->)%merge_Ok_inv Hb Hk Hmiss Ht. simpl.
  pose proof (fused_mask_padding b k Hb Hk Hmiss Ht) as Hm.
  split; [done|]. split.
  - destruct (lookup2_puts_const emb2 (wr pads (fun _ => zeroE)) zeroE b k)
      as [Hsame|Hzero]; [|by rewrite Hsame, (Hkeep b k Ht), text_tensor_miss|done].
    intros u Hu. unfold writes in Hu.
    by apply list_elem_of_fmap in Hu as (bj & -> & _).
  - apply lookup2_Some in Hm as (row & Hrow & Hm0).
    unfold lookup2. rewrite list_lookup_fmap, Hrow. simpl.
    by rewrite (lookup_position_row row k 0 Hm0).
Qed.

(** Every time-series slot is attended. *)
Lemma merge_slot_attended out b k :
  merged = Ok out -> lookup2 tsm b k = Some true ->
  lookup2 (final_attention_mask out) b k = Some 1.
Proof.
  intros (emb2 & _ & _ & ->)%merge_Ok_inv Ht. simpl.
  by apply fused_mask_slot.
Qed.

(** The fused embeddings read at the time-series slots, in row-major order,
    are the features. *)
Lemma merge_features_read_back out :
  pad_token_id <> time_series_token_index ->
  merged = Ok out ->
  masked_select (final_embedding out) tsm = Ok (flat tsf).
Proof.
  intros Hpad (emb2 & Ha & Hs & ->)%merge_Ok_assign. simpl.
  rewrite <- (masked_select_assign _ _ _ _ Ha).
  apply (masked_select_ext B M); [by apply puts_shaped|done|].
  intros b k Ht. apply lookup2_writes_miss.
  intros j Hin. apply (slot_is_no_destination b k Ht).
  apply elem_of_pads in Hin. apply elem_of_non_time_series.
  exists pad_token_id. done.
Qed.

(** The free columns of a row, read through [lookup]. *)
Lemma lookup2_slot_mask b k row frow :
  input_ids !! b = Some row ->
  puts (full B M true) (wr idx (fun _ => false)) !! b = Some frow ->
  lookup2 tsm b k =
  skip_pad (med - 1 - (running_sum time_series_token_index P row
                                   (length row - 1) - 1)) frow !! k.
Proof.
  intros Hrow Hfrow. unfold lookup2, slot_mask. rewrite batch_size_B.
  by rewrite lookup_zip_with, list_lookup_fmap, Hrow, Hfrow.
Qed.

Lemma free_lookup b k :
  (b < B)%nat -> (k < M)%nat ->
  (forall j, (b, j) ∈ idx -> Z.to_nat (dest_at (b, j)) <> k) ->
  lookup2 (puts (full B M true) (wr idx (fun _ => false))) b k = Some true.
Proof.
  intros Hb Hk Hmiss. rewrite lookup2_writes_miss by done.
  rewrite lookup2_full. by rewrite decide_True.
Qed.

(** In a batch treated as left-padded, the columns before the offset of a
    row are no destinations and no slots. *)
Lemma left_padding_columns b row k :
  lp = true -> input_ids !! b = Some row ->
  Z.of_nat k < med - row_fused_length time_series_token_index P row ->
  (forall j, (b, j) ∈ idx -> Z.to_nat (dest_at (b, j)) <> k) /\
  lookup2 tsm b k = Some false.
Proof.
  intros Hlp Hrow Hk.
  assert (Hel : row ∈ input_ids) by (by eapply list_elem_of_lookup_2).
  assert (Hb : (b < B)%nat).
  { destruct ids_shaped as [<- _]. by eapply lookup_lt_Some. }
  pose proof (med_bound row Hel) as Hmb. pose proof med_pos as Hmp.
  pose proof (sum_slots_ge time_series_token_index P patches row) as Hge.
  rewrite sum_slots_placeholders in Hmb, Hge.
  assert (HkM : (k < M)%nat) by lia.
  assert (Hdest : forall i j, (i <= k)%nat -> (b, j) ∈ idx ->
                              Z.to_nat (dest_at (b, j)) <> i).
  { intros i j Hi Hin Heq.
    destruct (valid_row idx _ valid_non_time_series Hin)
      as (row' & Hrow' & _ & Hj). simpl in *.
    rewrite Hrow in Hrow'. injection Hrow' as <-.
    pose proof (dest_at_range idx _ valid_non_time_series Hin) as Hr.
    unfold destination_at, destination in Heq, Hr. simpl in *.
    rewrite Hrow in Heq, Hr. simpl in *. rewrite Hlp in Heq, Hr.
    rewrite running_sum_last, sum_slots_placeholders in Heq, Hr.
    pose proof (running_sum_lower time_series_token_index P patches row j Hj).
    lia. }
  split; [intros j; by apply (Hdest k j)|].
  destruct (lookup_lt_is_Some_2
              (puts (full B M true) (wr idx (fun _ => false))) b)
    as [frow Hfrow].
  { pose proof (puts_shaped B M (full B M true)
                  (wr idx (fun _ => false)) (shaped_full B M true)) as [-> _].
    done. }
  assert (Hfree : forall i, (i <= k)%nat -> frow !! i = Some true).
  { intros i Hi.
    pose proof (free_lookup b i Hb ltac:(lia)
                  (fun j => Hdest i j Hi)) as Hf.
    unfold lookup2 in Hf. by rewrite Hfrow in Hf. }
  rewrite (lookup2_slot_mask b k row frow Hrow Hfrow).
  rewrite (lookup_skip_pad _ frow k true) by (by apply Hfree).
  rewrite sum_take_true by (intros i Hi; apply Hfree; lia).
  rewrite running_sum_last, sum_slots_placeholders. simpl.
  f_equal. apply Z.leb_gt. lia.
Qed.

(** From the offset on, every column is the destination of a text token or
    a time-series slot. *)
Lemma left_padded_content b row k :
  lp = true -> input_ids !! b = Some row -> (k < M)%nat ->
  med - row_fused_length time_series_token_index P row <= Z.of_nat k ->
  (forall j, (b, j) ∈ idx -> Z.to_nat (dest_at (b, j)) <> k) ->
  lookup2 tsm b k = Some true.
Proof.
  intros Hlp Hrow HkM Hk Hmiss.
  assert (Hel : row ∈ input_ids) by (by eapply list_elem_of_lookup_2).
  assert (Hb : (b < B)%nat).
  { destruct ids_shaped as [<- _]. by eapply lookup_lt_Some. }
  pose proof (med_bound row Hel) as Hmb. pose proof med_pos as Hmp.
  pose proof (sum_slots_ge time_series_token_index P patches row) as Hge.
  rewrite sum_slots_placeholders in Hmb, Hge.
  set (s := Z.to_nat (med - row_fused_length time_series_token_index P row)).
  destruct (lookup_lt_is_Some_2
              (puts (full B M true) (wr idx (fun _ => false))) b)
    as [frow Hfrow].
  { pose proof (puts_shaped B M (full B M true)
                  (wr idx (fun _ => false)) (shaped_full B M true)) as [-> _].
    done. }
  assert (Hpre : forall i, (i < s)%nat -> frow !! i = Some true).
  { intros i Hi.
    destruct (left_padding_columns b row i Hlp Hrow ltac:(lia)) as [Hd _].
    pose proof (free_lookup b i Hb ltac:(lia) Hd) as Hf.
    unfold lookup2 in Hf. by rewrite Hfrow in Hf. }
  assert (Hfk : frow !! k = Some true).
  { pose proof (free_lookup b k Hb HkM Hmiss) as Hf.
    unfold lookup2 in Hf. by rewrite Hfrow in Hf. }
  rewrite (lookup2_slot_mask b k row frow Hrow Hfrow).
  rewrite (lookup_skip_pad _ frow k true Hfk).
  pose proof (sum_take_reaches frow s k Hpre ltac:(lia) Hfk) as Hsum.
  rewrite running_sum_last, sum_slots_placeholders. simpl.
  f_equal. apply Z.leb_le. lia.
Qed.

End MergeRun.

(** * The fusion engine: the statements *)

Section MergeTheorems.

Import Torch.

Context {E : Type}.
Variable zeroE : E.
Variable pad_token_id : Z.
Variable time_series_token_index : Z.
Variable ignore_index : Z.

Local Abbreviation merge :=
  (_merge_input_ids_with_time_series_features zeroE pad_token_id
     time_series_token_index ignore_index).

Lemma well_shaped_run (tsf : features E) inputs_embeds input_ids
    attention_mask labels :
  well_shaped tsf inputs_embeds input_ids attention_mask labels ->
  exists lp med,
    left_padding pad_token_id input_ids = Ok lp /\
    max_embed_dim time_series_token_index (num_time_series_patches tsf)
                  input_ids = Ok med.
Proof.
  intros [HB HL Hids Hemb Ham Hlab HP Hflat].
  destruct (left_padding_is_Ok pad_token_id input_ids) as [lp Hlp].
  { eapply rows_nonempty; eauto. }
  destruct (max_embed_dim_Ok time_series_token_index _ HP _ _ input_ids
              Hids HB) as (med & Hmed & _).
  by exists lp, med.
Qed.


(** C2 (as amended). Line 133 returns on every batch of non-empty rows, and
    the batch is treated as left-padded exactly when no row ends in the pad
    id. *)
Theorem left_padding_iff_no_row_ends_in_pad (input_ids : list (list Z)) :
  Forall (fun row => row <> []) input_ids ->
  exists lp,
    left_padding pad_token_id input_ids = Ok lp /\
    (lp = true <->
     Forall (fun row => last row <> Some pad_token_id) input_ids).
Proof.
  intros Hne. destruct (left_padding_is_Ok pad_token_id input_ids Hne)
    as [lp Hlp].
  exists lp. split; [done|]. by apply left_padding_spec.
Qed.

(** C3 (as amended). Without placeholders and without features the merge
    returns the attention mask and the labels it was given, and the
    embeddings it was given except at the pad tokens, whose embeddings are
    zero. *)
Theorem merge_without_placeholders (tsf : features E) inputs_embeds input_ids
    attention_mask labels :
  well_shaped tsf inputs_embeds input_ids attention_mask labels ->
  (forall row, row ∈ input_ids ->
               Forall (fun x => x <> time_series_token_index) row) ->
  (num_time_series tsf * num_time_series_patches tsf = 0)%nat ->
  exists out,
    merge tsf inputs_embeds input_ids attention_mask labels = Ok out /\
    final_attention_mask out = attention_mask /\
    final_labels out = labels /\
    final_embedding out =
      zip_with (zip_with (fun x e => if x =? pad_token_id then zeroE else e))
               input_ids inputs_embeds.
Proof.
  intros ws Hnone Hempty.
  destruct (well_shaped_run _ _ _ _ _ ws) as (lp & med & Hlp & Hmed).
  destruct ws as [HB HL Hids Hemb Ham Hlab HP Hflat].
  eapply (merge_no_placeholders pad_token_id time_series_token_index _ HP
            input_ids _ _ Hids HB HL lp med Hlp Hmed); eauto.
Qed.

(** C4 (as amended). The destination column of every token is the running
    sum of [slots] up to its column minus one, moved right in a left-padded
    batch by the fused length minus one minus the last destination of its
    row. The mask bit and the label of every token that is no placeholder
    sit unchanged at its destination; so does its embedding, unless the
    token is the pad id, whose destination holds the zero vector. *)
Theorem text_is_copied_to_its_destination (tsf : features E) inputs_embeds
    input_ids attention_mask labels out :
  well_shaped tsf inputs_embeds input_ids attention_mask labels ->
  merge tsf inputs_embeds input_ids attention_mask labels = Ok out ->
  exists lp med pos,
    left_padding pad_token_id input_ids = Ok lp /\
    max_embed_dim time_series_token_index (num_time_series_patches tsf)
                  input_ids = Ok med /\
    new_token_positions pad_token_id time_series_token_index
                        (num_time_series_patches tsf) input_ids = Ok pos /\
    forall b j row x,
      input_ids !! b = Some row -> row !! j = Some x ->
      let d := destination time_series_token_index
                           (num_time_series_patches tsf) lp med row j in
      lookup2 pos b j = Some d /\
      (x <> time_series_token_index ->
       0 <= d < med /\
       lookup2 (final_attention_mask out) b (Z.to_nat d) =
         lookup2 attention_mask b j /\
       (forall lab, labels = Some lab ->
          exists fl, final_labels out = Some fl /\
                     lookup2 fl b (Z.to_nat d) = lookup2 lab b j) /\
       lookup2 (final_embedding out) b (Z.to_nat d) =
         if x =? pad_token_id then Some zeroE else lookup2 inputs_embeds b j).
Proof.
  intros ws Hout.
  destruct (well_shaped_run _ _ _ _ _ ws) as (lp & med & Hlp & Hmed).
  destruct ws as [HB HL Hids Hemb Ham Hlab HP Hflat].
  assert (Hne : Forall (fun row => row <> []) input_ids)
    by (eapply rows_nonempty; eauto).
  destruct (new_token_positions_Ok pad_token_id time_series_token_index _ HP
              input_ids lp med Hlp Hmed Hne) as (pos & Hpos & Hlk).
  exists lp, med, pos. split; [done|]. split; [done|]. split; [done|].
  intros b j row x Hrow Hx d. split.
  - apply Hlk; [done|]. by eapply lookup_lt_Some.
  - intros Hts.
    assert (Hl2 : lookup2 input_ids b j = Some x)
      by (apply lookup2_Some; eauto).
    pose proof (merge_text pad_token_id time_series_token_index _ HP
                  input_ids _ _ Hids HB HL lp med Hlp Hmed zeroE ignore_index
                  tsf inputs_embeds attention_mask labels eq_refl Hemb Ham
                  Hlab Hflat out b j x Hout Hl2 Hts) as Ht.
    unfold destination_at in Ht. simpl in Ht. rewrite Hrow in Ht. exact Ht.
Qed.


(** C8. With a mask of zeros and ones, the fused position id is one where
    the fused mask is zero, and elsewhere the number of nonzero mask entries
    up to and including the position, minus one. *)
Theorem position_ids_count_attended (tsf : features E) inputs_embeds
    input_ids attention_mask labels out :
  well_shaped tsf inputs_embeds input_ids attention_mask labels ->
  is_mask attention_mask ->
  merge tsf inputs_embeds input_ids attention_mask labels = Ok out ->
  forall b row k m,
    final_attention_mask out !! b = Some row -> row !! k = Some m ->
    lookup2 (fused_position_ids out) b k =
    Some (if m =? 0 then 1 else count_nonzero (take (S k) row) - 1).
Proof.
  intros ws Hmask Hout b row k m Hrow Hm.
  destruct (well_shaped_run _ _ _ _ _ ws) as (lp & med & Hlp & Hmed).
  destruct ws as [HB HL Hids Hemb Ham Hlab HP Hflat].
  eapply (merge_position_ids pad_token_id time_series_token_index _ HP
            input_ids _ _ Hids HB HL lp med Hlp Hmed zeroE ignore_index
            tsf inputs_embeds attention_mask labels eq_refl Hemb Ham
            Hlab Hflat); eauto.
Qed.

(** C10. Without labels the merge returns none. With labels, every fused
    position that is not the destination of a token other than a
    placeholder, a time-series slot or a padding slot, holds the ignore
    index. *)
Theorem labels_ignored_away_from_text (tsf : features E) inputs_embeds
    input_ids attention_mask labels out :
  well_shaped tsf inputs_embeds input_ids attention_mask labels ->
  merge tsf inputs_embeds input_ids attention_mask labels = Ok out ->
  (labels = None -> final_labels out = None) /\
  (forall lab, labels = Some lab ->
     exists lp med fl,
       left_padding pad_token_id input_ids = Ok lp /\
       max_embed_dim time_series_token_index (num_time_series_patches tsf)
                     input_ids = Ok med /\
       final_labels out = Some fl /\
       shaped (batch_size input_ids) (Z.to_nat med) fl /\
       forall b k, (b < batch_size input_ids)%nat -> (k < Z.to_nat med)%nat ->
         (forall j row x,
            input_ids !! b = Some row -> row !! j = Some x ->
            x <> time_series_token_index ->
            Z.to_nat (destination time_series_token_index
                        (num_time_series_patches tsf) lp med row j) <> k) ->
         lookup2 fl b k = Some ignore_index).
Proof.
  intros ws Hout.
  destruct (well_shaped_run _ _ _ _ _ ws) as (lp & med & Hlp & Hmed).
  destruct ws as [HB HL Hids Hemb Ham Hlab HP Hflat].
  destruct (merge_labels pad_token_id time_series_token_index _ HP
              input_ids _ _ Hids HB HL lp med Hlp Hmed zeroE ignore_index
              tsf inputs_embeds attention_mask labels eq_refl Hemb Ham
              Hlab Hflat out Hout) as [Hnone Hsome].
  split; [done|]. intros lab Hl.
  destruct (Hsome lab Hl) as (fl & Hfl & Hsh & Hign).
  exists lp, med, fl. split; [done|]. split; [done|]. split; [done|].
  split; [done|]. intros b k Hb Hk Hmiss. apply Hign; [done|done|].
  intros j x (row & Hrow & Hx)%lookup2_Some Hne.
  unfold destination_at. simpl. rewrite Hrow. simpl. by eapply Hmiss.
Qed.

End MergeTheorems.

(** * The feature projector: the statements *)

Section ProjectorTheorems.

Import Torch.

Context {F V H : Type}.
Variable scale : V -> F -> V.
Variable vadd : V -> V -> V.
Variable fsub : F -> F -> F.
Variables f0 f1 : F.
Variable vzero : V.
Variable mask_embedding : V.
Variable linear_1 : V -> H.
Variable act : H -> H.
Variable linear_2 : H -> H.

(** Exact arithmetic: what the products and sums of line 48 satisfy when
    no value is infinite or undefined. *)
Hypothesis scale_zero : forall x, scale x f0 = vzero.
Hypothesis scale_one : forall x, scale x f1 = x.
Hypothesis fsub_zero : fsub f1 f0 = f1.
Hypothesis vadd_zero : forall x, vadd vzero x = x.

Local Abbreviation project :=
  (projector_forward scale vadd fsub f1 mask_embedding linear_1 act linear_2).

(** C6 (as amended). At each patch the projector returns the two-layer
    transform of [validity * raw_feature + (1 - validity) * fallback], the
    raw feature entering the blend as it is; this is the specified formula
    with the identity for its linear transform. In exact arithmetic a patch
    of validity zero yields the transform of the fallback vector alone. *)
Theorem projector_blends_raw_features (time_series_features : list (list V))
    (input_mask : list (list F)) i p x v :
  lookup2 time_series_features i p = Some x ->
  lookup2 input_mask i p = Some v ->
  lookup2 (project time_series_features input_mask) i p =
    Some (linear_2 (act (linear_1
            (vadd (scale x v) (scale mask_embedding (fsub f1 v)))))) /\
  project time_series_features input_mask =
    projector_as_specified scale vadd fsub f1 mask_embedding linear_1 act
      linear_2 (fun raw => raw) time_series_features input_mask /\
  (v = f0 ->
   lookup2 (project time_series_features input_mask) i p =
     Some (linear_2 (act (linear_1 mask_embedding)))).
Proof.
  intros Hx Hv.
  assert (Hl : lookup2 (project time_series_features input_mask) i p =
               Some (linear_2 (act (linear_1
                 (vadd (scale x v) (scale mask_embedding (fsub f1 v))))))).
  { unfold projector_forward. rewrite lookup2_zip_with2, Hx, Hv. done. }
  split; [done|]. split; [done|].
  intros ->. rewrite Hl.
  by rewrite scale_zero, fsub_zero, scale_one, vadd_zero.
Qed.

End ProjectorTheorems.

(** * The inputs of the language model: the statements *)

Section ForwardTheorems.

Import Torch.

Context {E K TSV TSM : Type}.
Variable zeroE : E.
Variable pad_token_id : Z.
Variable time_series_token_index : Z.
Variable ignore_index : Z.
Variable get_input_embeddings : Z -> E.
Variable time_series_features_of : TSV -> option TSM -> features E.
Variable kadd : K -> K -> K.
Variable k0 : K.
Variable k_is_zero : K -> bool.

Local Abbreviation fwd :=
  (forward zeroE pad_token_id time_series_token_index ignore_index
           get_input_embeddings time_series_features_of kadd k0 k_is_zero).
Local Abbreviation extend := (extended_attention_mask kadd k0 k_is_zero).

Lemma zero_slots_shaped kv zs :
  zero_slots kadd k0 k_is_zero kv = Ok zs ->
  shaped (kv_batch kv) (kv_length kv) zs.
Proof.
  unfold zero_slots. destruct (kv_head_dim kv =? 0)%nat; [done|].
  intros [= <-]. split.
  - by rewrite length_fmap, length_seq.
  - apply Forall_fmap, Forall_forall. intros b _. simpl.
    by rewrite length_fmap, length_seq.
Qed.

Lemma suffix_Forall {A : Type} (Q : A -> Prop) n (row : list A) :
  Forall Q row -> Forall Q (suffix n row).
Proof. intros Hrow. unfold suffix. by apply Forall_drop. Qed.

(** The extended mask exists and holds zeros and ones. *)
Lemma extended_attention_mask_Ok kv (attention_mask : list (list Z)) n :
  (0 < kv_head_dim kv)%nat ->
  (kv_batch kv <= length attention_mask)%nat ->
  is_mask attention_mask ->
  exists ext, extend kv attention_mask n = Ok ext /\ is_mask ext.
Proof.
  intros Hd Hb Hmask. unfold extended_attention_mask.
  destruct (zero_slots kadd k0 k_is_zero kv) as [zs|e] eqn:Hzs.
  2: { unfold zero_slots in Hzs.
       destruct (Nat.eqb_spec (kv_head_dim kv) 0); [lia|done]. }
  simpl. apply zero_slots_shaped in Hzs.
  erewrite (index_put2_puts (length attention_mask) (kv_length kv)).
  - simpl. eexists. split; [done|].
    apply Forall_lookup_2. intros b row Hrow.
    apply lookup_zip_with_Some in Hrow as (r1 & r2 & Heq & Hr & Ham).
    subst row. apply Forall_app. split.
    + revert Hr. apply Forall_lookup_1. apply puts_Forall.
      * unfold full. apply Forall_replicate, Forall_replicate. by right.
      * apply Forall_fmap, Forall_forall. intros bt _. simpl. by left.
    + apply suffix_Forall. by apply (Forall_lookup_1 _ _ _ _ Hmask Ham).
  - apply shaped_full.
  - apply Forall_fmap, Forall_forall. intros [b t] Hin. simpl.
    apply list_elem_of_filter in Hin as [_ Hin].
    apply elem_of_where2 in Hin.
    destruct (lookup2_lt _ _ _ _ _ _ Hzs Hin) as [Hlb Hlt]. lia.
Qed.

Lemma lookup2_zero_slots kv zs b t :
  zero_slots kadd k0 k_is_zero kv = Ok zs ->
  (b < kv_batch kv)%nat -> (t < kv_length kv)%nat ->
  lookup2 zs b t = Some (k_is_zero (summed_key kadd k0 kv b t)).
Proof.
  unfold zero_slots. destruct (kv_head_dim kv =? 0)%nat; [done|].
  intros [= <-] Hb Ht. unfold lookup2.
  rewrite list_lookup_fmap, lookup_seq_lt by done. simpl.
  rewrite list_lookup_fmap, lookup_seq_lt by done. done.
Qed.

(** The extended attention mask row by row: one entry per cache slot, zero
    exactly at the zero-sum slots of the rows of the cache, then the last
    entries of the row of the mask given. *)
Lemma extended_attention_mask_rows kv (attention_mask : list (list Z)) n :
  (0 < kv_head_dim kv)%nat ->
  (kv_batch kv <= length attention_mask)%nat ->
  exists ext,
    extend kv attention_mask n = Ok ext /\
    length ext = length attention_mask /\
    forall b row, attention_mask !! b = Some row ->
      exists cache_row,
        ext !! b = Some (cache_row ++ suffix n row) /\
        length cache_row = kv_length kv /\
        forall t, (t < kv_length kv)%nat ->
          cache_row !! t =
          Some (if bool_decide (b < kv_batch kv)%nat &&
                   k_is_zero (summed_key kadd k0 kv b t)
                then 0 else 1).
Proof.
  intros Hd Hb. unfold extended_attention_mask.
  destruct (zero_slots kadd k0 k_is_zero kv) as [zs|e] eqn:Hzs.
  2: { unfold zero_slots in Hzs.
       destruct (Nat.eqb_spec (kv_head_dim kv) 0); [lia|done]. }
  simpl. pose proof (zero_slots_shaped kv zs Hzs) as Hsh.
  set (upd := (fun bt : nat * nat => (bt.1, Z.of_nat bt.2, 0)) <$>
              filter (fun bt : nat * nat =>
                        Z.of_nat bt.2 < Z.of_nat (kv_length kv))
                     (where2 zs)).
  assert (Hin : forall u, u ∈ upd ->
            u.2 = 0 /\ 0 <= u.1.2 /\
            lookup2 zs u.1.1 (Z.to_nat u.1.2) = Some true).
  { intros u Hu. apply list_elem_of_fmap in Hu as ([b t] & -> & Hbt).
    apply list_elem_of_filter in Hbt as [_ Hbt].
    apply elem_of_where2 in Hbt. simpl. rewrite Nat2Z.id.
    split; [done|]. split; [lia|done]. }
  assert (Hshape : shaped (length attention_mask) (kv_length kv)
                          (full (length attention_mask) (kv_length kv) 1))
    by apply shaped_full.
  rewrite (index_put2_puts (length attention_mask) (kv_length kv) _ upd
             Hshape).
  2: { apply Forall_forall. intros u Hu. destruct (Hin u Hu) as (_ & H0 & Hl).
       destruct (lookup2_lt _ _ _ _ _ _ Hsh Hl). lia. }
  simpl. eexists. split; [done|].
  pose proof (puts_shaped _ _ _ upd Hshape) as [Hpl Hpr].
  split; [rewrite length_zip_with; lia|].
  intros b row Hrow.
  destruct (lookup_lt_is_Some_2
              (puts (full (length attention_mask) (kv_length kv) 1) upd) b)
    as [crow Hcrow].
  { apply lookup_lt_Some in Hrow. lia. }
  exists crow. split; [by rewrite lookup_zip_with, Hcrow, Hrow|].
  split; [by apply (Forall_lookup_1 _ _ _ _ Hpr Hcrow)|].
  intros t Ht.
  assert (Hbl : (b < length attention_mask)%nat) by (by eapply lookup_lt_Some).
  assert (Hc2 : crow !! t =
                lookup2 (puts (full (length attention_mask) (kv_length kv) 1)
                              upd) b t).
  { unfold lookup2. by rewrite Hcrow. }
  rewrite Hc2.
  destruct (bool_decide (b < kv_batch kv)%nat &&
            k_is_zero (summed_key kadd k0 kv b t)) eqn:Hcase.
  - apply andb_true_iff in Hcase as [Hbk Hz].
    apply bool_decide_eq_true in Hbk.
    rewrite <- (Nat2Z.id t) at 1.
    apply (lookup2_puts_written (length attention_mask) (kv_length kv));
      [done| |done|lia|].
    + unfold upd. apply list_elem_of_fmap. exists (b, t). split; [done|].
      apply list_elem_of_filter. split; [simpl; lia|].
      apply elem_of_where2. by rewrite (lookup2_zero_slots kv zs b t), Hz.
    + intros u Hu _ _. by destruct (Hin u Hu).
  - rewrite lookup2_puts_other.
    + rewrite lookup2_full. by rewrite decide_True.
    + intros u Hu [Hub Hut]. destruct (Hin u Hu) as (_ & _ & Hl).
      rewrite Hub, Hut in Hl.
      destruct (lookup2_lt _ _ _ _ _ _ Hsh Hl) as [Hlb _].
      rewrite (lookup2_zero_slots kv zs b t Hzs Hlb Ht) in Hl.
      injection Hl as Hz. rewrite Hz, andb_true_r in Hcase.
      apply bool_decide_eq_false in Hcase. done.
Qed.

Lemma count_nonzero_app (l k : list Z) :
  count_nonzero (l ++ k) = count_nonzero l + count_nonzero k.
Proof. unfold count_nonzero. by rewrite fmap_app, sum_app. Qed.

(** C7. In a decode step (ids given, one column, time-series values and a
    cache present) with masks of zeros and ones, the position id handed to
    the language model is, row by row, the number of nonzero entries of the
    extended attention mask minus one; the extended attention mask of a row
    is one entry per cache slot, zero exactly where the row is a row of the
    cache and the keys of the slot add up to zero over the heads and one
    elsewhere, followed by the last entry of the row of the mask given. *)
Theorem decode_step_position_id (input_ids : list (list Z)) tsv tsm
    (attention_mask : list (list Z)) pid kv labels :
  sequence_length input_ids = 1%nat ->
  (0 < kv_head_dim kv)%nat ->
  (kv_batch kv <= length attention_mask)%nat ->
  is_mask attention_mask ->
  exists ext,
    extend kv attention_mask 1 = Ok ext /\
    fwd (Some input_ids) (Some tsv) tsm (Some attention_mask) pid (Some kv)
        None labels =
    Ok (LmInputs (Some ext)
                 (Some ((fun row => [count_nonzero row - 1]) <$> ext))
                 (pointwise get_input_embeddings input_ids) labels) /\
    length ext = length attention_mask /\
    forall b row, attention_mask !! b = Some row ->
      exists cache_row,
        ext !! b = Some (cache_row ++ suffix 1 row) /\
        length cache_row = kv_length kv /\
        (forall t, (t < kv_length kv)%nat ->
           cache_row !! t =
           Some (if bool_decide (b < kv_batch kv)%nat &&
                    k_is_zero (summed_key kadd k0 kv b t)
                 then 0 else 1)) /\
        ((fun row => [count_nonzero row - 1]) <$> ext) !! b =
        Some [count_nonzero cache_row + count_nonzero (suffix 1 row) - 1].
Proof.
  intros Hlen Hd Hb Hmask.
  destruct (extended_attention_mask_Ok kv attention_mask 1 Hd Hb Hmask)
    as (ext & Hext & Hm).
  destruct (extended_attention_mask_rows kv attention_mask 1 Hd Hb)
    as (ext' & Hext' & Hlength & Hrows).
  rewrite Hext in Hext'. injection Hext' as <-.
  exists ext. split; [done|]. split; [|split; [done|]].
  - unfold forward. simpl. rewrite Hlen. simpl. rewrite Hext. simpl.
    do 3 f_equal. apply list_fmap_ext. intros b row Hrow. simpl.
    rewrite sum_count_nonzero; [done|].
    by apply (Forall_lookup_1 _ _ _ _ Hm Hrow).
  - intros b row Hrow.
    destruct (Hrows b row Hrow) as (cache_row & Hb' & Hcl & Hentries).
    exists cache_row. split; [done|]. split; [done|]. split; [done|].
    by rewrite list_lookup_fmap, Hb', <- count_nonzero_app.
Qed.

(** C9. When [inputs_embeds] is given, [forward] hands it to the language
    model together with the attention mask and the position ids it
    received, whatever the collaborators are, and the time-series values
    and their mask have no influence on what is handed over. *)
Theorem forward_with_inputs_embeds (input_ids : option (list (list Z)))
    tsv tsm attention_mask pid past (e : list (list E)) labels :
  fwd input_ids tsv tsm attention_mask pid past (Some e) labels =
    Ok (LmInputs attention_mask pid e labels) /\
  forall tsv' tsm',
    fwd input_ids tsv' tsm' attention_mask pid past (Some e) labels =
    fwd input_ids tsv tsm attention_mask pid past (Some e) labels.
Proof. split; [done|]. by intros tsv' tsm'. Qed.

End ForwardTheorems.

(** * The fusion engine: further properties *)

Section MergeProperties.

Import Torch.

Context {E : Type}.
Variable zeroE : E.
Variable pad_token_id : Z.
Variable time_series_token_index : Z.
Variable ignore_index : Z.

Local Abbreviation merge :=
  (_merge_input_ids_with_time_series_features zeroE pad_token_id
     time_series_token_index ignore_index).

(** What the steps of the merge compute on well-shaped inputs. *)
Lemma well_shaped_steps (tsf : features E) inputs_embeds input_ids
    attention_mask labels :
  well_shaped tsf inputs_embeds input_ids attention_mask labels ->
  let P := num_time_series_patches tsf in
  exists lp med pos,
    left_padding pad_token_id input_ids = Ok lp /\
    max_embed_dim time_series_token_index P input_ids = Ok med /\
    new_token_positions pad_token_id time_series_token_index P input_ids =
      Ok pos /\
    time_series_to_overwrite pad_token_id time_series_token_index P input_ids
      = Ok (slot_mask time_series_token_index P lp med input_ids) /\
    0 < med /\
    forall b j row, input_ids !! b = Some row -> (j < length row)%nat ->
      lookup2 pos b j = Some (destination time_series_token_index P lp med
                                          row j) /\
      0 <= destination time_series_token_index P lp med row j < med.
Proof.
  intros ws P.
  destruct (well_shaped_run pad_token_id time_series_token_index
              _ _ _ _ _ ws) as (lp & med & Hlp & Hmed).
  destruct ws as [HB HL Hids Hemb Ham Hlab HP Hflat].
  assert (Hne : Forall (fun row => row <> []) input_ids)
    by (eapply rows_nonempty; eauto).
  destruct (new_token_positions_Ok pad_token_id time_series_token_index _ HP
              input_ids lp med Hlp Hmed Hne) as (pos & Hpos & Hlk).
  exists lp, med, pos. split; [done|]. split; [done|]. split; [done|].
  split.
  { apply (time_series_to_overwrite_Ok pad_token_id time_series_token_index
             _ HP input_ids _ _ Hids HB HL lp med Hlp Hmed). }
  split.
  { apply (med_pos time_series_token_index _ HP input_ids _ _ Hids HB HL
             med Hmed). }
  intros b j row Hrow Hj. split; [by apply Hlk|].
  apply destination_range; [done|done|].
  apply (med_bound time_series_token_index _ HP input_ids _ _ Hids HB
           med Hmed). by eapply list_elem_of_lookup_2.
Qed.

(** A column that [new_token_positions] gives to no token other than a
    placeholder is, in the terms of the lemmas above, no destination. *)
Lemma no_destination_bridge lp med (pos : list (list Z)) input_ids b k P :
  (forall b j row, input_ids !! b = Some row -> (j < length row)%nat ->
     lookup2 pos b j = Some (destination time_series_token_index P lp med
                                         row j) /\
     0 <= destination time_series_token_index P lp med row j < med) ->
  (forall j x, lookup2 input_ids b j = Some x ->
               x <> time_series_token_index ->
               lookup2 pos b j <> Some (Z.of_nat k)) ->
  forall j, (b, j) ∈ non_time_series time_series_token_index input_ids ->
    Z.to_nat (destination_at time_series_token_index P lp med input_ids
                             (b, j)) <> k.
Proof.
  intros Hpos Hmiss j Hin Heq.
  apply elem_of_non_time_series in Hin as (x & Hx & Hne).
  apply (Hmiss j x Hx Hne).
  apply lookup2_Some in Hx as (row & Hrow & Hx).
  apply lookup_lt_Some in Hx.
  destruct (Hpos b j row Hrow Hx) as [-> Hr].
  unfold destination_at in Heq. simpl in Heq. rewrite Hrow in Heq.
  simpl in Heq. f_equal. lia.
Qed.

(** X1. Along a row the destinations step by the slots of the next token,
    [num_time_series_patches] for a placeholder and one for any other
    token, so that they keep the order of the tokens. *)
Theorem destinations_step_by_slots (tsf : features E) inputs_embeds input_ids
    attention_mask labels pos b row :
  well_shaped tsf inputs_embeds input_ids attention_mask labels ->
  new_token_positions pad_token_id time_series_token_index
    (num_time_series_patches tsf) input_ids = Ok pos ->
  input_ids !! b = Some row ->
  (forall j x, row !! S j = Some x ->
     exists d, lookup2 pos b j = Some d /\
       lookup2 pos b (S j) =
       Some (d + if x =? time_series_token_index
                 then Z.of_nat (num_time_series_patches tsf) else 1)) /\
  (forall j j', (j < j')%nat -> (j' < length row)%nat ->
     exists d d', lookup2 pos b j = Some d /\ lookup2 pos b j' = Some d' /\
                  d < d').
Proof.
  intros ws Hpos Hrow.
  destruct (well_shaped_steps _ _ _ _ _ ws)
    as (lp & med & pos' & _ & _ & Hpos' & _ & _ & Hlk).
  rewrite Hpos in Hpos'. injection Hpos' as <-.
  pose proof (ws_patches _ _ _ _ _ ws) as HP.
  split.
  - intros j x Hx. apply lookup_lt_Some in Hx as Hj.
    destruct (Hlk b j row Hrow ltac:(lia)) as [Hd _].
    destruct (Hlk b (S j) row Hrow Hj) as [Hd' _].
    eexists. split; [exact Hd|]. rewrite Hd'. f_equal.
    unfold destination.
    rewrite (running_sum_S time_series_token_index _ HP row j x Hx).
    unfold slots. lia.
  - intros j j' Hlt Hj'.
    destruct (Hlk b j row Hrow ltac:(lia)) as [Hdj _].
    destruct (Hlk b j' row Hrow Hj') as [Hdj' _].
    eexists _, _. split; [exact Hdj|]. split; [exact Hdj'|].
    unfold destination.
    pose proof (running_sum_mono time_series_token_index _ HP row j j'
                  Hlt Hj'). lia.
Qed.

(** X2. Every time-series slot of the fused batch is attended: its mask
    bit is one, whatever the attention mask given. *)
Theorem time_series_slots_are_attended (tsf : features E) inputs_embeds
    input_ids attention_mask labels out slots_mask b k :
  well_shaped tsf inputs_embeds input_ids attention_mask labels ->
  merge tsf inputs_embeds input_ids attention_mask labels = Ok out ->
  time_series_to_overwrite pad_token_id time_series_token_index
    (num_time_series_patches tsf) input_ids = Ok slots_mask ->
  lookup2 slots_mask b k = Some true ->
  lookup2 (final_attention_mask out) b k = Some 1.
Proof.
  intros ws Hout Hts Hslot.
  destruct (well_shaped_steps _ _ _ _ _ ws)
    as (lp & med & pos & Hlp & Hmed & _ & Hts' & _ & _).
  rewrite Hts in Hts'. injection Hts' as ->.
  destruct ws as [HB HL Hids Hemb Ham Hlab HP Hflat].
  exact (merge_slot_attended pad_token_id time_series_token_index _ HP
           input_ids _ _ Hids HB HL lp med Hlp Hmed zeroE ignore_index tsf
           inputs_embeds attention_mask labels eq_refl Hemb Ham Hlab Hflat
           out b k Hout Hslot).
Qed.

(** X3. A fused column that is neither a time-series slot nor the
    destination of a token other than a placeholder is blank: mask bit
    zero, zero embedding, position id one. *)
Theorem fused_padding_is_blank (tsf : features E) inputs_embeds input_ids
    attention_mask labels out pos slots_mask b k :
  well_shaped tsf inputs_embeds input_ids attention_mask labels ->
  merge tsf inputs_embeds input_ids attention_mask labels = Ok out ->
  new_token_positions pad_token_id time_series_token_index
    (num_time_series_patches tsf) input_ids = Ok pos ->
  time_series_to_overwrite pad_token_id time_series_token_index
    (num_time_series_patches tsf) input_ids = Ok slots_mask ->
  lookup2 slots_mask b k = Some false ->
  (forall j x, lookup2 input_ids b j = Some x ->
               x <> time_series_token_index ->
               lookup2 pos b j <> Some (Z.of_nat k)) ->
  lookup2 (final_attention_mask out) b k = Some 0 /\
  lookup2 (final_embedding out) b k = Some zeroE /\
  lookup2 (fused_position_ids out) b k = Some 1.
Proof.
  intros ws Hout Hpos Hts Hslot Hmiss.
  destruct (well_shaped_steps _ _ _ _ _ ws)
    as (lp & med & pos' & Hlp & Hmed & Hpos' & Hts' & _ & Hlk).
  rewrite Hts in Hts'. injection Hts' as ->.
  rewrite Hpos in Hpos'. injection Hpos' as <-.
  destruct ws as [HB HL Hids Hemb Ham Hlab HP Hflat].
  destruct (lookup2_lt _ _ _ _ _ _
              (slot_mask_shaped time_series_token_index _ HP input_ids _ _
                 Hids HB HL lp med) Hslot) as [Hb Hk].
  exact (merge_padding pad_token_id time_series_token_index _ HP
           input_ids _ _ Hids HB HL lp med Hlp Hmed zeroE ignore_index tsf
           inputs_embeds attention_mask labels eq_refl Hemb Ham Hlab Hflat
           out b k Hout Hb Hk
           (no_destination_bridge lp med pos input_ids b k _ Hlk Hmiss)
           Hslot).
Qed.

(** X4. When the pad id is not the placeholder id, the fused embeddings
    read at the time-series slots in row-major order are exactly the
    feature vectors, in their order. *)
Theorem features_are_read_back (tsf : features E) inputs_embeds input_ids
    attention_mask labels out slots_mask :
  well_shaped tsf inputs_embeds input_ids attention_mask labels ->
  pad_token_id <> time_series_token_index ->
  merge tsf inputs_embeds input_ids attention_mask labels = Ok out ->
  time_series_to_overwrite pad_token_id time_series_token_index
    (num_time_series_patches tsf) input_ids = Ok slots_mask ->
  masked_select (final_embedding out) slots_mask = Ok (flat tsf).
Proof.
  intros ws Hpad Hout Hts.
  destruct (well_shaped_steps _ _ _ _ _ ws)
    as (lp & med & pos & Hlp & Hmed & _ & Hts' & _ & _).
  rewrite Hts in Hts'. injection Hts' as ->.
  destruct ws as [HB HL Hids Hemb Ham Hlab HP Hflat].
  exact (merge_features_read_back pad_token_id time_series_token_index _ HP
           input_ids _ _ Hids HB HL lp med Hlp Hmed zeroE ignore_index tsf
           inputs_embeds attention_mask labels eq_refl Hemb Ham Hlab Hflat
           out Hpad Hout).
Qed.

(** X5. In a batch treated as left-padded every row is moved right by what
    it lacks to reach the fused length: the columns before that offset are
    no slots and no destinations, and blank in what the merge returns; from
    the offset on, the time-series slots are exactly the columns that are
    the destination of no token other than a placeholder. *)
Theorem left_padded_rows_are_right_aligned (tsf : features E) inputs_embeds
    input_ids attention_mask labels med pos slots_mask b row k :
  well_shaped tsf inputs_embeds input_ids attention_mask labels ->
  left_padding pad_token_id input_ids = Ok true ->
  max_embed_dim time_series_token_index (num_time_series_patches tsf)
                input_ids = Ok med ->
  new_token_positions pad_token_id time_series_token_index
    (num_time_series_patches tsf) input_ids = Ok pos ->
  time_series_to_overwrite pad_token_id time_series_token_index
    (num_time_series_patches tsf) input_ids = Ok slots_mask ->
  input_ids !! b = Some row -> (k < Z.to_nat med)%nat ->
  let offset :=
    med - row_fused_length time_series_token_index
                           (num_time_series_patches tsf) row in
  let free :=
    forall j x, lookup2 input_ids b j = Some x ->
                x <> time_series_token_index ->
                lookup2 pos b j <> Some (Z.of_nat k) in
  0 <= offset /\
  (Z.of_nat k < offset ->
   free /\ lookup2 slots_mask b k = Some false /\
   forall out,
     merge tsf inputs_embeds input_ids attention_mask labels = Ok out ->
     lookup2 (final_attention_mask out) b k = Some 0 /\
     lookup2 (final_embedding out) b k = Some zeroE /\
     lookup2 (fused_position_ids out) b k = Some 1) /\
  (offset <= Z.of_nat k -> (lookup2 slots_mask b k = Some true <-> free)).
Proof.
  intros ws Hlp Hmed Hpos Hts Hrow Hk offset free.
  destruct (well_shaped_steps _ _ _ _ _ ws)
    as (lp & med' & pos' & Hlp' & Hmed' & Hpos' & Hts' & _ & Hlk).
  rewrite Hlp in Hlp'. injection Hlp' as <-.
  rewrite Hmed in Hmed'. injection Hmed' as <-.
  rewrite Hts in Hts'. injection Hts' as ->.
  rewrite Hpos in Hpos'. injection Hpos' as <-.
  destruct ws as [HB HL Hids Hemb Ham Hlab HP Hflat].
  assert (Hel : row ∈ input_ids) by (by eapply list_elem_of_lookup_2).
  assert (Hb : (b < batch_size input_ids)%nat) by (by eapply lookup_lt_Some).
  pose proof (med_bound time_series_token_index _ HP input_ids _ _ Hids HB
                med Hmed row Hel) as Hmb.
  rewrite sum_slots_placeholders in Hmb.
  assert (Hto : forall j x, lookup2 input_ids b j = Some x ->
            x <> time_series_token_index ->
            lookup2 pos b j =
            Some (destination_at time_series_token_index
                    (num_time_series_patches tsf) true med input_ids (b, j)) /\
            0 <= destination_at time_series_token_index
                   (num_time_series_patches tsf) true med input_ids (b, j)).
  { intros j x (r & Hr & Hx)%lookup2_Some _. apply lookup_lt_Some in Hx.
    destruct (Hlk b j r Hr Hx) as [Hd Hrange].
    unfold destination_at. simpl. rewrite Hr. simpl. split; [done|lia]. }
  assert (Hfree : (forall j,
            (b, j) ∈ non_time_series time_series_token_index input_ids ->
            Z.to_nat (destination_at time_series_token_index
                        (num_time_series_patches tsf) true med input_ids
                        (b, j)) <> k) -> free).
  { intros Hd j x Hx Hne Heq. apply (Hd j).
    - apply elem_of_non_time_series. eauto.
    - destruct (Hto j x Hx Hne) as [Hp _]. rewrite Hp in Heq.
      injection Heq as ->. lia. }
  split; [unfold offset; lia|]. split.
  - intros Hlt.
    destruct (left_padding_columns time_series_token_index _ HP input_ids
                _ _ Hids HB HL true med Hmed tsf inputs_embeds
                attention_mask labels eq_refl Hemb Ham Hlab Hflat b row k
                eq_refl Hrow Hlt) as [Hd Hfalse].
    split; [by apply Hfree|]. split; [done|].
    intros out Hout.
    exact (merge_padding pad_token_id time_series_token_index _ HP
             input_ids _ _ Hids HB HL true med Hlp Hmed zeroE ignore_index
             tsf inputs_embeds attention_mask labels eq_refl Hemb Ham Hlab
             Hflat out b k Hout Hb Hk Hd Hfalse).
  - intros Hge. split.
    + intros Htrue. apply Hfree. intros j Hin Heq.
      pose proof (slot_mask_text time_series_token_index _ HP input_ids
                    _ _ Hids HB HL true med Hmed b j Hin) as Hf.
      rewrite Heq, Htrue in Hf. done.
    + intros Hfr.
      apply (left_padded_content time_series_token_index _ HP input_ids
               _ _ Hids HB HL true med Hmed tsf inputs_embeds
               attention_mask labels eq_refl Hemb Ham Hlab Hflat b row k
               eq_refl Hrow Hk Hge).
      exact (no_destination_bridge true med pos input_ids b k _ Hlk Hfr).
Qed.

End MergeProperties.

(** X6. A model built without a pad id reads pad id -1; token ids are not
    negative, so every batch is then treated as left-padded and the merge
    copies the embedding of every token other than a placeholder unchanged
    to its destination. *)
Theorem no_pad_token_configured {E : Type} (zeroE : E)
    (time_series_token_index ignore_index : Z) (tsf : features E)
    inputs_embeds input_ids attention_mask labels :
  well_shaped tsf inputs_embeds input_ids attention_mask labels ->
  Forall (Forall (fun x => 0 <= x)) input_ids ->
  left_padding (init_pad_token_id None) input_ids = Ok true /\
  forall out med b j row x,
    _merge_input_ids_with_time_series_features zeroE
      (init_pad_token_id None) time_series_token_index ignore_index tsf
      inputs_embeds input_ids attention_mask labels = Ok out ->
    max_embed_dim time_series_token_index (num_time_series_patches tsf)
                  input_ids = Ok med ->
    input_ids !! b = Some row -> row !! j = Some x ->
    x <> time_series_token_index ->
    Torch.lookup2 (final_embedding out) b
      (Z.to_nat (destination time_series_token_index
                   (num_time_series_patches tsf) true med row j)) =
    Torch.lookup2 inputs_embeds b j.
Proof.
  intros ws Hnn.
  destruct (well_shaped_run (init_pad_token_id None) time_series_token_index
              _ _ _ _ _ ws) as (lp & med & Hlp & Hmed).
  assert (Hlast : Forall (fun row => last row <> Some (init_pad_token_id None))
                         input_ids).
  { eapply Forall_impl; [exact Hnn|]. intros row Hrow Hl. simpl in Hl.
    apply last_Some_elem_of in Hl.
    pose proof (proj1 (Forall_forall _ _) Hrow _ Hl) as Hx. simpl in Hx. lia. }
  apply (left_padding_spec _ _ _ Hlp) in Hlast. subst lp.
  split; [done|].
  intros out med' b j row x Hout Hmed' Hrow Hx Hne.
  rewrite Hmed in Hmed'. injection Hmed' as <-.
  destruct ws as [HB HL Hids Hemb Ham Hlab HP Hflat].
  assert (Hl2 : Torch.lookup2 input_ids b j = Some x)
    by (apply lookup2_Some; eauto).
  destruct (merge_text (init_pad_token_id None) time_series_token_index _ HP
              input_ids _ _ Hids HB HL true med Hlp Hmed zeroE ignore_index
              tsf inputs_embeds attention_mask labels eq_refl Hemb Ham
              Hlab Hflat out b j x Hout Hl2 Hne) as (_ & _ & _ & Hemb').
  unfold destination_at in Hemb'. simpl in Hemb'. rewrite Hrow in Hemb'.
  simpl in Hemb'. rewrite Hemb'.
  assert (Hxp : (x =? -1) = false).
  { apply Z.eqb_neq. intros ->.
    pose proof (Forall_lookup_1 _ _ _ _ Hnn Hrow) as Hr. simpl in Hr.
    pose proof (Forall_lookup_1 _ _ _ _ Hr Hx) as H0. simpl in H0. lia. }
  by rewrite Hxp.
Qed.


(** * The inputs of the language model: further properties *)

Section ForwardProperties.

Import Torch.

Context {E K TSV TSM : Type}.
Variable zeroE : E.
Variable pad_token_id : Z.
Variable time_series_token_index : Z.
Variable ignore_index : Z.
Variable get_input_embeddings : Z -> E.
Variable time_series_features_of : TSV -> option TSM -> features E.
Variable kadd : K -> K -> K.
Variable k0 : K.
Variable k_is_zero : K -> bool.

Local Abbreviation fwd :=
  (forward zeroE pad_token_id time_series_token_index ignore_index
           get_input_embeddings time_series_features_of kadd k0 k_is_zero).
Local Abbreviation extend := (extended_attention_mask kadd k0 k_is_zero).
Local Abbreviation merge :=
  (_merge_input_ids_with_time_series_features zeroE pad_token_id
     time_series_token_index ignore_index).

(** X7. A prefill call (ids of more than one column, time-series values
    given, no embeddings given) on well-shaped tensors raises the error of
    the merge exactly when the placeholders of the batch are not as many as
    the time-series instances; otherwise it hands the fused embeddings,
    mask, position ids and labels of the merge to the language model, and
    the position ids it was given are dropped. *)
Theorem prefill_merges_or_rejects (input_ids : list (list Z)) tsv tsm
    (attention_mask : list (list Z)) pid past labels :
  let tsf := time_series_features_of tsv tsm in
  let embeds := pointwise get_input_embeddings input_ids in
  well_shaped tsf embeds input_ids attention_mask labels ->
  sequence_length input_ids <> 1%nat ->
  (fwd (Some input_ids) (Some tsv) tsm (Some attention_mask) pid past None
       labels = Raise ValueError <->
   total_placeholders time_series_token_index input_ids <>
   Z.of_nat (num_time_series tsf)) /\
  (total_placeholders time_series_token_index input_ids =
   Z.of_nat (num_time_series tsf) ->
   exists out,
     merge tsf embeds input_ids attention_mask labels = Ok out /\
     fwd (Some input_ids) (Some tsv) tsm (Some attention_mask) pid past None
         labels =
     Ok (LmInputs (Some (final_attention_mask out))
                  (Some (fused_position_ids out)) (final_embedding out)
                  (final_labels out))).
Proof.
  intros tsf embeds ws Hlen.
  destruct (well_shaped_run pad_token_id time_series_token_index
              _ _ _ _ _ ws) as (lp & med & Hlp & Hmed).
  destruct ws as [HB HL Hids Hemb Ham Hlab HP Hflat].
  destruct (merge_outcome pad_token_id time_series_token_index _ HP input_ids
              _ _ Hids HB HL lp med Hlp Hmed zeroE ignore_index tsf
              embeds attention_mask labels eq_refl Hemb Ham Hlab Hflat)
    as (Hiff & Hret & Honly).
  assert (Hcount :
    count_true (slot_mask time_series_token_index
                  (num_time_series_patches tsf) lp med input_ids) =
    Z.of_nat (num_time_series_patches tsf) *
    total_placeholders time_series_token_index input_ids).
  { unfold total_placeholders. eapply slot_count; eauto. }
  assert (Hfwd :
    fwd (Some input_ids) (Some tsv) tsm (Some attention_mask) pid past None
        labels =
    (r ← merge tsf embeds input_ids attention_mask labels;
     Ok (LmInputs (Some (final_attention_mask r))
                  (Some (fused_position_ids r)) (final_embedding r)
                  (final_labels r)))).
  { unfold forward. simpl.
    destruct (Nat.eqb_spec (sequence_length input_ids) 1); [done|].
    simpl. by destruct past. }
  rewrite Hfwd. split.
  - rewrite <- (Z.mul_cancel_l _ _ (Z.of_nat (num_time_series_patches tsf)))
      by lia.
    rewrite <- Hcount.
    replace (Z.of_nat (num_time_series_patches tsf) *
             Z.of_nat (num_time_series tsf))
      with (Z.of_nat (num_time_series tsf * num_time_series_patches tsf))
      by lia.
    rewrite <- Hiff.
    destruct (merge tsf embeds input_ids attention_mask labels) as [r|e];
      simpl; [done|]. split; by intros [= ->].
  - intros Heq. destruct Hret as [out Hout].
    + rewrite Hcount, Heq. lia.
    + exists out. split; [done|]. by rewrite Hout.
Qed.

(** X8. In a decode step the extended attention mask of a row is one entry
    per cache slot followed by the last entries of the row of the mask
    given, as many as the target length (one in a decode step); the entry
    of a slot is zero exactly when the row is a row of the cache and the
    keys of the slot add up to zero over the heads, and one otherwise. *)
Theorem extended_mask_hides_zero_slots kv (attention_mask : list (list Z)) n :
  (0 < n)%nat ->
  (0 < kv_head_dim kv)%nat ->
  (kv_batch kv <= length attention_mask)%nat ->
  exists ext,
    extend kv attention_mask n = Ok ext /\
    length ext = length attention_mask /\
    forall b row, attention_mask !! b = Some row ->
      exists cache_row,
        ext !! b = Some (cache_row ++ suffix n row) /\
        length cache_row = kv_length kv /\
        forall t, (t < kv_length kv)%nat ->
          cache_row !! t =
          Some (if bool_decide (b < kv_batch kv)%nat &&
                   k_is_zero (summed_key kadd k0 kv b t)
                then 0 else 1).
Proof.
  intros _ Hd Hb.
  destruct (extended_attention_mask_rows kadd k0 k_is_zero kv attention_mask
              n Hd Hb) as (ext & Hext & Hlen & Hrows).
  exists ext. split; [exact Hext|]. split; [exact Hlen|]. exact Hrows.
Qed.

End ForwardProperties.

(** * The loss inputs *)

Section LossProperties.

Import Torch.

Context {G Loss : Type}.
Variable cross_entropy : list G -> list Z -> Loss.

Lemma masked_select_is_Ok {A : Type} B L (t : list (list A))
    (m : list (list bool)) :
  shaped B L t -> shaped B L m -> exists l, masked_select t m = Ok l.
Proof.
  revert B m. induction t as [|row t IH]; intros B [|mrow m] [Hl Hr] [Hl' Hr'];
    simpl in *; try (subst B; discriminate).
  - by eexists.
  - inversion Hr as [|? ? Hrow Hr1]; subst.
    inversion Hr' as [|? ? Hmrow Hr1']; subst.
    assert (Hrow' : exists r, masked_select_row row mrow = Ok r).
    { clear -Hmrow. revert mrow Hmrow.
      induction row as [|x row IHr]; intros [|c mrow] Hlen; simpl in *;
        try done; [by eexists|].
      destruct (IHr mrow ltac:(lia)) as [r ->]. by eexists. }
    destruct Hrow' as [r ->]. simpl.
    destruct (IH (length t) m) as [l ->]; [done|split; [lia|done]|].
    by eexists.
Qed.

Lemma shaped_fmap_rows {A C : Type} (f : list A -> list C) B L L'
    (t : list (list A)) :
  (forall row, length row = L -> length (f row) = L') ->
  shaped B L t -> shaped B L' (f <$> t).
Proof.
  intros Hf [Hl Hr]. split; [by rewrite length_fmap|].
  apply Forall_fmap. eapply Forall_impl; [exact Hr|].
  intros row Hrow. simpl. by apply Hf.
Qed.

Lemma lookup2_fmap_drop1 {A : Type} (t : list (list A)) b k :
  lookup2 (drop 1 <$> t) b k = lookup2 t b (S k).
Proof.
  unfold lookup2. rewrite list_lookup_fmap.
  destruct (t !! b) as [row|]; simpl; [|done]. by rewrite lookup_drop.
Qed.

Lemma lookup2_fmap_drop_last {A : Type} (t : list (list A)) b k row :
  t !! b = Some row ->
  lookup2 (drop_last <$> t) b k =
  if decide (S k < length row)%nat then row !! k else None.
Proof.
  intros Hrow. unfold lookup2, drop_last.
  rewrite list_lookup_fmap, Hrow. simpl. case_decide.
  - apply lookup_take_lt. lia.
  - apply lookup_take_ge. lia.
Qed.

(** X9. With labels and an attention mask of the shape of the logits, the
    loss is the cross entropy of as many logits as labels, and a logit is
    paired with a label exactly when it sits one column before the label in
    the same row and the mask is nonzero at the column of the label. *)
Theorem loss_pairs_logits_with_next_labels B T (logits : list (list G))
    (labels attention_mask : list (list Z)) :
  shaped B T logits -> shaped B T labels -> shaped B T attention_mask ->
  exists shift_logits shift_labels,
    forward_loss cross_entropy logits (Some labels) (Some attention_mask) =
      Ok (Some (cross_entropy shift_logits shift_labels)) /\
    length shift_logits = length shift_labels /\
    forall g y,
      (g, y) ∈ zip shift_logits shift_labels <->
      exists b t m,
        lookup2 logits b t = Some g /\ lookup2 labels b (S t) = Some y /\
        lookup2 attention_mask b (S t) = Some m /\ m <> 0.
Proof.
  intros Hlg Hlb Ham.
  set (sm := pointwise (fun m => negb (m =? 0)) (drop 1 <$> attention_mask)).
  assert (Hsm : shaped B (T - 1) sm).
  { apply shaped_pointwise.
    apply (shaped_fmap_rows _ B T); [|done].
    intros row Hrow. rewrite length_drop. lia. }
  assert (Hsl : shaped B (T - 1) (drop_last <$> logits)).
  { apply (shaped_fmap_rows _ B T); [|done].
    intros row Hrow. unfold drop_last. rewrite length_take. lia. }
  assert (Hsb : shaped B (T - 1) (drop 1 <$> labels)).
  { apply (shaped_fmap_rows _ B T); [|done].
    intros row Hrow. rewrite length_drop. lia. }
  destruct (masked_select_is_Ok B (T - 1) _ sm Hsl Hsm) as [lg Hslg].
  destruct (masked_select_is_Ok B (T - 1) _ sm Hsb Hsm) as [lb Hslb].
  destruct (masked_select_zip _ _ _ _ _ Hslg Hslb) as [Hzip Hlen].
  exists lg, lb. split; [|split; [done|]].
  - unfold forward_loss, loss_inputs. fold sm. rewrite Hslg. simpl.
    rewrite Hslb. simpl. by rewrite Hlen, Nat.eqb_refl.
  - intros g y. rewrite (elem_of_masked_select _ _ _ (g, y) Hzip). split.
    + intros (b & t & Hpair & Hm).
      unfold sm in Hm. rewrite lookup2_pointwise, lookup2_fmap_drop1 in Hm.
      destruct (lookup2 attention_mask b (S t)) as [m|] eqn:Hmt; [|done].
      simpl in Hm. injection Hm as Hm.
      apply lookup2_Some in Hpair as (prow & Hprow & Hp).
      apply lookup_zip_with_Some in Hprow as (lr & br & -> & Hlr & Hbr).
      apply lookup_zip_with_Some in Hp as (g' & y' & [= <- <-] & Hg & Hy).
      apply list_lookup_fmap_Some in Hlr as (lrow & -> & Hlrow).
      apply list_lookup_fmap_Some in Hbr as (brow & -> & Hbrow).
      exists b, t, m. split; [|split; [|split; [done|]]].
      * apply lookup2_Some. exists lrow. split; [done|].
        unfold drop_last in Hg. by apply lookup_take_Some in Hg as [? _].
      * apply lookup2_Some. exists brow. split; [done|].
        by rewrite lookup_drop in Hy.
      * intros ->. done.
    + intros (b & t & m & Hg & Hy & Hm & Hne).
      exists b, t. split.
      * apply lookup2_Some in Hg as (lrow & Hlrow & Hg).
        apply lookup2_Some in Hy as (brow & Hbrow & Hy).
        destruct Hlg as [_ Hlgr].
        pose proof (Forall_lookup_1 _ _ _ _ Hlgr Hlrow) as Hll. simpl in Hll.
        destruct Hlb as [_ Hlbr].
        pose proof (Forall_lookup_1 _ _ _ _ Hlbr Hbrow) as Hbl. simpl in Hbl.
        apply lookup_lt_Some in Hy as Hyl.
        apply lookup2_Some. exists (zip (drop_last lrow) (drop 1 brow)).
        split.
        -- by rewrite lookup_zip_with, !list_lookup_fmap, Hlrow, Hbrow.
        -- rewrite lookup_zip_with. unfold drop_last.
           rewrite lookup_take_lt by lia. rewrite Hg. simpl.
           rewrite lookup_drop. change (1 + t)%nat with (S t).
           by rewrite Hy.
      * unfold sm. rewrite lookup2_pointwise, lookup2_fmap_drop1, Hm. simpl.
        f_equal. apply negb_true_iff. by apply Z.eqb_neq.
Qed.

End LossProperties.

(** * The inputs of a generation step *)

Section GenerationProperties.

Import Torch.

Context {E TSV : Type}.
Variable time_series_token_index : Z.

Local Abbreviation prepare :=
  (prepare_inputs_for_generation (E := E) (TSV := TSV)
     time_series_token_index).
Local Abbreviation kept_ids := (unprocessed time_series_token_index).

Lemma slice_from_nonneg {A : Type} (start : Z) (row : list A) :
  0 <= start -> slice_from start row = drop (Z.to_nat start) row.
Proof.
  intros Hs. unfold slice_from.
  by destruct (Z.ltb_spec start 0); [lia|].
Qed.

Lemma slice_from_neg {A : Type} (n : nat) (row : list A) :
  (0 < n)%nat -> slice_from (- Z.of_nat n) row = suffix n row.
Proof.
  intros Hn. unfold slice_from, suffix.
  destruct (Z.ltb_spec (- Z.of_nat n) 0); [|lia]. f_equal. lia.
Qed.

Lemma slice_from_suffix {A : Type} (start : Z) (row : list A) :
  slice_from start row `suffix_of` row.
Proof. unfold slice_from. apply suffix_drop. Qed.

Lemma fmap_slice_suffix {A : Type} (start : Z) (t : list (list A)) :
  Forall2 (fun r' r => r' `suffix_of` r) (slice_from start <$> t) t.
Proof.
  apply Forall2_fmap_l, Forall_Forall2_diag, Forall_forall.
  intros row _. apply slice_from_suffix.
Qed.

Lemma Forall2_suffix_refl {A : Type} (t : list (list A)) :
  Forall2 (fun r' r => r' `suffix_of` r) t t.
Proof. apply Forall_Forall2_diag, Forall_forall. by intros row _. Qed.

Lemma unprocessed_suffix p am (input_ids : list (list Z)) :
  Forall2 (fun r' r => r' `suffix_of` r) (kept_ids p am input_ids) input_ids.
Proof.
  unfold unprocessed.
  destruct am as [am|];
    repeat (match goal with |- context [if ?c then _ else _] =>
              destruct c end);
    first [apply fmap_slice_suffix | apply Forall2_suffix_refl].
Qed.

Lemma bounded_mask_suffix c p ids am am' :
  bounded_mask c p ids am = Some am' ->
  exists am0, am = Some am0 /\ Forall2 (fun r' r => r' `suffix_of` r) am' am0.
Proof.
  unfold bounded_mask. destruct am as [am0|]; [|done].
  destruct (c <? p)%nat; intros [= <-]; exists am0; (split; [done|]).
  - apply fmap_slice_suffix.
  - apply Forall2_suffix_refl.
Qed.

(** X11. Whatever the cache and the mask, a generation step never changes
    or reorders tokens: each row of the ids it hands on is a suffix of the
    row it was given, and so is each row of the attention mask. *)
Theorem prepared_rows_are_suffixes (input_ids : list (list Z)) past_key_values
    inputs_embeds time_series_values attention_mask kwargs mi :
  prepare_inputs_for_generation (E := E) (TSV := TSV)
    time_series_token_index input_ids past_key_values inputs_embeds
    time_series_values attention_mask kwargs = Ok mi ->
  (forall ids', mi_inputs mi = inr ids' ->
     Forall2 (fun r' r => r' `suffix_of` r) ids' input_ids) /\
  (forall am', mi_attention_mask mi = Some am' ->
     exists am, attention_mask = Some am /\
       Forall2 (fun r' r => r' `suffix_of` r) am' am).
Proof.
  unfold prepare_inputs_for_generation.
  destruct past_key_values as [pkv|]; simpl.
  - destruct (cache_lengths pkv) as [[c p]|e] eqn:Hc; simpl; [|done].
    intros [= <-]. simpl. split.
    + intros ids' Hids.
      assert (ids' = kept_ids p attention_mask input_ids) as ->.
      { destruct inputs_embeds; by injection Hids. }
      apply unprocessed_suffix.
    + intros am' Ham. by apply bounded_mask_suffix in Ham.
  - intros [= <-]. simpl. split.
    + intros ids' Hids.
      assert (ids' = input_ids) as ->.
      { destruct inputs_embeds; [done|by injection Hids]. }
      apply Forall2_suffix_refl.
    + intros am' Ham. exists am'. split; [done|]. apply Forall2_suffix_refl.
Qed.

Lemma sequence_length_fmap_drop B L n (t : list (list Z)) :
  shaped B L t -> (0 < B)%nat ->
  sequence_length (drop n <$> t) = (L - n)%nat.
Proof.
  intros [Hlen Hrows] HB. unfold sequence_length.
  destruct t as [|row t]; simpl in *; [lia|].
  inversion Hrows; subst. by rewrite length_drop.
Qed.

(** X12. With a cache that has seen fewer tokens than the ids hold and that
    has no smaller size limit, and a mask no longer than the ids, the step
    drops the seen columns of the ids, keeps the mask, and gives as position
    ids the last columns, as many as ids are kept, of the positions computed
    from the whole mask. *)
Theorem seen_tokens_are_dropped B L A (input_ids attention_mask : list (list Z))
    pkv c p inputs_embeds time_series_values kwargs :
  shaped B L input_ids -> shaped B A attention_mask -> (0 < B)%nat ->
  (A <= L)%nat -> (p < L)%nat ->
  cache_lengths pkv = Ok (c, p) -> (p <= c)%nat ->
  past_truthy (Some pkv) = true ->
  kw_position_ids kwargs = None ->
  prepare input_ids (Some pkv) inputs_embeds time_series_values
          (Some attention_mask) kwargs =
  Ok (ModelInputs (inr (drop p <$> input_ids))
        (Some ((fun row => suffix (L - p) (position_row row))
                 <$> attention_mask))
        (Some pkv) (kw_use_cache kwargs) (Some attention_mask)
        time_series_values).
Proof.
  intros Hids Ham HB HA Hp Hc Hcp Htruthy Hkw.
  pose proof (sequence_length_shaped B L _ Hids HB) as HL.
  pose proof (sequence_length_shaped B A _ Ham HB) as HAl.
  unfold prepare_inputs_for_generation. rewrite Hc.
  cbn [mbind result_bind fst snd].
  assert (Hkept : kept_ids p (Some attention_mask) input_ids =
                  drop p <$> input_ids).
  { unfold unprocessed. rewrite HL, HAl.
    destruct (Nat.ltb_spec L A); [lia|].
    destruct (Nat.ltb_spec p L); [|lia].
    apply list_fmap_ext. intros _ row _.
    rewrite slice_from_nonneg by lia. by rewrite Nat2Z.id. }
  rewrite Hkept. unfold bounded_mask.
  destruct (Nat.ltb_spec c p); [lia|]. cbn [mbind result_bind fst snd].
  unfold generation_position_ids. rewrite Hkw, Htruthy.
  rewrite (sequence_length_fmap_drop B L p _ Hids HB).
  f_equal. f_equal; [by destruct inputs_embeds|].
  f_equal. rewrite <- list_fmap_compose. apply list_fmap_ext.
  intros _ row _. simpl. apply slice_from_neg. lia.
Qed.

Lemma contains_spec x (input_ids : list (list Z)) :
  contains x input_ids = true <->
  exists b j, lookup2 input_ids b j = Some x.
Proof.
  unfold contains. rewrite existsb_exists. split.
  - intros (row & Hrow & Hx). apply existsb_exists in Hx as (y & Hy & Hxy).
    apply Z.eqb_eq in Hxy as <-.
    apply list_elem_of_In, list_elem_of_lookup in Hrow as [b Hb].
    apply list_elem_of_In, list_elem_of_lookup in Hy as [j Hj].
    exists b, j. apply lookup2_Some. eauto.
  - intros (b & j & (row & Hrow & Hx)%lookup2_Some).
    exists row. split.
    + apply list_elem_of_In. by eapply list_elem_of_lookup_2.
    + apply existsb_exists. exists x. split; [|by apply Z.eqb_eq].
      apply list_elem_of_In. by eapply list_elem_of_lookup_2.
Qed.

(** X13. When the mask is longer than the ids (part of the input lives in
    the cache only), the step keeps the last columns of the ids, as many as
    the mask exceeds the seen tokens; when the cache has seen exactly as
    many tokens as the mask is long it keeps every column, and when it has
    seen more it drops the excess from the front. *)
Theorem mask_longer_than_ids (input_ids attention_mask : list (list Z))
    pkv c p inputs_embeds time_series_values kwargs :
  let A := sequence_length attention_mask in
  (sequence_length input_ids < A)%nat ->
  cache_lengths pkv = Ok (c, p) ->
  exists mi,
    prepare input_ids (Some pkv) inputs_embeds time_series_values
            (Some attention_mask) kwargs = Ok mi /\
    mi_inputs mi =
      inr ((if decide (p < A)%nat then suffix (A - p) else drop (p - A))
             <$> input_ids).
Proof.
  intros A HA Hc. unfold prepare_inputs_for_generation. rewrite Hc.
  cbn [mbind result_bind fst snd]. eexists. split; [done|].
  cbn [mi_inputs fst].
  assert (Hkept : kept_ids p (Some attention_mask) input_ids =
            (if decide (p < A)%nat then suffix (A - p) else drop (p - A))
              <$> input_ids).
  { unfold unprocessed. fold A.
    destruct (Nat.ltb_spec (sequence_length input_ids) A); [|lia].
    apply list_fmap_ext. intros _ row _. case_decide.
    - replace (- (Z.of_nat A - Z.of_nat p)) with (- Z.of_nat (A - p)) by lia.
      apply slice_from_neg. lia.
    - rewrite slice_from_nonneg by lia. f_equal. lia. }
  rewrite Hkept. by destruct inputs_embeds.
Qed.

(** X14. When the cache has seen at least as many tokens as the ids hold and
    the mask is not longer than the ids, the ids are handed on whole unless
    some row holds the placeholder id, in which case only the last column
    is kept. *)
Theorem seen_ids_keep_last_column_on_placeholder B L
    (input_ids : list (list Z)) attention_mask pkv c p inputs_embeds
    time_series_values kwargs :
  shaped B L input_ids -> (0 < B)%nat ->
  (forall am, attention_mask = Some am -> (sequence_length am <= L)%nat) ->
  cache_lengths pkv = Ok (c, p) -> (L <= p)%nat ->
  exists mi,
    prepare input_ids (Some pkv) inputs_embeds time_series_values
            attention_mask kwargs = Ok mi /\
    ((exists b j, lookup2 input_ids b j = Some time_series_token_index) ->
     mi_inputs mi = inr (suffix 1 <$> input_ids)) /\
    ((forall b j, lookup2 input_ids b j <> Some time_series_token_index) ->
     mi_inputs mi = inr input_ids).
Proof.
  intros Hids HB Ham Hc Hp.
  pose proof (sequence_length_shaped B L _ Hids HB) as HL.
  unfold prepare_inputs_for_generation. rewrite Hc.
  cbn [mbind result_bind fst snd]. eexists. split; [done|].
  cbn [mi_inputs fst].
  assert (Hkept : kept_ids p attention_mask input_ids =
            if contains time_series_token_index input_ids
            then slice_from (Z.of_nat L - 1) <$> input_ids else input_ids).
  { unfold unprocessed. rewrite HL.
    destruct (Nat.ltb_spec p L); [lia|].
    destruct attention_mask as [am|]; [|done].
    specialize (Ham am eq_refl).
    by destruct (Nat.ltb_spec L (sequence_length am)); [lia|]. }
  rewrite Hkept. split.
  - intros Hex. pose proof Hex as (b & j & Hl).
    apply contains_spec in Hex. rewrite Hex.
    destruct (lookup2_lt _ _ _ _ _ _ Hids Hl) as [_ HjL].
    assert (slice_from (Z.of_nat L - 1) <$> input_ids =
            suffix 1 <$> input_ids) as ->; [|by destruct inputs_embeds].
    apply list_fmap_ext. intros i row Hrow.
    destruct Hids as [_ Hrows].
    pose proof (Forall_lookup_1 _ _ _ _ Hrows Hrow) as Hlen. simpl in Hlen.
    rewrite slice_from_nonneg by lia. unfold suffix. f_equal. lia.
  - intros Hno.
    destruct (contains time_series_token_index input_ids) eqn:Hcon.
    + apply contains_spec in Hcon as (b & j & Hl). by destruct (Hno b j).
    + by destruct inputs_embeds.
Qed.

(** X15. The attention mask is handed on unchanged unless the cache is a
    cache object that holds fewer tokens than it has seen; such a cache
    trims each row of the mask to its last columns, as many as the cache
    holds plus the ids kept. *)
Theorem mask_trimmed_by_bounded_cache_only (input_ids : list (list Z))
    past_key_values inputs_embeds time_series_values attention_mask kwargs
    mi :
  prepare input_ids past_key_values inputs_embeds time_series_values
          attention_mask kwargs = Ok mi ->
  (mi_attention_mask mi <> attention_mask ->
   exists c s t,
     past_key_values = Some (CacheObject c s t) /\ (c < s)%nat) /\
  (forall c s t am ids',
     past_key_values = Some (CacheObject c s t) -> (c < s)%nat ->
     attention_mask = Some am -> mi_inputs mi = inr ids' ->
     (0 < c + sequence_length ids')%nat ->
     mi_attention_mask mi =
       Some (suffix (c + sequence_length ids') <$> am)).
Proof.
  unfold prepare_inputs_for_generation.
  destruct past_key_values as [pkv|]; cbn [mbind result_bind fst snd].
  2: { intros [= <-]. cbn [mi_attention_mask snd]. split; [done|].
       intros; discriminate. }
  destruct pkv as [|n|c s t]; cbn [cache_lengths mbind result_bind fst snd];
    [done| |].
  - intros [= <-]. cbn [mi_attention_mask snd]. split; [|intros; discriminate].
    intros Hne. exfalso. apply Hne. unfold bounded_mask.
    destruct attention_mask; [|done]. by rewrite Nat.ltb_irrefl.
  - intros [= <-]. cbn [mi_attention_mask mi_inputs fst snd]. split.
    + intros Hne. exists c, s, t. split; [done|].
      destruct (Nat.ltb_spec c s) as [|Hge]; [done|].
      exfalso. apply Hne. unfold bounded_mask.
      destruct attention_mask; [|done].
      by destruct (Nat.ltb_spec c s); [lia|].
    + intros c' s' t' am ids' [= <- <- <-] Hlt -> Hids Hpos.
      assert (ids' = kept_ids s (Some am) input_ids) as ->.
      { destruct inputs_embeds; by injection Hids. }
      unfold bounded_mask. destruct (Nat.ltb_spec c s); [|lia].
      f_equal. apply list_fmap_ext. intros _ row _.
      rewrite <- Nat2Z.inj_add. by apply slice_from_neg.
Qed.

(** X17. A cache object that has seen no token and counts as false prepares
    what no cache prepares: the whole ids, the mask and the position ids of
    the first step; only embeddings given with it are not handed on. *)
Theorem unused_cache_object_is_no_cache B L (input_ids : list (list Z)) c
    inputs_embeds time_series_values attention_mask kwargs :
  shaped B L input_ids -> (0 < B)%nat ->
  exists mi,
    prepare input_ids None None time_series_values attention_mask kwargs =
      Ok mi /\
    mi_inputs mi = inr input_ids /\
    prepare input_ids (Some (CacheObject c 0 false)) inputs_embeds
            time_series_values attention_mask kwargs =
      Ok (ModelInputs (mi_inputs mi) (mi_position_ids mi)
            (Some (CacheObject c 0 false)) (mi_use_cache mi)
            (mi_attention_mask mi) (mi_time_series_values mi)).
Proof.
  intros Hids HB.
  pose proof (sequence_length_shaped B L _ Hids HB) as HL.
  unfold prepare_inputs_for_generation.
  cbn [cache_lengths mbind result_bind fst snd].
  eexists. split; [done|]. split; [done|].
  cbn [mi_inputs mi_position_ids mi_use_cache mi_attention_mask
       mi_time_series_values fst snd].
  assert (Hkept : kept_ids 0 attention_mask input_ids = input_ids).
  { assert (Hsl : forall start,
              (forall row, row ∈ input_ids ->
                 slice_from start row = row) ->
              slice_from start <$> input_ids = input_ids).
    { intros start Hall. rewrite <- (list_fmap_id input_ids) at 2.
      apply list_fmap_ext. intros i row Hrow. simpl. apply Hall.
      by eapply list_elem_of_lookup_2. }
    assert (Hrow : forall row, row ∈ input_ids -> length row = L).
    { intros row Hrow. destruct Hids as [_ Hrows].
      by apply (proj1 (Forall_forall _ _) Hrows). }
    unfold unprocessed. rewrite HL.
    assert (Hrest :
      (if (0 <? L)%nat
       then slice_from (Z.of_nat 0) <$> input_ids
       else if contains time_series_token_index input_ids
            then slice_from (Z.of_nat L - 1) <$> input_ids
            else input_ids) = input_ids).
    { destruct (Nat.ltb_spec 0 L).
      - apply Hsl. intros row _. by rewrite slice_from_nonneg by lia.
      - destruct (contains time_series_token_index input_ids); [|done].
        apply Hsl. intros row Hr. specialize (Hrow row Hr).
        assert (L = 0)%nat as -> by lia.
        by apply nil_length_inv in Hrow as ->. }
    destruct attention_mask as [am|]; [|exact Hrest].
    destruct (Nat.ltb_spec L (sequence_length am)); [|exact Hrest].
    apply Hsl. intros row Hr. specialize (Hrow row Hr).
    replace (- (Z.of_nat (sequence_length am) - Z.of_nat 0))
      with (- Z.of_nat (sequence_length am)) by lia.
    rewrite slice_from_neg by lia. unfold suffix.
    replace (length row - sequence_length am)%nat with 0%nat by lia.
    done. }
  rewrite Hkept.
  assert (Hmask : bounded_mask c 0 input_ids attention_mask = attention_mask).
  { unfold bounded_mask. destruct attention_mask; [|done].
    by destruct (Nat.ltb_spec c 0); [lia|]. }
  rewrite Hmask. f_equal. f_equal. by destruct inputs_embeds.
Qed.

End GenerationProperties.

(** * From the generation step to the language model *)

Section FirstStep.

Import Torch.

Context {E K TSV TSM : Type}.
Variable zeroE : E.
Variable pad_token_id : Z.
Variable time_series_token_index : Z.
Variable ignore_index : Z.
Variable get_input_embeddings : Z -> E.
Variable time_series_features_of : TSV -> option TSM -> features E.
Variable kadd : K -> K -> K.
Variable k0 : K.
Variable k_is_zero : K -> bool.

Local Abbreviation fwd :=
  (forward zeroE pad_token_id time_series_token_index ignore_index
           get_input_embeddings time_series_features_of kadd k0 k_is_zero).
Local Abbreviation prepare :=
  (prepare_inputs_for_generation (E := E) (TSV := TSV)
     time_series_token_index).

(** X16. In the first generation step (no cache, no position ids given)
    with a mask of zeros and ones, the position id prepared for an attended
    column is the number of attended columns up to it minus one, and 1 for
    a column that is not attended; when embeddings are given, [forward] on
    the prepared inputs hands the embeddings, the mask and these position
    ids to the language model, whatever the time-series values. *)
Theorem first_step_position_ids (input_ids : list (list Z)) inputs_embeds
    time_series_values tsm (attention_mask : list (list Z)) kwargs labels :
  is_mask attention_mask ->
  kw_position_ids kwargs = None ->
  exists mi pos,
    prepare input_ids None inputs_embeds time_series_values
            (Some attention_mask) kwargs = Ok mi /\
    mi_position_ids mi = Some pos /\
    mi_attention_mask mi = Some attention_mask /\
    (forall b row k m,
       attention_mask !! b = Some row -> row !! k = Some m ->
       lookup2 pos b k =
       Some (if m =? 0 then 1 else count_nonzero (take (S k) row) - 1)) /\
    (forall e, inputs_embeds = Some e ->
       mi_inputs mi = inl e /\
       fwd None (mi_time_series_values mi) tsm (mi_attention_mask mi)
           (mi_position_ids mi) None (Some e) labels =
       Ok (LmInputs (Some attention_mask) (Some pos) e labels)).
Proof.
  intros Hmask Hkw. unfold prepare_inputs_for_generation.
  cbn [mbind result_bind fst snd]. unfold generation_position_ids.
  rewrite Hkw. cbn [past_truthy].
  eexists. exists (position_row <$> attention_mask).
  split; [done|]. split; [done|]. split; [done|]. split.
  - intros b row k m Hrow Hm. unfold lookup2.
    rewrite list_lookup_fmap, Hrow. simpl.
    rewrite (lookup_position_row row k m Hm).
    rewrite sum_count_nonzero; [done|].
    apply Forall_take. by apply (Forall_lookup_1 _ _ _ _ Hmask Hrow).
  - by intros e ->.
Qed.

End FirstStep.

(** * The loss without a mask, and the projector on valid patches *)

Section LossWithoutMask.

Import Torch.

Context {G Loss : Type}.
Variable cross_entropy : list G -> list Z -> Loss.

Lemma masked_select_row_all {A : Type} (row : list A) (m : list bool) :
  length m = length row -> Forall (fun c => c = true) m ->
  masked_select_row row m = Ok row.
Proof.
  revert m. induction row as [|x row IH]; intros [|c m] Hlen Hall;
    simpl in *; try done.
  inversion Hall; subst. by rewrite IH by (done || lia).
Qed.

Lemma masked_select_all {A : Type} B L (t : list (list A))
    (m : list (list bool)) :
  shaped B L t -> shaped B L m -> Forall (Forall (fun c => c = true)) m ->
  masked_select t m = Ok (concat t).
Proof.
  revert B m. induction t as [|row t IH];
    intros B [|mrow m] [Hl Hr] [Hl' Hr'] Hall;
    simpl in *; try (subst B; discriminate); [done|].
  inversion Hr; subst. inversion Hr'; subst. inversion Hall; subst.
  rewrite masked_select_row_all by (done || lia). simpl.
  rewrite (IH (length t) m); [done|done|split; [lia|done]|done].
Qed.

Lemma length_concat_shaped {A : Type} B L (t : list (list A)) :
  shaped B L t -> length (concat t) = (B * L)%nat.
Proof.
  intros [Hl Hr]. subst B. induction Hr as [|row t Hrow Hr IH]; [done|].
  simpl. rewrite length_app, IH. lia.
Qed.

(** X18. With labels and logits of one shape, a mask of that shape without
    a zero gives the loss that no mask gives: the cross entropy of every
    logit but the last of each row with the label one column later. *)
Theorem loss_with_full_mask_is_loss_without_mask B T (logits : list (list G))
    (labels attention_mask : list (list Z)) :
  shaped B T logits -> shaped B T labels -> shaped B T attention_mask ->
  Forall (Forall (fun m => m <> 0)) attention_mask ->
  forward_loss cross_entropy logits (Some labels) (Some attention_mask) =
    forward_loss cross_entropy logits (Some labels) None /\
  forward_loss cross_entropy logits (Some labels) None =
    Ok (Some (cross_entropy (concat (drop_last <$> logits))
                            (concat (drop 1 <$> labels)))).
Proof.
  intros Hlg Hlb Ham Hnz.
  set (sm := pointwise (fun m => negb (m =? 0)) (drop 1 <$> attention_mask)).
  assert (Hsm : shaped B (T - 1) sm).
  { apply shaped_pointwise.
    apply (shaped_fmap_rows _ B T); [|done].
    intros row Hrow. rewrite length_drop. lia. }
  assert (Hall : Forall (Forall (fun c => c = true)) sm).
  { unfold sm, pointwise. apply Forall_fmap, Forall_fmap.
    eapply Forall_impl; [exact Hnz|]. intros row Hrow. simpl.
    apply Forall_fmap. apply Forall_drop.
    eapply Forall_impl; [exact Hrow|]. intros m Hm. simpl.
    apply negb_true_iff. by apply Z.eqb_neq. }
  assert (Hsl : shaped B (T - 1) (drop_last <$> logits)).
  { apply (shaped_fmap_rows _ B T); [|done].
    intros row Hrow. unfold drop_last. rewrite length_take. lia. }
  assert (Hsb : shaped B (T - 1) (drop 1 <$> labels)).
  { apply (shaped_fmap_rows _ B T); [|done].
    intros row Hrow. rewrite length_drop. lia. }
  assert (Hlen : length (concat (drop_last <$> logits)) =
                 length (concat (drop 1 <$> labels))).
  { by rewrite (length_concat_shaped B (T - 1) _ Hsl),
               (length_concat_shaped B (T - 1) _ Hsb). }
  assert (Hnone : forward_loss cross_entropy logits (Some labels) None =
                  Ok (Some (cross_entropy (concat (drop_last <$> logits))
                                          (concat (drop 1 <$> labels))))).
  { unfold forward_loss, loss_inputs. cbn [mbind result_bind fst snd].
    by rewrite Hlen, Nat.eqb_refl. }
  split; [|done]. rewrite Hnone.
  unfold forward_loss, loss_inputs. fold sm.
  rewrite (masked_select_all B (T - 1) _ sm Hsl Hsm Hall).
  cbn [mbind result_bind].
  rewrite (masked_select_all B (T - 1) _ sm Hsb Hsm Hall).
  cbn [mbind result_bind fst snd].
  by rewrite Hlen, Nat.eqb_refl.
Qed.

End LossWithoutMask.

Section ProjectorOnValidPatches.

Import Torch.

Context {F V H : Type}.
Variable scale : V -> F -> V.
Variable vadd : V -> V -> V.
Variable fsub : F -> F -> F.
Variables f0 f1 : F.
Variable vzero : V.
Variable mask_embedding : V.
Variable linear_1 : V -> H.
Variable act : H -> H.
Variable linear_2 : H -> H.

(** Exact arithmetic, as for the masked patches. *)
Hypothesis scale_zero : forall x, scale x f0 = vzero.
Hypothesis scale_one : forall x, scale x f1 = x.
Hypothesis fsub_self : fsub f1 f1 = f0.
Hypothesis vadd_zero_r : forall x, vadd x vzero = x.

(** X10. In exact arithmetic, with a mask of ones of the shape of the
    features, the projector returns the two-layer transform of each raw
    feature, whatever the fallback vector, and its output has the shape of
    the features. *)
Theorem projector_on_valid_patches N P (time_series_features : list (list V))
    (input_mask : list (list F)) :
  shaped N P time_series_features -> shaped N P input_mask ->
  Forall (Forall (fun v => v = f1)) input_mask ->
  projector_forward scale vadd fsub f1 mask_embedding linear_1 act linear_2
    time_series_features input_mask =
  pointwise (fun x => linear_2 (act (linear_1 x))) time_series_features.
Proof.
  intros Hf Hm Hone.
  assert (Hout : shaped N P
            (projector_forward scale vadd fsub f1 mask_embedding linear_1
               act linear_2 time_series_features input_mask)).
  { destruct Hf as [Hfl Hfr]. destruct Hm as [Hml Hmr].
    unfold projector_forward. split; [rewrite length_zip_with; lia|].
    apply Forall_lookup_2. intros i row Hrow.
    apply lookup_zip_with_Some in Hrow as (r & mr & -> & Hr & Hmrow).
    rewrite length_zip_with.
    pose proof (Forall_lookup_1 _ _ _ _ Hfr Hr) as H1.
    pose proof (Forall_lookup_1 _ _ _ _ Hmr Hmrow) as H2. simpl in *. lia. }
  apply (tensor_ext N P); [done|by apply shaped_pointwise|].
  intros i p Hi Hp. unfold projector_forward.
  rewrite lookup2_zip_with2, lookup2_pointwise.
  destruct (lookup2_shaped N P _ i p Hf Hi Hp) as [x Hx].
  destruct (lookup2_shaped N P _ i p Hm Hi Hp) as [v Hv].
  rewrite Hx, Hv. simpl. f_equal.
  assert (v = f1) as ->.
  { apply lookup2_Some in Hv as (mr & Hmr & Hv).
    pose proof (Forall_lookup_1 _ _ _ _ Hone Hmr) as Hrow. simpl in Hrow.
    by apply (Forall_lookup_1 _ _ _ _ Hrow Hv). }
  unfold mlp, masked_features.
  by rewrite scale_one, fsub_self, scale_zero, vadd_zero_r.
Qed.

End ProjectorOnValidPatches.

(** * The statements on the sample inputs *)

Lemma sample_well_shaped :
  well_shaped Sample.tsf Sample.embeds Sample.ids Sample.mask
              (Some Sample.labels).
Proof. well_shaped_by_computation. Defined.

Lemma sample_merge :
  Sample.merge Sample.tsf Sample.embeds Sample.ids Sample.mask
               (Some Sample.labels) = Ok Sample.out.
Proof. reflexivity. Defined.

(** One instance too many for the one placeholder of the batch. *)
Example sample_merge_rejected :
  Sample.merge (Features 2 3 [1001; 1002; 1003; 1004; 1005; 1006])
               Sample.embeds Sample.ids Sample.mask (Some Sample.labels) =
  Raise ValueError.
Proof. reflexivity. Qed.


(** C2, the statement refuted: a batch whose row ends in the pad id is not
    treated as left-padded, and one whose row does not is. *)
Lemma left_padding_not_iff_some_row_ends_in_pad :
  (left_padding 0 [[5; 0]] = Ok false /\
   Exists (fun row => last row = Some 0) [[5; 0]]) /\
  (left_padding 0 [[0; 5]] = Ok true /\
   ~ Exists (fun row => last row = Some 0) [[0; 5]]).
Proof.
  split.
  - split; [reflexivity|]. by left.
  - split; [reflexivity|]. intros Hex.
    apply Exists_cons in Hex as [Hex|Hex]; [done|]. by inversion Hex.
Qed.

Lemma left_padding_iff_no_row_ends_in_pad_witness :
  Forall (fun row => row <> []) Sample.ids /\
  exists lp,
    left_padding 0 Sample.ids = Ok lp /\
    (lp = true <-> Forall (fun row => last row <> Some 0) Sample.ids).
Proof.
  assert (Hne : Forall (fun row : list Z => row <> []) Sample.ids)
    by (repeat constructor; discriminate).
  split; [exact Hne|].
  exact (left_padding_iff_no_row_ends_in_pad 0 Sample.ids Hne).
Defined.

(** C3, the statement refuted: without placeholders and without features
    the embedding of a pad token does not come back. *)
Lemma merge_zeroes_pad_embeddings :
  Forall (Forall (fun x => x <> 99)) Sample.plain_ids /\
  exists out,
    Sample.merge Sample.no_tsf Sample.plain_embeds Sample.plain_ids
                 Sample.plain_mask None = Ok out /\
    final_embedding out <> Sample.plain_embeds.
Proof.
  split; [repeat constructor; discriminate|].
  eexists. split; [reflexivity|]. discriminate.
Qed.

Lemma merge_without_placeholders_witness :
  well_shaped Sample.no_tsf Sample.plain_embeds Sample.plain_ids
              Sample.plain_mask None /\
  exists out,
    Sample.merge Sample.no_tsf Sample.plain_embeds Sample.plain_ids
                 Sample.plain_mask None = Ok out /\
    final_attention_mask out = Sample.plain_mask /\
    final_labels out = None /\
    final_embedding out =
      zip_with (zip_with (fun x e => if x =? 0 then 0 else e))
               Sample.plain_ids Sample.plain_embeds.
Proof.
  assert (ws : well_shaped Sample.no_tsf Sample.plain_embeds Sample.plain_ids
                           Sample.plain_mask None)
    by well_shaped_by_computation.
  split; [exact ws|].
  refine (merge_without_placeholders 0 0 99 (-100) Sample.no_tsf
            Sample.plain_embeds Sample.plain_ids Sample.plain_mask None
            ws _ eq_refl).
  intros row Hrow. apply list_elem_of_singleton in Hrow. subst row.
  repeat constructor; discriminate.
Defined.

(** C4, the statement refuted: the pad token of column 2 is no placeholder,
    its destination is column 3, and the embedding there is zero, not the
    embedding of the token. *)
Lemma pad_embedding_not_copied :
  new_token_positions 0 99 2 Sample.padded_ids = Ok [[0; 2; 3]] /\
  Torch.lookup2 Sample.padded_ids 0 2 = Some 0 /\
  Torch.lookup2 Sample.padded_embeds 0 2 = Some 30 /\
  exists out,
    Sample.merge Sample.padded_tsf Sample.padded_embeds Sample.padded_ids
                 Sample.padded_mask None = Ok out /\
    Torch.lookup2 (final_embedding out) 0 3 = Some 0 /\
    Torch.lookup2 (final_embedding out) 0 3 <>
    Torch.lookup2 Sample.padded_embeds 0 2.
Proof.
  split; [reflexivity|]. split; [reflexivity|]. split; [reflexivity|].
  eexists. split; [reflexivity|]. split; [reflexivity|]. discriminate.
Qed.

Lemma text_is_copied_to_its_destination_witness :
  well_shaped Sample.tsf Sample.embeds Sample.ids Sample.mask
              (Some Sample.labels) /\
  Sample.merge Sample.tsf Sample.embeds Sample.ids Sample.mask
               (Some Sample.labels) = Ok Sample.out /\
  exists lp med pos,
    left_padding 0 Sample.ids = Ok lp /\
    max_embed_dim 99 3 Sample.ids = Ok med /\
    new_token_positions 0 99 3 Sample.ids = Ok pos /\
    forall b j row x,
      Sample.ids !! b = Some row -> row !! j = Some x ->
      let d := destination 99 3 lp med row j in
      Torch.lookup2 pos b j = Some d /\
      (x <> 99 ->
       0 <= d < med /\
       Torch.lookup2 (final_attention_mask Sample.out) b (Z.to_nat d) =
         Torch.lookup2 Sample.mask b j /\
       (forall lab, Some Sample.labels = Some lab ->
          exists fl, final_labels Sample.out = Some fl /\
                     Torch.lookup2 fl b (Z.to_nat d) = Torch.lookup2 lab b j) /\
       Torch.lookup2 (final_embedding Sample.out) b (Z.to_nat d) =
         if x =? 0 then Some 0 else Torch.lookup2 Sample.embeds b j).
Proof.
  split; [exact sample_well_shaped|]. split; [exact sample_merge|].
  exact (text_is_copied_to_its_destination 0 0 99 (-100) Sample.tsf
           Sample.embeds Sample.ids Sample.mask (Some Sample.labels)
           Sample.out sample_well_shaped sample_merge).
Defined.


Lemma position_ids_count_attended_witness :
  well_shaped Sample.tsf Sample.embeds Sample.ids Sample.mask
              (Some Sample.labels) /\
  is_mask Sample.mask /\
  Sample.merge Sample.tsf Sample.embeds Sample.ids Sample.mask
               (Some Sample.labels) = Ok Sample.out /\
  forall b row k m,
    final_attention_mask Sample.out !! b = Some row -> row !! k = Some m ->
    Torch.lookup2 (fused_position_ids Sample.out) b k =
    Some (if m =? 0 then 1 else count_nonzero (take (S k) row) - 1).
Proof.
  assert (Hm : is_mask Sample.mask) by is_mask_by_computation.
  split; [exact sample_well_shaped|]. split; [exact Hm|].
  split; [exact sample_merge|].
  exact (position_ids_count_attended 0 0 99 (-100) Sample.tsf
           Sample.embeds Sample.ids Sample.mask (Some Sample.labels)
           Sample.out sample_well_shaped Hm sample_merge).
Defined.

Lemma labels_ignored_away_from_text_witness :
  well_shaped Sample.tsf Sample.embeds Sample.ids Sample.mask
              (Some Sample.labels) /\
  Sample.merge Sample.tsf Sample.embeds Sample.ids Sample.mask
               (Some Sample.labels) = Ok Sample.out /\
  (Some Sample.labels = None -> final_labels Sample.out = None) /\
  (forall lab, Some Sample.labels = Some lab ->
     exists lp med fl,
       left_padding 0 Sample.ids = Ok lp /\
       max_embed_dim 99 3 Sample.ids = Ok med /\
       final_labels Sample.out = Some fl /\
       shaped (batch_size Sample.ids) (Z.to_nat med) fl /\
       forall b k, (b < batch_size Sample.ids)%nat -> (k < Z.to_nat med)%nat ->
         (forall j row x,
            Sample.ids !! b = Some row -> row !! j = Some x -> x <> 99 ->
            Z.to_nat (destination 99 3 lp med row j) <> k) ->
         Torch.lookup2 fl b k = Some (-100)).
Proof.
  split; [exact sample_well_shaped|]. split; [exact sample_merge|].
  exact (labels_ignored_away_from_text 0 0 99 (-100) Sample.tsf
           Sample.embeds Sample.ids Sample.mask (Some Sample.labels)
           Sample.out sample_well_shaped sample_merge).
Defined.

(** C6, the statement refuted: with the first or the second layer of the
    projector as the linear transform of the raw feature, the specified
    formula gives another output than the projector at a valid patch. *)
Lemma projector_applies_no_linear_transform_before_blending :
  Sample.projector [[1]] [[1]] = [[3]] /\
  Sample.projector_spec (fun x => 2 * x) [[1]] [[1]] = [[5]] /\
  Sample.projector_spec (fun x => x + 1) [[1]] [[1]] = [[5]] /\
  Sample.projector [[1]] [[1]] <>
  Sample.projector_spec (fun x => 2 * x) [[1]] [[1]].
Proof. repeat split; try reflexivity. discriminate. Qed.

Lemma projector_blends_raw_features_witness :
  (forall x, x * 0 = 0) /\ (forall x, x * 1 = x) /\ 1 - 0 = 1 /\
  (forall x, 0 + x = x) /\
  Torch.lookup2 [[1; 3]] 0 1 = Some 3 /\
  Torch.lookup2 [[1; 0]] 0 1 = Some 0 /\
  Torch.lookup2 (Sample.projector [[1; 3]] [[1; 0]]) 0 1 =
    Some ((fun h => h + 1)
            (Z.max 0 ((fun x => 2 * x) (3 * 0 + 5 * (1 - 0))))) /\
  Sample.projector [[1; 3]] [[1; 0]] =
    Sample.projector_spec (fun raw => raw) [[1; 3]] [[1; 0]] /\
  (0 = 0 ->
   Torch.lookup2 (Sample.projector [[1; 3]] [[1; 0]]) 0 1 =
     Some ((fun h => h + 1) (Z.max 0 ((fun x => 2 * x) 5)))).
Proof.
  split; [intros x; lia|]. split; [intros x; lia|]. split; [lia|].
  split; [intros x; lia|]. split; [reflexivity|]. split; [reflexivity|].
  exact (projector_blends_raw_features Z.mul Z.add Z.sub 0 1 0 5
           (fun x => 2 * x) (Z.max 0) (fun h => h + 1)
           (fun x => Z.mul_0_r x) (fun x => Z.mul_1_r x) eq_refl
           (fun x => Z.add_0_l x) [[1; 3]] [[1; 0]] 0%nat 1%nat 3 0
           eq_refl eq_refl).
Defined.

Lemma decode_step_position_id_witness :
  sequence_length [[4]] = 1%nat /\
  (0 < kv_head_dim Sample.cache)%nat /\
  (kv_batch Sample.cache <= length [[1; 1; 1; 1]])%nat /\
  is_mask [[1; 1; 1; 1]] /\
  extended_attention_mask Z.add 0 (fun k => k =? 0) Sample.cache
                          [[1; 1; 1; 1]] 1 = Ok [[1; 0; 1; 1]] /\
  Sample.step (Some [[4]]) (Some tt) None (Some [[1; 1; 1; 1]]) None
              (Some Sample.cache) None None =
    Ok (LmInputs (Some [[1; 0; 1; 1]]) (Some [[2]]) [[40]] None) /\
  exists ext,
    extended_attention_mask Z.add 0 (fun k => k =? 0) Sample.cache
                            [[1; 1; 1; 1]] 1 = Ok ext /\
    Sample.step (Some [[4]]) (Some tt) None (Some [[1; 1; 1; 1]]) None
                (Some Sample.cache) None None =
    Ok (LmInputs (Some ext)
                 (Some ((fun row => [count_nonzero row - 1]) <$> ext))
                 (Torch.pointwise (fun x => 10 * x) [[4]]) None) /\
    length ext = length [[1; 1; 1; 1]] /\
    forall b row, [[1; 1; 1; 1]] !! b = Some row ->
      exists cache_row,
        ext !! b = Some (cache_row ++ suffix 1 row) /\
        length cache_row = kv_length Sample.cache /\
        (forall t, (t < kv_length Sample.cache)%nat ->
           cache_row !! t =
           Some (if bool_decide (b < kv_batch Sample.cache)%nat &&
                    (summed_key Z.add 0 Sample.cache b t =? 0)
                 then 0 else 1)) /\
        ((fun row => [count_nonzero row - 1]) <$> ext) !! b =
        Some [count_nonzero cache_row + count_nonzero (suffix 1 row) - 1].
Proof.
  assert (Hm : is_mask [[1; 1; 1; 1]]) by is_mask_by_computation.
  assert (Hd : (0 < kv_head_dim Sample.cache)%nat) by (cbn; lia).
  assert (Hb : (kv_batch Sample.cache <= length [[1; 1; 1; 1]])%nat)
    by (cbn; lia).
  split; [reflexivity|]. split; [exact Hd|]. split; [exact Hb|].
  split; [exact Hm|]. split; [reflexivity|]. split; [reflexivity|].
  exact (decode_step_position_id 0 0 99 (-100) (fun x => 10 * x)
           (fun _ _ => Sample.tsf) Z.add 0 (fun k => k =? 0) [[4]] tt None
           [[1; 1; 1; 1]] None Sample.cache None eq_refl Hd Hb Hm).
Defined.

(** ** The further properties on the sample inputs *)

Lemma destinations_step_by_slots_witness :
  well_shaped Sample.tsf Sample.embeds Sample.ids Sample.mask
              (Some Sample.labels) /\
  new_token_positions 0 99 3 Sample.ids =
    Ok [[0; 1; 4; 5; 6]; [2; 3; 4; 5; 6]] /\
  Sample.ids !! 0%nat = Some [5; 6; 99; 7; 8] /\
  (forall j x, [5; 6; 99; 7; 8] !! S j = Some x ->
     exists d,
       Torch.lookup2 [[0; 1; 4; 5; 6]; [2; 3; 4; 5; 6]] 0 j = Some d /\
       Torch.lookup2 [[0; 1; 4; 5; 6]; [2; 3; 4; 5; 6]] 0 (S j) =
       Some (d + if x =? 99 then Z.of_nat 3 else 1)) /\
  (forall j j', (j < j')%nat -> (j' < length [5; 6; 99; 7; 8])%nat ->
     exists d d',
       Torch.lookup2 [[0; 1; 4; 5; 6]; [2; 3; 4; 5; 6]] 0 j = Some d /\
       Torch.lookup2 [[0; 1; 4; 5; 6]; [2; 3; 4; 5; 6]] 0 j' = Some d' /\
       d < d').
Proof.
  split; [exact sample_well_shaped|]. split; [reflexivity|].
  split; [reflexivity|].
  exact (destinations_step_by_slots 0 99 Sample.tsf Sample.embeds Sample.ids
           Sample.mask (Some Sample.labels)
           [[0; 1; 4; 5; 6]; [2; 3; 4; 5; 6]] 0%nat [5; 6; 99; 7; 8]
           sample_well_shaped eq_refl eq_refl).
Defined.

Lemma time_series_slots_are_attended_witness :
  well_shaped Sample.tsf Sample.embeds Sample.ids Sample.mask
              (Some Sample.labels) /\
  Sample.merge Sample.tsf Sample.embeds Sample.ids Sample.mask
               (Some Sample.labels) = Ok Sample.out /\
  time_series_to_overwrite 0 99 3 Sample.ids =
    Ok [[false; false; true; true; true; false; false];
        [false; false; false; false; false; false; false]] /\
  Torch.lookup2 [[false; false; true; true; true; false; false];
                 [false; false; false; false; false; false; false]] 0 2 =
    Some true /\
  Torch.lookup2 (final_attention_mask Sample.out) 0 2 = Some 1.
Proof.
  split; [exact sample_well_shaped|]. split; [exact sample_merge|].
  split; [reflexivity|]. split; [reflexivity|].
  exact (time_series_slots_are_attended 0 0 99 (-100) Sample.tsf
           Sample.embeds Sample.ids Sample.mask (Some Sample.labels)
           Sample.out
           [[false; false; true; true; true; false; false];
            [false; false; false; false; false; false; false]] 0%nat 2%nat
           sample_well_shaped sample_merge eq_refl eq_refl).
Defined.

Lemma fused_padding_is_blank_witness :
  well_shaped Sample.tsf Sample.embeds Sample.ids Sample.mask
              (Some Sample.labels) /\
  Sample.merge Sample.tsf Sample.embeds Sample.ids Sample.mask
               (Some Sample.labels) = Ok Sample.out /\
  new_token_positions 0 99 3 Sample.ids =
    Ok [[0; 1; 4; 5; 6]; [2; 3; 4; 5; 6]] /\
  time_series_to_overwrite 0 99 3 Sample.ids =
    Ok [[false; false; true; true; true; false; false];
        [false; false; false; false; false; false; false]] /\
  Torch.lookup2 [[false; false; true; true; true; false; false];
                 [false; false; false; false; false; false; false]] 1 0 =
    Some false /\
  (forall j x, Torch.lookup2 Sample.ids 1 j = Some x -> x <> 99 ->
     Torch.lookup2 [[0; 1; 4; 5; 6]; [2; 3; 4; 5; 6]] 1 j <>
     Some (Z.of_nat 0)) /\
  Torch.lookup2 (final_attention_mask Sample.out) 1 0 = Some 0 /\
  Torch.lookup2 (final_embedding Sample.out) 1 0 = Some 0 /\
  Torch.lookup2 (fused_position_ids Sample.out) 1 0 = Some 1.
Proof.
  assert (Hfree : forall j x,
            Torch.lookup2 Sample.ids 1 j = Some x -> x <> 99 ->
            Torch.lookup2 [[0; 1; 4; 5; 6]; [2; 3; 4; 5; 6]] 1 j <>
            Some (Z.of_nat 0)).
  { intros j x _ _. by destruct j as [|[|[|[|[|j]]]]]. }
  split; [exact sample_well_shaped|]. split; [exact sample_merge|].
  split; [reflexivity|]. split; [reflexivity|]. split; [reflexivity|].
  split; [exact Hfree|].
  exact (fused_padding_is_blank 0 0 99 (-100) Sample.tsf Sample.embeds
           Sample.ids Sample.mask (Some Sample.labels) Sample.out
           [[0; 1; 4; 5; 6]; [2; 3; 4; 5; 6]]
           [[false; false; true; true; true; false; false];
            [false; false; false; false; false; false; false]] 1%nat 0%nat
           sample_well_shaped sample_merge eq_refl eq_refl eq_refl Hfree).
Defined.

Lemma features_are_read_back_witness :
  well_shaped Sample.tsf Sample.embeds Sample.ids Sample.mask
              (Some Sample.labels) /\
  0 <> 99 /\
  Sample.merge Sample.tsf Sample.embeds Sample.ids Sample.mask
               (Some Sample.labels) = Ok Sample.out /\
  time_series_to_overwrite 0 99 3 Sample.ids =
    Ok [[false; false; true; true; true; false; false];
        [false; false; false; false; false; false; false]] /\
  masked_select (final_embedding Sample.out)
    [[false; false; true; true; true; false; false];
     [false; false; false; false; false; false; false]] =
  Ok (flat Sample.tsf).
Proof.
  assert (Hne : 0 <> 99) by lia.
  split; [exact sample_well_shaped|]. split; [exact Hne|].
  split; [exact sample_merge|]. split; [reflexivity|].
  exact (features_are_read_back 0 0 99 (-100) Sample.tsf Sample.embeds
           Sample.ids Sample.mask (Some Sample.labels) Sample.out
           [[false; false; true; true; true; false; false];
            [false; false; false; false; false; false; false]]
           sample_well_shaped Hne sample_merge eq_refl).
Defined.

Lemma left_padded_rows_are_right_aligned_witness :
  well_shaped Sample.tsf Sample.embeds Sample.ids Sample.mask
              (Some Sample.labels) /\
  left_padding 0 Sample.ids = Ok true /\
  max_embed_dim 99 3 Sample.ids = Ok 7 /\
  new_token_positions 0 99 3 Sample.ids =
    Ok [[0; 1; 4; 5; 6]; [2; 3; 4; 5; 6]] /\
  time_series_to_overwrite 0 99 3 Sample.ids =
    Ok [[false; false; true; true; true; false; false];
        [false; false; false; false; false; false; false]] /\
  Sample.ids !! 1%nat = Some [1; 2; 3; 4; 5] /\
  (1 < Z.to_nat 7)%nat /\
  let offset := 7 - row_fused_length 99 3 [1; 2; 3; 4; 5] in
  let free :=
    forall j x, Torch.lookup2 Sample.ids 1 j = Some x -> x <> 99 ->
      Torch.lookup2 [[0; 1; 4; 5; 6]; [2; 3; 4; 5; 6]] 1 j <>
      Some (Z.of_nat 1) in
  0 <= offset /\
  (Z.of_nat 1 < offset ->
   free /\
   Torch.lookup2 [[false; false; true; true; true; false; false];
                  [false; false; false; false; false; false; false]] 1 1 =
     Some false /\
   forall out,
     Sample.merge Sample.tsf Sample.embeds Sample.ids Sample.mask
                  (Some Sample.labels) = Ok out ->
     Torch.lookup2 (final_attention_mask out) 1 1 = Some 0 /\
     Torch.lookup2 (final_embedding out) 1 1 = Some 0 /\
     Torch.lookup2 (fused_position_ids out) 1 1 = Some 1) /\
  (offset <= Z.of_nat 1 ->
   (Torch.lookup2 [[false; false; true; true; true; false; false];
                   [false; false; false; false; false; false; false]] 1 1 =
      Some true <-> free)).
Proof.
  assert (Hk : (1 < Z.to_nat 7)%nat) by (cbn; lia).
  split; [exact sample_well_shaped|]. split; [reflexivity|].
  split; [reflexivity|]. split; [reflexivity|]. split; [reflexivity|].
  split; [reflexivity|]. split; [exact Hk|].
  exact (left_padded_rows_are_right_aligned 0 0 99 (-100) Sample.tsf
           Sample.embeds Sample.ids Sample.mask (Some Sample.labels) 7
           [[0; 1; 4; 5; 6]; [2; 3; 4; 5; 6]]
           [[false; false; true; true; true; false; false];
            [false; false; false; false; false; false; false]]
           1%nat [1; 2; 3; 4; 5] 1%nat
           sample_well_shaped eq_refl eq_refl eq_refl eq_refl eq_refl Hk).
Defined.

Lemma no_pad_token_configured_witness :
  well_shaped Sample.tsf Sample.embeds Sample.ids Sample.mask
              (Some Sample.labels) /\
  Forall (Forall (fun x => 0 <= x)) Sample.ids /\
  left_padding (init_pad_token_id None) Sample.ids = Ok true /\
  forall out med b j row x,
    _merge_input_ids_with_time_series_features 0
      (init_pad_token_id None) 99 (-100) Sample.tsf Sample.embeds Sample.ids
      Sample.mask (Some Sample.labels) = Ok out ->
    max_embed_dim 99 3 Sample.ids = Ok med ->
    Sample.ids !! b = Some row -> row !! j = Some x -> x <> 99 ->
    Torch.lookup2 (final_embedding out) b
      (Z.to_nat (destination 99 3 true med row j)) =
    Torch.lookup2 Sample.embeds b j.
Proof.
  assert (Hpos : Forall (Forall (fun x => 0 <= x)) Sample.ids)
    by (repeat constructor; lia).
  split; [exact sample_well_shaped|]. split; [exact Hpos|].
  exact (no_pad_token_configured 0 99 (-100) Sample.tsf Sample.embeds
           Sample.ids Sample.mask (Some Sample.labels) sample_well_shaped
           Hpos).
Defined.

Lemma prefill_merges_or_rejects_witness :
  well_shaped Sample.tsf (Torch.pointwise (fun x => 10 * x) Sample.ids)
              Sample.ids Sample.mask (Some Sample.labels) /\
  sequence_length Sample.ids <> 1%nat /\
  (Sample.step (Some Sample.ids) (Some tt) None (Some Sample.mask) None None
               None (Some Sample.labels) = Raise ValueError <->
   total_placeholders 99 Sample.ids <> Z.of_nat (num_time_series Sample.tsf))
  /\
  (total_placeholders 99 Sample.ids = Z.of_nat (num_time_series Sample.tsf) ->
   exists out,
     Sample.merge Sample.tsf (Torch.pointwise (fun x => 10 * x) Sample.ids)
                  Sample.ids Sample.mask (Some Sample.labels) = Ok out /\
     Sample.step (Some Sample.ids) (Some tt) None (Some Sample.mask) None None
                 None (Some Sample.labels) =
     Ok (LmInputs (Some (final_attention_mask out))
                  (Some (fused_position_ids out)) (final_embedding out)
                  (final_labels out))).
Proof.
  assert (ws : well_shaped Sample.tsf
                 (Torch.pointwise (fun x => 10 * x) Sample.ids)
                 Sample.ids Sample.mask (Some Sample.labels))
    by well_shaped_by_computation.
  assert (Hlen : sequence_length Sample.ids <> 1%nat) by (cbn; lia).
  split; [exact ws|]. split; [exact Hlen|].
  exact (prefill_merges_or_rejects 0 0 99 (-100) (fun x => 10 * x)
           (fun _ _ => Sample.tsf) Z.add 0 (fun k => k =? 0) Sample.ids tt
           None Sample.mask None None (Some Sample.labels) ws Hlen).
Defined.

Lemma extended_mask_hides_zero_slots_witness :
  (0 < 1)%nat /\
  (0 < kv_head_dim Sample.cache)%nat /\
  (kv_batch Sample.cache <= length [[1; 0; 1; 1]])%nat /\
  exists ext,
    extended_attention_mask Z.add 0 (fun k => k =? 0) Sample.cache
                            [[1; 0; 1; 1]] 1 = Ok ext /\
    length ext = length [[1; 0; 1; 1]] /\
    forall b row, [[1; 0; 1; 1]] !! b = Some row ->
      exists cache_row,
        ext !! b = Some (cache_row ++ suffix 1 row) /\
        length cache_row = kv_length Sample.cache /\
        forall t, (t < kv_length Sample.cache)%nat ->
          cache_row !! t =
          Some (if bool_decide (b < kv_batch Sample.cache)%nat &&
                   (summed_key Z.add 0 Sample.cache b t =? 0)
                then 0 else 1).
Proof.
  assert (Hd : (0 < kv_head_dim Sample.cache)%nat) by (cbn; lia).
  assert (Hb : (kv_batch Sample.cache <= length [[1; 0; 1; 1]])%nat)
    by (cbn; lia).
  assert (Hn : (0 < 1)%nat) by lia.
  split; [exact Hn|]. split; [exact Hd|]. split; [exact Hb|].
  exact (extended_mask_hides_zero_slots Z.add 0 (fun k => k =? 0)
           Sample.cache [[1; 0; 1; 1]] 1 Hn Hd Hb).
Defined.

Lemma loss_pairs_logits_with_next_labels_witness :
  shaped 1 3 [[1; 2; 3]] /\ shaped 1 3 [[10; 20; 30]] /\
  shaped 1 3 [[1; 0; 1]] /\
  exists shift_logits shift_labels,
    forward_loss (fun lg lb => (lg, lb)) [[1; 2; 3]] (Some [[10; 20; 30]])
                 (Some [[1; 0; 1]]) =
      Ok (Some (shift_logits, shift_labels)) /\
    length shift_logits = length shift_labels /\
    forall g y,
      (g, y) ∈ zip shift_logits shift_labels <->
      exists b t m,
        Torch.lookup2 [[1; 2; 3]] b t = Some g /\
        Torch.lookup2 [[10; 20; 30]] b (S t) = Some y /\
        Torch.lookup2 [[1; 0; 1]] b (S t) = Some m /\ m <> 0.
Proof.
  assert (H1 : shaped 1 3 [[1; 2; 3]]) by shaped_by_computation.
  assert (H2 : shaped 1 3 [[10; 20; 30]]) by shaped_by_computation.
  assert (H3 : shaped 1 3 [[1; 0; 1]]) by shaped_by_computation.
  split; [exact H1|]. split; [exact H2|]. split; [exact H3|].
  exact (loss_pairs_logits_with_next_labels (fun lg lb => (lg, lb)) 1 3
           [[1; 2; 3]] [[10; 20; 30]] [[1; 0; 1]] H1 H2 H3).
Defined.

Lemma projector_on_valid_patches_witness :
  (forall x, x * 0 = 0) /\ (forall x, x * 1 = x) /\ 1 - 1 = 0 /\
  (forall x, x + 0 = x) /\
  shaped 1 2 [[1; 3]] /\ shaped 1 2 [[1; 1]] /\
  Forall (Forall (fun v => v = 1)) [[1; 1]] /\
  Sample.projector [[1; 3]] [[1; 1]] =
  Torch.pointwise (fun x => (fun h => h + 1) (Z.max 0 ((fun x => 2 * x) x)))
                  [[1; 3]].
Proof.
  assert (H1 : shaped 1 2 [[1; 3]]) by shaped_by_computation.
  assert (H2 : shaped 1 2 [[1; 1]]) by shaped_by_computation.
  assert (H3 : Forall (Forall (fun v => v = 1)) [[1; 1]])
    by (repeat constructor).
  split; [intros x; lia|]. split; [intros x; lia|]. split; [lia|].
  split; [intros x; lia|]. split; [exact H1|]. split; [exact H2|].
  split; [exact H3|].
  exact (projector_on_valid_patches Z.mul Z.add Z.sub 0 1 0 5
           (fun x => 2 * x) (Z.max 0) (fun h => h + 1)
           (fun x => Z.mul_0_r x) (fun x => Z.mul_1_r x) eq_refl
           (fun x => Z.add_0_r x) 1 2 [[1; 3]] [[1; 1]] H1 H2 H3).
Defined.

Lemma prepared_rows_are_suffixes_witness :
  prepare_inputs_for_generation 99 [[1; 2; 3]] (Some (LegacyTuple 2)) None
    None (Some [[1; 1; 1]]) (GenerationKwargs None None) =
    Ok (ModelInputs (E := Z) (TSV := unit) (inr [[3]]) (Some [[2]])
                    (Some (LegacyTuple 2)) None (Some [[1; 1; 1]]) None) /\
  (forall ids',
     mi_inputs (ModelInputs (E := Z) (TSV := unit) (inr [[3]]) (Some [[2]])
                    (Some (LegacyTuple 2)) None (Some [[1; 1; 1]]) None) = inr ids' ->
     Forall2 (fun r' r => r' `suffix_of` r) ids' [[1; 2; 3]]) /\
  (forall am',
     mi_attention_mask
       (ModelInputs (E := Z) (TSV := unit) (inr [[3]]) (Some [[2]])
                    (Some (LegacyTuple 2)) None (Some [[1; 1; 1]]) None) = Some am' ->
     exists am, Some [[1; 1; 1]] = Some am /\
       Forall2 (fun r' r => r' `suffix_of` r) am' am).
Proof.
  split; [reflexivity|].
  exact (prepared_rows_are_suffixes 99 [[1; 2; 3]] (Some (LegacyTuple 2))
           None None (Some [[1; 1; 1]]) (GenerationKwargs None None)
           (ModelInputs (E := Z) (TSV := unit) (inr [[3]]) (Some [[2]])
                    (Some (LegacyTuple 2)) None (Some [[1; 1; 1]]) None)
           eq_refl).
Defined.

Lemma seen_tokens_are_dropped_witness :
  shaped 1 3 [[1; 2; 3]] /\ shaped 1 3 [[1; 1; 1]] /\ (0 < 1)%nat /\
  (3 <= 3)%nat /\ (2 < 3)%nat /\
  cache_lengths (LegacyTuple 2) = Ok (2, 2)%nat /\ (2 <= 2)%nat /\
  past_truthy (Some (LegacyTuple 2)) = true /\
  kw_position_ids (GenerationKwargs None None) = None /\
  prepare_inputs_for_generation (E := Z) (TSV := unit) 99 [[1; 2; 3]]
    (Some (LegacyTuple 2)) None None (Some [[1; 1; 1]])
    (GenerationKwargs None None) =
  Ok (ModelInputs (inr (drop 2 <$> [[1; 2; 3]]))
        (Some ((fun row => suffix (3 - 2) (position_row row))
                 <$> [[1; 1; 1]]))
        (Some (LegacyTuple 2)) (kw_use_cache (GenerationKwargs None None))
        (Some [[1; 1; 1]]) None).
Proof.
  assert (H1 : shaped 1 3 [[1; 2; 3]]) by shaped_by_computation.
  assert (H2 : shaped 1 3 [[1; 1; 1]]) by shaped_by_computation.
  assert (HB : (0 < 1)%nat) by lia.
  assert (HA : (3 <= 3)%nat) by lia.
  assert (Hp : (2 < 3)%nat) by lia.
  assert (Hc : (2 <= 2)%nat) by lia.
  split; [exact H1|]. split; [exact H2|]. split; [exact HB|].
  split; [exact HA|]. split; [exact Hp|]. split; [reflexivity|].
  split; [exact Hc|]. split; [reflexivity|]. split; [reflexivity|].
  exact (seen_tokens_are_dropped (E := Z) (TSV := unit) 99 1 3 3 [[1; 2; 3]]
           [[1; 1; 1]] (LegacyTuple 2) 2 2 None None
           (GenerationKwargs None None) H1 H2 HB HA Hp eq_refl Hc eq_refl
           eq_refl).
Defined.

Lemma mask_longer_than_ids_witness :
  (sequence_length [[7]]%Z < sequence_length [[1; 1; 1]]%Z)%nat /\
  cache_lengths (LegacyTuple 2) = Ok (2, 2)%nat /\
  exists mi,
    prepare_inputs_for_generation (E := Z) (TSV := unit) 99 [[7]]
      (Some (LegacyTuple 2)) None None (Some [[1; 1; 1]])
      (GenerationKwargs None None) = Ok mi /\
    mi_inputs mi =
      inr ((if decide (2 < sequence_length [[1; 1; 1]]%Z)%nat
            then suffix (sequence_length [[1; 1; 1]]%Z - 2)%nat
            else drop (2 - sequence_length [[1; 1; 1]]%Z)%nat) <$> [[7]]).
Proof.
  assert (HA : (sequence_length [[7]]%Z < sequence_length [[1; 1; 1]]%Z)%nat)
    by (cbn; lia).
  split; [exact HA|]. split; [reflexivity|].
  exact (mask_longer_than_ids (E := Z) (TSV := unit) 99 [[7]] [[1; 1; 1]]
           (LegacyTuple 2) 2 2 None None (GenerationKwargs None None) HA
           eq_refl).
Defined.

Lemma seen_ids_keep_last_column_on_placeholder_witness :
  shaped 1 2 [[5; 99]] /\ (0 < 1)%nat /\
  (forall am, @None (list (list Z)) = Some am ->
     (sequence_length am <= 2)%nat) /\
  cache_lengths (LegacyTuple 2) = Ok (2, 2)%nat /\ (2 <= 2)%nat /\
  exists mi,
    prepare_inputs_for_generation (E := Z) (TSV := unit) 99 [[5; 99]]
      (Some (LegacyTuple 2)) None None None (GenerationKwargs None None) =
      Ok mi /\
    ((exists b j, Torch.lookup2 [[5; 99]] b j = Some 99) ->
     mi_inputs mi = inr (suffix 1 <$> [[5; 99]])) /\
    ((forall b j, Torch.lookup2 [[5; 99]] b j <> Some 99) ->
     mi_inputs mi = inr [[5; 99]]).
Proof.
  assert (H1 : shaped 1 2 [[5; 99]]) by shaped_by_computation.
  assert (HB : (0 < 1)%nat) by lia.
  assert (Ham : forall am, @None (list (list Z)) = Some am ->
                  (sequence_length am <= 2)%nat) by (intros am [=]).
  assert (Hp : (2 <= 2)%nat) by lia.
  split; [exact H1|]. split; [exact HB|]. split; [exact Ham|].
  split; [reflexivity|]. split; [exact Hp|].
  exact (seen_ids_keep_last_column_on_placeholder (E := Z) (TSV := unit) 99
           1 2 [[5; 99]] None (LegacyTuple 2) 2 2 None None
           (GenerationKwargs None None) H1 HB Ham eq_refl Hp).
Defined.

Lemma mask_trimmed_by_bounded_cache_only_witness :
  prepare_inputs_for_generation 99 [[1; 2; 3; 4]]
    (Some (CacheObject 1 3 true)) None None (Some [[1; 1; 1; 1]])
    (GenerationKwargs None None) =
    Ok (ModelInputs (E := Z) (TSV := unit) (inr [[4]]) (Some [[1]])
          (Some (CacheObject 1 3 true)) None (Some [[1; 1]]) None) /\
  (Some [[1; 1]] <> Some [[1; 1; 1; 1]] ->
   exists c s t,
     Some (CacheObject 1 3 true) = Some (CacheObject c s t) /\ (c < s)%nat)
  /\
  (forall c s t am ids',
     Some (CacheObject 1 3 true) = Some (CacheObject c s t) -> (c < s)%nat ->
     Some [[1; 1; 1; 1]] = Some am ->
     @inr (list (list Z)) _ [[4]] = inr ids' ->
     (0 < c + sequence_length ids')%nat ->
     Some [[1; 1]] = Some (suffix (c + sequence_length ids') <$> am)).
Proof.
  split; [reflexivity|].
  exact (mask_trimmed_by_bounded_cache_only 99 [[1; 2; 3; 4]]
           (Some (CacheObject 1 3 true)) None None (Some [[1; 1; 1; 1]])
           (GenerationKwargs None None)
           (ModelInputs (E := Z) (TSV := unit) (inr [[4]]) (Some [[1]])
              (Some (CacheObject 1 3 true)) None (Some [[1; 1]]) None)
           eq_refl).
Defined.

Lemma first_step_position_ids_witness :
  is_mask [[0; 1; 1]] /\
  kw_position_ids (GenerationKwargs None None) = None /\
  exists mi pos,
    prepare_inputs_for_generation (TSV := unit) 99 [[0; 5; 6]] None
      (Some [[0; 50; 60]]) (Some tt) (Some [[0; 1; 1]])
      (GenerationKwargs None None) = Ok mi /\
    mi_position_ids mi = Some pos /\
    mi_attention_mask mi = Some [[0; 1; 1]] /\
    (forall b row k m,
       [[0; 1; 1]] !! b = Some row -> row !! k = Some m ->
       Torch.lookup2 pos b k =
       Some (if m =? 0 then 1 else count_nonzero (take (S k) row) - 1)) /\
    (forall e, Some [[0; 50; 60]] = Some e ->
       mi_inputs mi = inl e /\
       Sample.step None (mi_time_series_values mi) None
                   (mi_attention_mask mi) (mi_position_ids mi) None (Some e)
                   None =
       Ok (LmInputs (Some [[0; 1; 1]]) (Some pos) e None)).
Proof.
  assert (Hm : is_mask [[0; 1; 1]]) by is_mask_by_computation.
  split; [exact Hm|]. split; [reflexivity|].
  exact (first_step_position_ids 0 0 99 (-100) (fun x => 10 * x)
           (fun _ _ => Sample.tsf) Z.add 0 (fun k => k =? 0) [[0; 5; 6]]
           (Some [[0; 50; 60]]) (Some tt) None [[0; 1; 1]]
           (GenerationKwargs None None) None Hm eq_refl).
Defined.

Lemma unused_cache_object_is_no_cache_witness :
  shaped 1 3 [[1; 2; 3]] /\ (0 < 1)%nat /\
  exists mi,
    prepare_inputs_for_generation (E := Z) (TSV := unit) 99 [[1; 2; 3]] None
      None None (Some [[1; 1; 1; 1]]) (GenerationKwargs None None) = Ok mi /\
    mi_inputs mi = inr [[1; 2; 3]] /\
    prepare_inputs_for_generation 99 [[1; 2; 3]]
      (Some (CacheObject 0 0 false)) (Some [[10; 20; 30]]) None
      (Some [[1; 1; 1; 1]]) (GenerationKwargs None None) =
      Ok (ModelInputs (mi_inputs mi) (mi_position_ids mi)
            (Some (CacheObject 0 0 false)) (mi_use_cache mi)
            (mi_attention_mask mi) (mi_time_series_values mi)).
Proof.
  assert (H1 : shaped 1 3 [[1; 2; 3]]) by shaped_by_computation.
  assert (HB : (0 < 1)%nat) by lia.
  split; [exact H1|]. split; [exact HB|].
  exact (unused_cache_object_is_no_cache (E := Z) (TSV := unit) 99 1 3
           [[1; 2; 3]] 0 (Some [[10; 20; 30]]) None (Some [[1; 1; 1; 1]])
           (GenerationKwargs None None) H1 HB).
Defined.

Lemma loss_with_full_mask_is_loss_without_mask_witness :
  shaped 1 3 [[1; 2; 3]] /\ shaped 1 3 [[10; 20; 30]] /\
  shaped 1 3 [[1; 1; 1]] /\
  Forall (Forall (fun m => m <> 0)) [[1; 1; 1]] /\
  forward_loss (fun lg lb => (lg, lb)) [[1; 2; 3]] (Some [[10; 20; 30]])
               (Some [[1; 1; 1]]) =
    forward_loss (fun lg lb => (lg, lb)) [[1; 2; 3]] (Some [[10; 20; 30]])
                 None /\
  forward_loss (fun lg lb => (lg, lb)) [[1; 2; 3]] (Some [[10; 20; 30]])
               None =
    Ok (Some (concat (drop_last <$> [[1; 2; 3]]),
              concat (drop 1 <$> [[10; 20; 30]]))).
Proof.
  assert (H1 : shaped 1 3 [[1; 2; 3]]) by shaped_by_computation.
  assert (H2 : shaped 1 3 [[10; 20; 30]]) by shaped_by_computation.
  assert (H3 : shaped 1 3 [[1; 1; 1]]) by shaped_by_computation.
  assert (H4 : Forall (Forall (fun m => m <> 0)) [[1; 1; 1]])
    by (repeat constructor; lia).
  split; [exact H1|]. split; [exact H2|]. split; [exact H3|].
  split; [exact H4|].
  exact (loss_with_full_mask_is_loss_without_mask (fun lg lb => (lg, lb)) 1 3
           [[1; 2; 3]] [[10; 20; 30]] [[1; 1; 1]] H1 H2 H3 H4).
Defined.
